(** * dockermonitor: a shallow embedding of main.go

    The program polls a container runtime through three commands and
    stores what they answer in a registry of named environments.  This
    file embeds the program (the registry, the three probes, the
    workflow runner and [main]) together with the parts of the Go
    standard library its behaviour depends on ([strings.ReplaceAll],
    [strings.Split], [strings.TrimSpace], [strings.HasSuffix] and
    [encoding/json.Unmarshal] into a struct of string fields), and proves
    the properties the specification states about it.

    A Go [string] is a sequence of bytes: it is a Rocq [string], one
    [ascii] per byte.  A Go [int] is a 64-bit two's complement integer:
    it is a [Z] and every addition wraps ([int_add]). *)

From Stdlib Require Import ZArith Lia Bool Ascii String.
From stdpp Require Import base list gmap strings.

#[local] Arguments String.append !_ _ / : simpl nomatch.

(** ** Bytes *)

Definition code (c : ascii) : N := N_of_ascii c.

Definition between (lo hi : N) (c : ascii) : bool :=
  ((lo <=? code c) && (code c <=? hi))%N.

(** The double quote, the character the whole program turns around. *)
Definition dquote : ascii := "034"%char.
Definition backslash : ascii := "\"%char.

(** [quoted s] is [s] with a double quote on each side. *)
Definition quoted (s : string) : string :=
  String dquote (s +:+ String dquote "").

(** ** Package unicode/utf8 *)

Module utf8.

Definition RuneSelf : N := 128.

Definition cont (c : ascii) : bool := between 128 191 c.

(** [width s] is the number of bytes of the well-formed encoding that
    [s] starts with, and 0 when [s] starts with no such encoding
    ([DecodeRune] then answers [RuneError] with width 1).  The ranges
    are those of the tables [first] and [acceptRanges]. *)
Definition width (s : string) : nat :=
  match s with
  | EmptyString => 0
  | String c0 s1 =>
    if (code c0 <? 128)%N then 1
    else if between 194 223 c0 then
      match s1 with
      | String c1 _ => if cont c1 then 2 else 0
      | _ => 0
      end
    else if between 224 239 c0 then
      match s1 with
      | String c1 (String c2 _) =>
        let lo := if (code c0 =? 224)%N then 160%N else 128%N in
        let hi := if (code c0 =? 237)%N then 159%N else 191%N in
        if between lo hi c1 && cont c2 then 3 else 0
      | _ => 0
      end
    else if between 240 244 c0 then
      match s1 with
      | String c1 (String c2 (String c3 _)) =>
        let lo := if (code c0 =? 240)%N then 144%N else 128%N in
        let hi := if (code c0 =? 244)%N then 143%N else 191%N in
        if between lo hi c1 && cont c2 && cont c3 then 4 else 0
      | _ => 0
      end
    else 0
  end.

Definition byte (n : N) : ascii := ascii_of_N (n mod 256).

Definition RuneError : N := 65533.

(** [EncodeRune]: surrogates and values above U+10FFFF are written as
    U+FFFD. *)
Definition EncodeRune (r : N) : string :=
  let r := if ((55296 <=? r) && (r <=? 57343) || (1114111 <? r))%N
           then RuneError else r in
  if (r <? 128)%N then String (byte r) ""
  else if (r <? 2048)%N then
    String (byte (192 + r / 64)) (String (byte (128 + r mod 64)) "")
  else if (r <? 65536)%N then
    String (byte (224 + r / 4096))
      (String (byte (128 + (r / 64) mod 64))
         (String (byte (128 + r mod 64)) ""))
  else
    String (byte (240 + r / 262144))
      (String (byte (128 + (r / 4096) mod 64))
         (String (byte (128 + (r / 64) mod 64))
            (String (byte (128 + r mod 64)) ""))).

End utf8.

(** ** Package strings *)

Module strings.

Fixpoint HasPrefix (s prefix : string) {struct prefix} : bool :=
  match prefix with
  | EmptyString => true
  | String p prefix' =>
    match s with
    | EmptyString => false
    | String c s' => Ascii.eqb c p && HasPrefix s' prefix'
    end
  end.

(** [s[n:]] and [s[:n]] for [n <= len(s)]. *)
Fixpoint slice_from (s : string) (n : nat) : string :=
  match n, s with
  | S n', String _ s' => slice_from s' n'
  | _, _ => s
  end.

Fixpoint slice_to (s : string) (n : nat) : string :=
  match n, s with
  | S n', String c s' => String c (slice_to s' n')
  | _, _ => EmptyString
  end.

(** [len(s) >= len(suffix) && s[len(s)-len(suffix):] == suffix] *)
Definition HasSuffix (s suffix : string) : bool :=
  (String.length suffix <=? String.length s) &&
  String.eqb (slice_from s (String.length s - String.length suffix)) suffix.

(** [Replace(s, old, new, -1)] for a non-empty [old], which is how the
    program calls it: the occurrences of [old] are found from left to
    right and do not overlap.  [inside] counts the bytes of the
    occurrence being replaced that are still to be passed over. *)
Fixpoint replace_go (inside : nat) (s old new : string) : string :=
  match s with
  | EmptyString => EmptyString
  | String c s' =>
    match inside with
    | S k => replace_go k s' old new
    | O =>
      if HasPrefix s old
      then new +:+ replace_go (String.length old - 1) s' old new
      else String c (replace_go 0 s' old new)
    end
  end.

Definition ReplaceAll (s old new : string) : string :=
  if String.eqb old new then s else replace_go 0 s old new.

(** [Split(s, sep)] for a non-empty [sep]: the pieces between the
    occurrences of [sep], found from left to right without overlap;
    one piece more than there are occurrences. *)
Definition push_front (c : ascii) (pieces : list string) : list string :=
  match pieces with
  | piece :: rest => String c piece :: rest
  | [] => [String c EmptyString]
  end.

Fixpoint split_go (inside : nat) (s sep : string) : list string :=
  match s with
  | EmptyString => [EmptyString]
  | String c s' =>
    match inside with
    | S k => split_go k s' sep
    | O =>
      if HasPrefix s sep
      then EmptyString :: split_go (String.length sep - 1) s' sep
      else push_front c (split_go 0 s' sep)
    end
  end.

Definition Split (s sep : string) : list string := split_go 0 s sep.

(** [unicode.IsSpace], on the encoding: the width of the white space
    rune [s] starts with, 0 when it starts with none.  The runes are
    U+0009..U+000D, U+0020, U+0085, U+00A0, U+1680, U+2000..U+200A,
    U+2028, U+2029, U+202F, U+205F and U+3000. *)
Definition asciiSpace (c : ascii) : bool :=
  between 9 13 c || (code c =? 32)%N.

Definition space_width (s : string) : nat :=
  match s with
  | EmptyString => 0
  | String c0 s1 =>
    if asciiSpace c0 then 1
    else
      match code c0, s1 with
      | 194%N, String c1 _ =>
        if ((code c1 =? 133) || (code c1 =? 160))%N then 2 else 0
      | 225%N, String c1 (String c2 _) =>
        if ((code c1 =? 154) && (code c2 =? 128))%N then 3 else 0
      | 226%N, String c1 (String c2 _) =>
        if (code c1 =? 128)%N then
          if between 128 138 c2 || between 168 169 c2 || (code c2 =? 175)%N
          then 3 else 0
        else if ((code c1 =? 129) && (code c2 =? 159))%N then 3 else 0
      | 227%N, String c1 (String c2 _) =>
        if ((code c1 =? 128) && (code c2 =? 128))%N then 3 else 0
      | _, _ => 0
      end
  end.

(** [TrimLeftFunc(s, unicode.IsSpace)] *)
Fixpoint trim_left_go (inside : nat) (s : string) : string :=
  match s with
  | EmptyString => EmptyString
  | String _ s' =>
    match inside with
    | S k => trim_left_go k s'
    | O => match space_width s with
           | O => s
           | S w => trim_left_go w s'
           end
    end
  end.

Definition TrimLeftSpace (s : string) : string := trim_left_go 0 s.

(** [TrimRightFunc(s, unicode.IsSpace)]: the shortest prefix of [s]
    that is followed by white space runes only. *)
Fixpoint TrimRightSpace (s : string) : string :=
  match s with
  | EmptyString => EmptyString
  | String c s' =>
    if String.eqb (TrimLeftSpace s) EmptyString then EmptyString
    else String c (TrimRightSpace s')
  end.

Definition TrimSpace (s : string) : string :=
  TrimRightSpace (TrimLeftSpace s).

Fixpoint Contains (s substr : string) : bool :=
  HasPrefix s substr ||
  match s with
  | EmptyString => false
  | String _ s' => Contains s' substr
  end.

End strings.

(** ** Package encoding/json

    [Unmarshal(data, &v)] for a [v] that is a struct whose fields are all
    strings, which is how the program calls it.  [checkValid] is the
    scanner of scanner.go, state for state.  The second pass of decode.go
    runs over data that [checkValid] has accepted; it is written here
    over the tokens of the data. *)

Module json.

(** *** scanner.go *)

Inductive parseState := parseObjectKey | parseObjectValue | parseArrayValue.

Inductive stepFn :=
| stateBeginValueOrEmpty | stateBeginValue
| stateBeginStringOrEmpty | stateBeginString
| stateEndValue | stateEndTop
| stateInString | stateInStringEsc
| stateInStringEscU | stateInStringEscU1
| stateInStringEscU12 | stateInStringEscU123
| stateNeg | state1 | state0 | stateDot | stateDot0
| stateE | stateESign | stateE0
| stateT | stateTr | stateTru
| stateF | stateFa | stateFal | stateFals
| stateN | stateNu | stateNul
| stateError.

(** The scanner: [parseStack] has the innermost state first; [err] is
    [s.err != nil]. *)
Record scanner := Scanner {
  step : stepFn;
  endTop : bool;
  parseStack : list parseState;
  err : bool
}.

Definition maxNestingDepth : N := 10000.

Definition reset : scanner :=
  {| step := stateBeginValue; endTop := false; parseStack := []; err := false |}.

Definition error (s : scanner) : scanner :=
  {| step := stateError; endTop := endTop s;
     parseStack := parseStack s; err := true |}.

Definition goto (f : stepFn) (s : scanner) : scanner :=
  {| step := f; endTop := endTop s; parseStack := parseStack s; err := err s |}.

Definition pushParseState (p : parseState) (s : scanner) : scanner :=
  let s' := {| step := step s; endTop := endTop s;
               parseStack := p :: parseStack s; err := err s |} in
  if (N.of_nat (length (parseStack s')) <=? maxNestingDepth)%N
  then s' else error s'.

Definition popParseState (s : scanner) : scanner :=
  match parseStack s with
  | [] => error s
  | [_] => {| step := stateEndTop; endTop := true; parseStack := []; err := err s |}
  | _ :: rest =>
    {| step := stateEndValue; endTop := endTop s; parseStack := rest; err := err s |}
  end.

Definition setTop (p : parseState) (s : scanner) : scanner :=
  match parseStack s with
  | [] => error s
  | _ :: rest =>
    {| step := step s; endTop := endTop s; parseStack := p :: rest; err := err s |}
  end.

Definition isSpace (c : ascii) : bool :=
  match c with
  | " "%char | "009"%char | "013"%char | "010"%char => true
  | _ => false
  end.

Definition isDigit (c : ascii) : bool := between 48 57 c.
Definition isDigit19 (c : ascii) : bool := between 49 57 c.
Definition isHex (c : ascii) : bool :=
  between 48 57 c || between 97 102 c || between 65 70 c.

Definition doEndTop (s : scanner) (c : ascii) : scanner :=
  if isSpace c then s else error s.

Definition doEndValue (s : scanner) (c : ascii) : scanner :=
  match parseStack s with
  | [] =>
    doEndTop {| step := stateEndTop; endTop := true;
                parseStack := []; err := err s |} c
  | ps :: _ =>
    if isSpace c then goto stateEndValue s
    else
      match ps, c with
      | parseObjectKey, ":"%char => goto stateBeginValue (setTop parseObjectValue s)
      | parseObjectValue, ","%char => goto stateBeginString (setTop parseObjectKey s)
      | parseObjectValue, "}"%char => popParseState s
      | parseArrayValue, ","%char => goto stateBeginValue s
      | parseArrayValue, "]"%char => popParseState s
      | _, _ => error s
      end
  end.

Definition doBeginValue (s : scanner) (c : ascii) : scanner :=
  if isSpace c then s
  else
    match c with
    | "{"%char => pushParseState parseObjectKey (goto stateBeginStringOrEmpty s)
    | "["%char => pushParseState parseArrayValue (goto stateBeginValueOrEmpty s)
    | "034"%char => goto stateInString s
    | "-"%char => goto stateNeg s
    | "0"%char => goto state0 s
    | "t"%char => goto stateT s
    | "f"%char => goto stateF s
    | "n"%char => goto stateN s
    | _ => if isDigit19 c then goto state1 s else error s
    end.

Definition doBeginValueOrEmpty (s : scanner) (c : ascii) : scanner :=
  if isSpace c then s
  else
    match c with
    | "]"%char => doEndValue s c
    | _ => doBeginValue s c
    end.

Definition doBeginString (s : scanner) (c : ascii) : scanner :=
  if isSpace c then s
  else
    match c with
    | "034"%char => goto stateInString s
    | _ => error s
    end.

Definition doBeginStringOrEmpty (s : scanner) (c : ascii) : scanner :=
  if isSpace c then s
  else
    match c with
    | "}"%char => doEndValue (setTop parseObjectValue s) c
    | _ => doBeginString s c
    end.

Definition doInString (s : scanner) (c : ascii) : scanner :=
  match c with
  | "034"%char => goto stateEndValue s
  | "\"%char => goto stateInStringEsc s
  | _ => if (code c <? 32)%N then error s else s
  end.

Definition doInStringEsc (s : scanner) (c : ascii) : scanner :=
  match c with
  | "b"%char | "f"%char | "n"%char | "r"%char | "t"%char
  | "\"%char | "/"%char | "034"%char => goto stateInString s
  | "u"%char => goto stateInStringEscU s
  | _ => error s
  end.

Definition expectHex (next : stepFn) (s : scanner) (c : ascii) : scanner :=
  if isHex c then goto next s else error s.

Definition expect (want : ascii) (next : stepFn) (s : scanner) (c : ascii)
  : scanner :=
  if Ascii.eqb c want then goto next s else error s.

Definition do0 (s : scanner) (c : ascii) : scanner :=
  match c with
  | "."%char => goto stateDot s
  | "e"%char | "E"%char => goto stateE s
  | _ => doEndValue s c
  end.

Definition do1 (s : scanner) (c : ascii) : scanner :=
  if isDigit c then goto state1 s else do0 s c.

Definition doNeg (s : scanner) (c : ascii) : scanner :=
  match c with
  | "0"%char => goto state0 s
  | _ => if isDigit19 c then goto state1 s else error s
  end.

Definition doDot (s : scanner) (c : ascii) : scanner :=
  if isDigit c then goto stateDot0 s else error s.

Definition doDot0 (s : scanner) (c : ascii) : scanner :=
  if isDigit c then s
  else
    match c with
    | "e"%char | "E"%char => goto stateE s
    | _ => doEndValue s c
    end.

Definition doESign (s : scanner) (c : ascii) : scanner :=
  if isDigit c then goto stateE0 s else error s.

Definition doE (s : scanner) (c : ascii) : scanner :=
  match c with
  | "+"%char | "-"%char => goto stateESign s
  | _ => doESign s c
  end.

Definition doE0 (s : scanner) (c : ascii) : scanner :=
  if isDigit c then s else doEndValue s c.

(** [s.step(s, c)] *)
Definition call (s : scanner) (c : ascii) : scanner :=
  match step s with
  | stateBeginValueOrEmpty => doBeginValueOrEmpty s c
  | stateBeginValue => doBeginValue s c
  | stateBeginStringOrEmpty => doBeginStringOrEmpty s c
  | stateBeginString => doBeginString s c
  | stateEndValue => doEndValue s c
  | stateEndTop => doEndTop s c
  | stateInString => doInString s c
  | stateInStringEsc => doInStringEsc s c
  | stateInStringEscU => expectHex stateInStringEscU1 s c
  | stateInStringEscU1 => expectHex stateInStringEscU12 s c
  | stateInStringEscU12 => expectHex stateInStringEscU123 s c
  | stateInStringEscU123 => expectHex stateInString s c
  | stateNeg => doNeg s c
  | state1 => do1 s c
  | state0 => do0 s c
  | stateDot => doDot s c
  | stateDot0 => doDot0 s c
  | stateE => doE s c
  | stateESign => doESign s c
  | stateE0 => doE0 s c
  | stateT => expect "r" stateTr s c
  | stateTr => expect "u" stateTru s c
  | stateTru => expect "e" stateEndValue s c
  | stateF => expect "a" stateFa s c
  | stateFa => expect "l" stateFal s c
  | stateFal => expect "s" stateFals s c
  | stateFals => expect "e" stateEndValue s c
  | stateN => expect "u" stateNu s c
  | stateNu => expect "l" stateNul s c
  | stateNul => expect "l" stateEndValue s c
  | stateError => error s
  end.

Fixpoint feed (s : scanner) (data : string) : scanner :=
  match data with
  | EmptyString => s
  | String c data' => feed (call s c) data'
  end.

(** [s.eof() != scanError] *)
Definition eof (s : scanner) : bool :=
  if err s then false
  else if endTop s then true
  else
    let s' := call s " " in
    endTop s' && negb (err s').

(** [checkValid(data, scan) == nil] *)
Definition checkValid (data : string) : bool := eof (feed reset data).

(** *** decode.go: the tokens of valid data *)

Inductive token :=
| TBeginObject | TEndObject | TBeginArray | TEndArray | TColon | TComma
| TString (raw : string)      (* what stands between the two quotes *)
| TLiteral (raw : string).    (* a number, true, false or null *)

(** What follows an opening quote, up to the quote that closes it. *)
Fixpoint string_body (s : string) : string :=
  match s with
  | EmptyString => EmptyString
  | String c s' =>
    match c with
    | "034"%char => EmptyString
    | "\"%char =>
      match s' with
      | String e s'' => String c (String e (string_body s''))
      | EmptyString => String c EmptyString
      end
    | _ => String c (string_body s')
    end
  end.

Definition isDelim (c : ascii) : bool :=
  isSpace c ||
  match c with
  | "{"%char | "}"%char | "["%char | "]"%char | ":"%char | ","%char
  | "034"%char => true
  | _ => false
  end.

Fixpoint literal_body (s : string) : string :=
  match s with
  | EmptyString => EmptyString
  | String c s' => if isDelim c then EmptyString else String c (literal_body s')
  end.

(** [inside] counts the bytes of the current token still to be passed
    over. *)
Fixpoint lex (inside : nat) (data : string) : list token :=
  match data with
  | EmptyString => []
  | String c data' =>
    match inside with
    | S k => lex k data'
    | O =>
      if isSpace c then lex 0 data'
      else
        match c with
        | "{"%char => TBeginObject :: lex 0 data'
        | "}"%char => TEndObject :: lex 0 data'
        | "["%char => TBeginArray :: lex 0 data'
        | "]"%char => TEndArray :: lex 0 data'
        | ":"%char => TColon :: lex 0 data'
        | ","%char => TComma :: lex 0 data'
        | "034"%char =>
          let raw := string_body data' in
          TString raw :: lex (S (String.length raw)) data'
        | _ =>
          let rest := literal_body data' in
          TLiteral (String c rest) :: lex (String.length rest) data'
        end
    end
  end.

(** *** decode.go: unquoteBytes *)

Definition hexval (c : ascii) : option N :=
  if between 48 57 c then Some (code c - 48)%N
  else if between 97 102 c then Some (code c - 87)%N
  else if between 65 70 c then Some (code c - 55)%N
  else None.

(** [getu4] on the four bytes after the backslash and the u. *)
Definition getu4 (h1 h2 h3 h4 : ascii) : option N :=
  match hexval h1, hexval h2, hexval h3, hexval h4 with
  | Some a, Some b, Some c, Some d => Some (((a * 16 + b) * 16 + c) * 16 + d)%N
  | _, _, _, _ => None
  end.

Definition IsSurrogate (r : N) : bool := ((55296 <=? r) && (r <? 57344))%N.

(** [utf16.DecodeRune(r1, r2)], [None] for U+FFFD. *)
Definition DecodeRune16 (r1 r2 : N) : option N :=
  if ((55296 <=? r1) && (r1 <? 56320) && (56320 <=? r2) && (r2 <? 57344))%N
  then Some ((r1 - 55296) * 1024 + (r2 - 56320) + 65536)%N
  else None.

Definition replacement : string := utf8.EncodeRune utf8.RuneError.

(** [unquote raw] is the string that the literal with the body [raw]
    denotes, [None] where unquoteBytes answers [ok = false].  [copy]
    counts the bytes of a well-formed multi-byte encoding still to be
    copied. *)
Fixpoint unquote_go (copy : nat) (s : string) : option string :=
  match s with
  | EmptyString => Some EmptyString
  | String c s' =>
    match copy with
    | S k => String c <$> unquote_go k s'
    | O =>
      match c with
      | "\"%char =>
        match s' with
        | EmptyString => None
        | String e s'' =>
          match e with
          | "034"%char | "\"%char | "/"%char | "'"%char =>
            String e <$> unquote_go 0 s''
          | "b"%char => String "008"%char <$> unquote_go 0 s''
          | "f"%char => String "012"%char <$> unquote_go 0 s''
          | "n"%char => String "010"%char <$> unquote_go 0 s''
          | "r"%char => String "013"%char <$> unquote_go 0 s''
          | "t"%char => String "009"%char <$> unquote_go 0 s''
          | "u"%char =>
            match s'' with
            | String h1 (String h2 (String h3 (String h4 r))) =>
              match getu4 h1 h2 h3 h4 with
              | None => None
              | Some rr =>
                if IsSurrogate rr then
                  match r with
                  | String "\"%char (String "u"%char
                      (String g1 (String g2 (String g3 (String g4 r2))))) =>
                    match getu4 g1 g2 g3 g4 with
                    | Some rr1 =>
                      match DecodeRune16 rr rr1 with
                      | Some dec =>
                        String.append (utf8.EncodeRune dec) <$> unquote_go 0 r2
                      | None => String.append replacement <$> unquote_go 0 r
                      end
                    | None => String.append replacement <$> unquote_go 0 r
                    end
                  | _ => String.append replacement <$> unquote_go 0 r
                  end
                else String.append (utf8.EncodeRune rr) <$> unquote_go 0 r
              end
            | _ => None
            end
          | _ => None
          end
        end
      | "034"%char => None
      | _ =>
        if (code c <? 32)%N then None
        else if (code c <? utf8.RuneSelf)%N then String c <$> unquote_go 0 s'
        else
          match utf8.width s with
          | O => String.append replacement <$> unquote_go 0 s'
          | S w => String c <$> unquote_go w s'
          end
      end
    end
  end.

Definition unquote (raw : string) : option string := unquote_go 0 raw.

(** *** fold.go

    [foldName]: ASCII letters go to upper case and a rune goes to the
    least rune it folds with.  U+017F and U+212A are the two runes
    outside ASCII that fold with an ASCII letter (S and K); every other
    rune outside ASCII folds to a rune outside ASCII, and is left as it
    is here, the names it is compared with being ASCII. *)
Fixpoint foldName (s : string) : string :=
  match s with
  | EmptyString => EmptyString
  | String c s' =>
    if between 97 122 c then String (ascii_of_N (code c - 32)) (foldName s')
    else
      match code c, s' with
      | 197%N, String c1 s'' =>
        if (code c1 =? 191)%N then String "S" (foldName s'')
        else String c (foldName s')
      | 226%N, String c1 (String c2 s'') =>
        if ((code c1 =? 132) && (code c2 =? 170))%N
        then String "K" (foldName s'')
        else String c (foldName s')
      | _, _ => String c (foldName s')
      end
  end.

(** *** decode.go: storing into a struct of strings *)

Inductive Error :=
| SyntaxError            (* checkValid refused the data *)
| UnmarshalTypeError.    (* a value that is not a string where one is due *)

(** The fields of the target as reflection sees them: the name in the
    json tag and the assignment to the field. *)
Class Struct (T : Type) := fields : list (string * (string -> T -> T)).

Fixpoint lookupBy {T} (p : string -> bool)
    (fs : list (string * (string -> T -> T))) : option (string -> T -> T) :=
  match fs with
  | [] => None
  | (name, set) :: fs' => if p name then Some set else lookupBy p fs'
  end.

(** [byExactName] first, [byFoldedName] next. *)
Definition findField {T} `{Struct T} (key : string) : option (string -> T -> T) :=
  match lookupBy (String.eqb key) fields with
  | Some set => Some set
  | None => lookupBy (fun name => String.eqb (foldName name) (foldName key)) fields
  end.

Definition saveError (e : option Error) : option Error :=
  match e with
  | Some _ => e
  | None => Some UnmarshalTypeError
  end.

Definition isNull (raw : string) : bool :=
  match raw with
  | String "n"%char _ => true
  | _ => false
  end.

(** Where [d.object] stands inside the outermost object. *)
Inductive place (T : Type) :=
| AtKey                                        (* a key or the closing brace *)
| AtColon (f : option (string -> T -> T))
| AtValue (f : option (string -> T -> T))
| Skipping (depth : nat)                       (* [d.skip()] in a nested value *)
| AtNext.                                      (* a comma or the closing brace *)
Arguments AtKey {T}.
Arguments AtColon {T} f.
Arguments AtValue {T} f.
Arguments Skipping {T} depth.
Arguments AtNext {T}.

Definition mismatch {T} (f : option (string -> T -> T)) (e : option Error)
  : option Error :=
  match f with
  | Some _ => saveError e
  | None => e
  end.

Fixpoint object {T} `{Struct T} (at_ : place T) (ts : list token) (v : T)
    (e : option Error) : T * option Error :=
  match ts with
  | [] => (v, e)
  | t :: ts' =>
    match at_, t with
    | AtKey, TString raw =>
      object (AtColon (unquote raw ≫= findField)) ts' v e
    | AtColon f, TColon => object (AtValue f) ts' v e
    | AtValue f, TString raw =>
      match f, unquote raw with
      | Some set, Some s => object AtNext ts' (set s v) e
      | _, _ => object AtNext ts' v e
      end
    | AtValue f, TLiteral raw =>
      object AtNext ts' v (if isNull raw then e else mismatch f e)
    | AtValue f, (TBeginObject | TBeginArray) =>
      object (Skipping 1) ts' v (mismatch f e)
    | Skipping d, (TBeginObject | TBeginArray) => object (Skipping (S d)) ts' v e
    | Skipping d, (TEndObject | TEndArray) =>
      match d with
      | S (S d') => object (Skipping (S d')) ts' v e
      | _ => object AtNext ts' v e
      end
    | Skipping d, _ => object (Skipping d) ts' v e
    | AtNext, TComma => object AtKey ts' v e
    | _, _ => (v, e)
    end
  end.

(** [d.value(rv)] at the top: an object is decoded into the struct,
    null leaves it alone, every other value is a type error. *)
Definition value {T} `{Struct T} (ts : list token) (v : T) : T * option Error :=
  match ts with
  | TBeginObject :: ts' => object AtKey ts' v None
  | TLiteral raw :: _ => (v, if isNull raw then None else Some UnmarshalTypeError)
  | TBeginArray :: _ | TString _ :: _ => (v, Some UnmarshalTypeError)
  | _ => (v, None)
  end.

(** [Unmarshal(data, &v)]: the new value of [v] and the error. *)
Definition Unmarshal {T} `{Struct T} (data : string) (v : T) : T * option Error :=
  if checkValid data then value (lex 0 data) v else (v, Some SyntaxError).

End json.

(** ** The program: data

    The field names of the two record types carry a prefix, Rocq having
    one name space for the projections of all records. *)

Record ContainerInfo := Build_ContainerInfo {
  cCommand : string;
  cCreatedAt : string;
  cID : string;
  cImage : string;
  cLabels : string;
  cLocalVolumes : string;
  cMounts : string;
  cNames : string;
  cNetworks : string;
  cPorts : string;
  cRunningFor : string;
  cSize : string;
  cState : string;
  cStatus : string
}.

(** The zero value of [ContainerInfo]. *)
Definition zero_ContainerInfo : ContainerInfo :=
  {| cCommand := "";
     cCreatedAt := "";
     cID := "";
     cImage := "";
     cLabels := "";
     cLocalVolumes := "";
     cMounts := "";
     cNames := "";
     cNetworks := "";
     cPorts := "";
     cRunningFor := "";
     cSize := "";
     cState := "";
     cStatus := "" |}.

(** The assignments [v.F = s], one per field. *)
Definition set_cCommand (s : string) (v : ContainerInfo) : ContainerInfo :=
  {| cCommand := s; cCreatedAt := cCreatedAt v; cID := cID v;
     cImage := cImage v; cLabels := cLabels v;
     cLocalVolumes := cLocalVolumes v; cMounts := cMounts v;
     cNames := cNames v; cNetworks := cNetworks v; cPorts := cPorts v;
     cRunningFor := cRunningFor v; cSize := cSize v;
     cState := cState v; cStatus := cStatus v |}.
Definition set_cCreatedAt (s : string) (v : ContainerInfo) : ContainerInfo :=
  {| cCommand := cCommand v; cCreatedAt := s; cID := cID v;
     cImage := cImage v; cLabels := cLabels v;
     cLocalVolumes := cLocalVolumes v; cMounts := cMounts v;
     cNames := cNames v; cNetworks := cNetworks v; cPorts := cPorts v;
     cRunningFor := cRunningFor v; cSize := cSize v;
     cState := cState v; cStatus := cStatus v |}.
Definition set_cID (s : string) (v : ContainerInfo) : ContainerInfo :=
  {| cCommand := cCommand v; cCreatedAt := cCreatedAt v; cID := s;
     cImage := cImage v; cLabels := cLabels v;
     cLocalVolumes := cLocalVolumes v; cMounts := cMounts v;
     cNames := cNames v; cNetworks := cNetworks v; cPorts := cPorts v;
     cRunningFor := cRunningFor v; cSize := cSize v;
     cState := cState v; cStatus := cStatus v |}.
Definition set_cImage (s : string) (v : ContainerInfo) : ContainerInfo :=
  {| cCommand := cCommand v; cCreatedAt := cCreatedAt v; cID := cID v;
     cImage := s; cLabels := cLabels v;
     cLocalVolumes := cLocalVolumes v; cMounts := cMounts v;
     cNames := cNames v; cNetworks := cNetworks v; cPorts := cPorts v;
     cRunningFor := cRunningFor v; cSize := cSize v;
     cState := cState v; cStatus := cStatus v |}.
Definition set_cLabels (s : string) (v : ContainerInfo) : ContainerInfo :=
  {| cCommand := cCommand v; cCreatedAt := cCreatedAt v; cID := cID v;
     cImage := cImage v; cLabels := s;
     cLocalVolumes := cLocalVolumes v; cMounts := cMounts v;
     cNames := cNames v; cNetworks := cNetworks v; cPorts := cPorts v;
     cRunningFor := cRunningFor v; cSize := cSize v;
     cState := cState v; cStatus := cStatus v |}.
Definition set_cLocalVolumes (s : string) (v : ContainerInfo) : ContainerInfo :=
  {| cCommand := cCommand v; cCreatedAt := cCreatedAt v; cID := cID v;
     cImage := cImage v; cLabels := cLabels v; cLocalVolumes := s;
     cMounts := cMounts v; cNames := cNames v;
     cNetworks := cNetworks v; cPorts := cPorts v;
     cRunningFor := cRunningFor v; cSize := cSize v;
     cState := cState v; cStatus := cStatus v |}.
Definition set_cMounts (s : string) (v : ContainerInfo) : ContainerInfo :=
  {| cCommand := cCommand v; cCreatedAt := cCreatedAt v; cID := cID v;
     cImage := cImage v; cLabels := cLabels v;
     cLocalVolumes := cLocalVolumes v; cMounts := s;
     cNames := cNames v; cNetworks := cNetworks v; cPorts := cPorts v;
     cRunningFor := cRunningFor v; cSize := cSize v;
     cState := cState v; cStatus := cStatus v |}.
Definition set_cNames (s : string) (v : ContainerInfo) : ContainerInfo :=
  {| cCommand := cCommand v; cCreatedAt := cCreatedAt v; cID := cID v;
     cImage := cImage v; cLabels := cLabels v;
     cLocalVolumes := cLocalVolumes v; cMounts := cMounts v;
     cNames := s; cNetworks := cNetworks v; cPorts := cPorts v;
     cRunningFor := cRunningFor v; cSize := cSize v;
     cState := cState v; cStatus := cStatus v |}.
Definition set_cNetworks (s : string) (v : ContainerInfo) : ContainerInfo :=
  {| cCommand := cCommand v; cCreatedAt := cCreatedAt v; cID := cID v;
     cImage := cImage v; cLabels := cLabels v;
     cLocalVolumes := cLocalVolumes v; cMounts := cMounts v;
     cNames := cNames v; cNetworks := s; cPorts := cPorts v;
     cRunningFor := cRunningFor v; cSize := cSize v;
     cState := cState v; cStatus := cStatus v |}.
Definition set_cPorts (s : string) (v : ContainerInfo) : ContainerInfo :=
  {| cCommand := cCommand v; cCreatedAt := cCreatedAt v; cID := cID v;
     cImage := cImage v; cLabels := cLabels v;
     cLocalVolumes := cLocalVolumes v; cMounts := cMounts v;
     cNames := cNames v; cNetworks := cNetworks v; cPorts := s;
     cRunningFor := cRunningFor v; cSize := cSize v;
     cState := cState v; cStatus := cStatus v |}.
Definition set_cRunningFor (s : string) (v : ContainerInfo) : ContainerInfo :=
  {| cCommand := cCommand v; cCreatedAt := cCreatedAt v; cID := cID v;
     cImage := cImage v; cLabels := cLabels v;
     cLocalVolumes := cLocalVolumes v; cMounts := cMounts v;
     cNames := cNames v; cNetworks := cNetworks v; cPorts := cPorts v;
     cRunningFor := s; cSize := cSize v; cState := cState v;
     cStatus := cStatus v |}.
Definition set_cSize (s : string) (v : ContainerInfo) : ContainerInfo :=
  {| cCommand := cCommand v; cCreatedAt := cCreatedAt v; cID := cID v;
     cImage := cImage v; cLabels := cLabels v;
     cLocalVolumes := cLocalVolumes v; cMounts := cMounts v;
     cNames := cNames v; cNetworks := cNetworks v; cPorts := cPorts v;
     cRunningFor := cRunningFor v; cSize := s; cState := cState v;
     cStatus := cStatus v |}.
Definition set_cState (s : string) (v : ContainerInfo) : ContainerInfo :=
  {| cCommand := cCommand v; cCreatedAt := cCreatedAt v; cID := cID v;
     cImage := cImage v; cLabels := cLabels v;
     cLocalVolumes := cLocalVolumes v; cMounts := cMounts v;
     cNames := cNames v; cNetworks := cNetworks v; cPorts := cPorts v;
     cRunningFor := cRunningFor v; cSize := cSize v; cState := s;
     cStatus := cStatus v |}.
Definition set_cStatus (s : string) (v : ContainerInfo) : ContainerInfo :=
  {| cCommand := cCommand v; cCreatedAt := cCreatedAt v; cID := cID v;
     cImage := cImage v; cLabels := cLabels v;
     cLocalVolumes := cLocalVolumes v; cMounts := cMounts v;
     cNames := cNames v; cNetworks := cNetworks v; cPorts := cPorts v;
     cRunningFor := cRunningFor v; cSize := cSize v;
     cState := cState v; cStatus := s |}.

(** The json tags of [ContainerInfo]. *)
#[export] Instance ContainerInfo_struct : json.Struct ContainerInfo :=
  [ ("command", set_cCommand);
    ("createdAt", set_cCreatedAt);
    ("id", set_cID);
    ("image", set_cImage);
    ("labels", set_cLabels);
    ("localVolumes", set_cLocalVolumes);
    ("mounts", set_cMounts);
    ("names", set_cNames);
    ("networks", set_cNetworks);
    ("ports", set_cPorts);
    ("runningFor", set_cRunningFor);
    ("size", set_cSize);
    ("state", set_cState);
    ("status", set_cStatus) ].

Record ImageInfo := Build_ImageInfo {
  iContainers : string;
  iCreatedAt : string;
  iCreatedSince : string;
  iDigest : string;
  iID : string;
  iRepository : string;
  iSharedSize : string;
  iSize : string;
  iTag : string;
  iUniqueSize : string;
  iVirtualSize : string
}.

(** The zero value of [ImageInfo]. *)
Definition zero_ImageInfo : ImageInfo :=
  {| iContainers := "";
     iCreatedAt := "";
     iCreatedSince := "";
     iDigest := "";
     iID := "";
     iRepository := "";
     iSharedSize := "";
     iSize := "";
     iTag := "";
     iUniqueSize := "";
     iVirtualSize := "" |}.

(** The assignments [v.F = s], one per field. *)
Definition set_iContainers (s : string) (v : ImageInfo) : ImageInfo :=
  {| iContainers := s; iCreatedAt := iCreatedAt v;
     iCreatedSince := iCreatedSince v; iDigest := iDigest v;
     iID := iID v; iRepository := iRepository v;
     iSharedSize := iSharedSize v; iSize := iSize v; iTag := iTag v;
     iUniqueSize := iUniqueSize v; iVirtualSize := iVirtualSize v |}.
Definition set_iCreatedAt (s : string) (v : ImageInfo) : ImageInfo :=
  {| iContainers := iContainers v; iCreatedAt := s;
     iCreatedSince := iCreatedSince v; iDigest := iDigest v;
     iID := iID v; iRepository := iRepository v;
     iSharedSize := iSharedSize v; iSize := iSize v; iTag := iTag v;
     iUniqueSize := iUniqueSize v; iVirtualSize := iVirtualSize v |}.
Definition set_iCreatedSince (s : string) (v : ImageInfo) : ImageInfo :=
  {| iContainers := iContainers v; iCreatedAt := iCreatedAt v;
     iCreatedSince := s; iDigest := iDigest v; iID := iID v;
     iRepository := iRepository v; iSharedSize := iSharedSize v;
     iSize := iSize v; iTag := iTag v; iUniqueSize := iUniqueSize v;
     iVirtualSize := iVirtualSize v |}.
Definition set_iDigest (s : string) (v : ImageInfo) : ImageInfo :=
  {| iContainers := iContainers v; iCreatedAt := iCreatedAt v;
     iCreatedSince := iCreatedSince v; iDigest := s; iID := iID v;
     iRepository := iRepository v; iSharedSize := iSharedSize v;
     iSize := iSize v; iTag := iTag v; iUniqueSize := iUniqueSize v;
     iVirtualSize := iVirtualSize v |}.
Definition set_iID (s : string) (v : ImageInfo) : ImageInfo :=
  {| iContainers := iContainers v; iCreatedAt := iCreatedAt v;
     iCreatedSince := iCreatedSince v; iDigest := iDigest v; iID := s;
     iRepository := iRepository v; iSharedSize := iSharedSize v;
     iSize := iSize v; iTag := iTag v; iUniqueSize := iUniqueSize v;
     iVirtualSize := iVirtualSize v |}.
Definition set_iRepository (s : string) (v : ImageInfo) : ImageInfo :=
  {| iContainers := iContainers v; iCreatedAt := iCreatedAt v;
     iCreatedSince := iCreatedSince v; iDigest := iDigest v;
     iID := iID v; iRepository := s; iSharedSize := iSharedSize v;
     iSize := iSize v; iTag := iTag v; iUniqueSize := iUniqueSize v;
     iVirtualSize := iVirtualSize v |}.
Definition set_iSharedSize (s : string) (v : ImageInfo) : ImageInfo :=
  {| iContainers := iContainers v; iCreatedAt := iCreatedAt v;
     iCreatedSince := iCreatedSince v; iDigest := iDigest v;
     iID := iID v; iRepository := iRepository v; iSharedSize := s;
     iSize := iSize v; iTag := iTag v; iUniqueSize := iUniqueSize v;
     iVirtualSize := iVirtualSize v |}.
Definition set_iSize (s : string) (v : ImageInfo) : ImageInfo :=
  {| iContainers := iContainers v; iCreatedAt := iCreatedAt v;
     iCreatedSince := iCreatedSince v; iDigest := iDigest v;
     iID := iID v; iRepository := iRepository v;
     iSharedSize := iSharedSize v; iSize := s; iTag := iTag v;
     iUniqueSize := iUniqueSize v; iVirtualSize := iVirtualSize v |}.
Definition set_iTag (s : string) (v : ImageInfo) : ImageInfo :=
  {| iContainers := iContainers v; iCreatedAt := iCreatedAt v;
     iCreatedSince := iCreatedSince v; iDigest := iDigest v;
     iID := iID v; iRepository := iRepository v;
     iSharedSize := iSharedSize v; iSize := iSize v; iTag := s;
     iUniqueSize := iUniqueSize v; iVirtualSize := iVirtualSize v |}.
Definition set_iUniqueSize (s : string) (v : ImageInfo) : ImageInfo :=
  {| iContainers := iContainers v; iCreatedAt := iCreatedAt v;
     iCreatedSince := iCreatedSince v; iDigest := iDigest v;
     iID := iID v; iRepository := iRepository v;
     iSharedSize := iSharedSize v; iSize := iSize v; iTag := iTag v;
     iUniqueSize := s; iVirtualSize := iVirtualSize v |}.
Definition set_iVirtualSize (s : string) (v : ImageInfo) : ImageInfo :=
  {| iContainers := iContainers v; iCreatedAt := iCreatedAt v;
     iCreatedSince := iCreatedSince v; iDigest := iDigest v;
     iID := iID v; iRepository := iRepository v;
     iSharedSize := iSharedSize v; iSize := iSize v; iTag := iTag v;
     iUniqueSize := iUniqueSize v; iVirtualSize := s |}.

(** The json tags of [ImageInfo]. *)
#[export] Instance ImageInfo_struct : json.Struct ImageInfo :=
  [ ("containers", set_iContainers);
    ("createdAt", set_iCreatedAt);
    ("createSince", set_iCreatedSince);
    ("digest", set_iDigest);
    ("id", set_iID);
    ("repository", set_iRepository);
    ("sharedSize", set_iSharedSize);
    ("size", set_iSize);
    ("tag", set_iTag);
    ("uniqueSize", set_iUniqueSize);
    ("virtualSize", set_iVirtualSize) ].

Record DockerEnvironment := Build_DockerEnvironment {
  Environment : string;
  StoppedContainers : Z;
  RunningContainers : Z;
  DockerVersion : string;
  TotalLocalDockerImages : Z;
  ContainersInfo : list ContainerInfo;
  ImagesInfo : list ImageInfo
}.

Record DockerMonitor := Build_DockerMonitor {
  DockerEnvironments : list DockerEnvironment
}.

(** The assignments [e.F = x] that the probes make. *)
Definition set_StoppedContainers (x : Z) (e : DockerEnvironment) : DockerEnvironment :=
  {| Environment := Environment e; StoppedContainers := x;
     RunningContainers := RunningContainers e; DockerVersion := DockerVersion e;
     TotalLocalDockerImages := TotalLocalDockerImages e;
     ContainersInfo := ContainersInfo e; ImagesInfo := ImagesInfo e |}.

Definition set_RunningContainers (x : Z) (e : DockerEnvironment) : DockerEnvironment :=
  {| Environment := Environment e; StoppedContainers := StoppedContainers e;
     RunningContainers := x; DockerVersion := DockerVersion e;
     TotalLocalDockerImages := TotalLocalDockerImages e;
     ContainersInfo := ContainersInfo e; ImagesInfo := ImagesInfo e |}.

Definition set_DockerVersion (x : string) (e : DockerEnvironment) : DockerEnvironment :=
  {| Environment := Environment e; StoppedContainers := StoppedContainers e;
     RunningContainers := RunningContainers e; DockerVersion := x;
     TotalLocalDockerImages := TotalLocalDockerImages e;
     ContainersInfo := ContainersInfo e; ImagesInfo := ImagesInfo e |}.

Definition set_TotalLocalDockerImages (x : Z) (e : DockerEnvironment)
  : DockerEnvironment :=
  {| Environment := Environment e; StoppedContainers := StoppedContainers e;
     RunningContainers := RunningContainers e; DockerVersion := DockerVersion e;
     TotalLocalDockerImages := x;
     ContainersInfo := ContainersInfo e; ImagesInfo := ImagesInfo e |}.

Definition set_ContainersInfo (x : list ContainerInfo) (e : DockerEnvironment)
  : DockerEnvironment :=
  {| Environment := Environment e; StoppedContainers := StoppedContainers e;
     RunningContainers := RunningContainers e; DockerVersion := DockerVersion e;
     TotalLocalDockerImages := TotalLocalDockerImages e;
     ContainersInfo := x; ImagesInfo := ImagesInfo e |}.

Definition set_ImagesInfo (x : list ImageInfo) (e : DockerEnvironment)
  : DockerEnvironment :=
  {| Environment := Environment e; StoppedContainers := StoppedContainers e;
     RunningContainers := RunningContainers e; DockerVersion := DockerVersion e;
     TotalLocalDockerImages := TotalLocalDockerImages e;
     ContainersInfo := ContainersInfo e; ImagesInfo := x |}.

(** ** The type int *)

Definition int_wrap (z : Z) : Z := ((z + 2 ^ 63) mod 2 ^ 64 - 2 ^ 63)%Z.
Definition int_add (a b : Z) : Z := int_wrap (a + b).
Definition MaxInt : Z := (2 ^ 63 - 1)%Z.

(** ** The world the program runs in

    What is outside the program: the host that runs the commands.  Its
    answer to a command is the output and the error of [cmd.Output()] or
    [cmd.CombinedOutput()], and may depend on the commands run before.
    Inside: the heap of the [DockerMonitor] values that the probes hold
    pointers to, the commands run so far and the lines printed so far. *)

Inductive error := ExecError (msg : string).

Record Cmd := Build_Cmd {
  argv : list string;
  combined : bool       (* CombinedOutput rather than Output *)
}.

Definition Host := list Cmd -> Cmd -> string * option error.

Inductive PrintArg :=
| PString (s : string)
| PInt (n : Z)
| PError (e : error).

Definition loc := nat.

Record World := Build_World {
  heap : gmap loc DockerMonitor;
  commands : list Cmd;
  console : list (list PrintArg)
}.

(** A computation either returns or panics. *)
Inductive outcome (A : Type) :=
| Returned (a : A)
| Panicked (msg : string).
Arguments Returned {A} a.
Arguments Panicked {A} msg.

Definition M (A : Type) : Type := World -> outcome A * World.

Definition ret {A} (a : A) : M A := fun w => (Returned a, w).

Definition bind {A B} (m : M A) (k : A -> M B) : M B :=
  fun w =>
    match m w with
    | (Returned a, w') => k a w'
    | (Panicked msg, w') => (Panicked msg, w')
    end.

Notation "x <- m ;; k" := (bind m (fun x => k))
  (at level 100, m at next level, right associativity).
Notation "m ;;; k" := (bind m (fun _ => k))
  (at level 100, right associativity).

Definition panic {A} (msg : string) : M A := fun w => (Panicked msg, w).

Definition Println (args : list PrintArg) : M unit :=
  fun w => (Returned tt,
            {| heap := heap w; commands := commands w;
               console := console w ++ [args] |}).

Definition new (d : DockerMonitor) : M loc :=
  fun w =>
    let l := fresh (dom (heap w)) in
    (Returned l,
     {| heap := <[l := d]> (heap w); commands := commands w;
        console := console w |}).

Definition nilDereference : string :=
  "invalid memory address or nil pointer dereference".
Definition outOfRange : string := "index out of range".

(** [*p] for reading; a pointer that points nowhere is nil. *)
Definition load (p : loc) : M DockerMonitor :=
  fun w =>
    match heap w !! p with
    | Some d => (Returned d, w)
    | None => (Panicked nilDereference, w)
    end.

Definition store (p : loc) (d : DockerMonitor) : M unit :=
  fun w => (Returned tt,
            {| heap := <[p := d]> (heap w); commands := commands w;
               console := console w |}).

(** [xs[i]] *)
Definition index {A} (xs : list A) (i : nat) : M A :=
  match xs !! i with
  | Some x => ret x
  | None => panic outOfRange
  end.

Section Program.

Variable host : Host.

(** [exec.Command(argv...).Output()] and [.CombinedOutput()] *)
Definition run (c : Cmd) : M (string * option error) :=
  fun w => (Returned (host (commands w) c),
            {| heap := heap w; commands := commands w ++ [c];
               console := console w |}).

Definition Output (argv : list string) : M (string * option error) :=
  run {| argv := argv; combined := false |}.

Definition CombinedOutput (argv : list string) : M (string * option error) :=
  run {| argv := argv; combined := true |}.

End Program.

(** ** The program: NewDockerMonitor *)

Definition InitialContainers : Z := 0.
Definition InitialLocalImages : Z := 0.

Definition newDockerEnvironment (env : string) : DockerEnvironment :=
  {| Environment := env;
     StoppedContainers := InitialContainers;
     RunningContainers := InitialContainers;
     DockerVersion := "";
     TotalLocalDockerImages := InitialLocalImages;
     ContainersInfo := [];
     ImagesInfo := [] |}.

(** The loop of [NewDockerMonitor]: one [append] per name. *)
Definition newDockerEnvironments (envs : list string) : list DockerEnvironment :=
  fold_left (fun dockerEnvironments env =>
               dockerEnvironments ++ [newDockerEnvironment env]) envs [].

Definition NewDockerMonitor (envs : list string) : M loc :=
  new {| DockerEnvironments := newDockerEnvironments envs |}.

(** ** The program: the probes *)

(** [for index, x := range xs { acc = body(index, x, acc) }] *)
Fixpoint range {A B} (body : nat -> A -> B -> B) (index : nat) (xs : list A)
    (acc : B) : B :=
  match xs with
  | [] => acc
  | x :: xs' => range body (S index) xs' (body index x acc)
  end.

(** [for index, dockerEnv := range d.DockerEnvironments { ... }] where the
    body assigns to [d.DockerEnvironments[index]]: the slice is the one
    being ranged over, so [dockerEnv] is read from the current contents.
    [n] is the number of rounds left. *)
Fixpoint rangeEnvironments
    (body : nat -> DockerEnvironment -> list DockerEnvironment ->
            list DockerEnvironment)
    (n index : nat) (envs : list DockerEnvironment) : list DockerEnvironment :=
  match n with
  | O => envs
  | S n' =>
    match envs !! index with
    | Some dockerEnv =>
      rangeEnvironments body n' (S index) (body index dockerEnv envs)
    | None => envs
    end
  end.

(** The three loops over the registry share their frame; [assign] is the
    sequence of assignments to [DockerEnvironments[index]]. *)
Definition updateMatching (env : string)
    (assign : DockerEnvironment -> DockerEnvironment)
    (d : DockerMonitor) : DockerMonitor :=
  let envs := DockerEnvironments d in
  {| DockerEnvironments :=
       rangeEnvironments
         (fun index dockerEnv envs =>
            if String.eqb (Environment dockerEnv) env
            then alter assign index envs
            else envs)
         (length envs) 0 envs |}.

Definition TrimSuffix (s suffix : string) : string :=
  if strings.HasSuffix s suffix
  then strings.slice_to s (String.length s - String.length suffix)
  else s.

(** The two markers and the separator put in front of them. *)
Definition containerMarker : string :=
  String dquote ("{" +:+ String dquote ("Command" +:+ String dquote ":")).
Definition imageMarker : string :=
  String dquote ("{" +:+ String dquote ("Containers" +:+ String dquote ":")).
Definition sentinel : string := "<===>".
Definition separator : string := sentinel +:+ String dquote "".

(** Lines 122 to 142: from the output of the command to the two counts
    and the records. *)
Definition countContainer (index : nat) (cont : string)
    (acc : Z * Z * list ContainerInfo) : Z * Z * list ContainerInfo :=
  let '(stopped, running, containerOutput) := acc in
  if negb (index =? 0)%nat then
    let cont := strings.TrimSpace cont in
    let cont := TrimSuffix cont (String dquote "") in
    let jsonContainer := (json.Unmarshal cont zero_ContainerInfo).1 in
    if String.eqb (cState jsonContainer) "exited"
    then (int_add stopped 1, running, containerOutput ++ [jsonContainer])
    else (stopped, int_add running 1, containerOutput ++ [jsonContainer])
  else acc.

Definition splitContainers (out : string) : Z * Z * list ContainerInfo :=
  let adjustedString :=
    strings.ReplaceAll out containerMarker (sentinel +:+ containerMarker) in
  let containersArray := strings.Split adjustedString separator in
  range countContainer 0 containersArray (0%Z, 0%Z, []).

(** Lines 171 to 191. *)
Definition countImage (index : nat) (img : string)
    (acc : Z * list ImageInfo) : Z * list ImageInfo :=
  let '(totalImages, imageOutput) := acc in
  if negb (index =? 0)%nat then
    let img := strings.TrimSpace img in
    let img := TrimSuffix img (String dquote "") in
    let jsonImage := (json.Unmarshal img zero_ImageInfo).1 in
    (int_add totalImages 1, imageOutput ++ [jsonImage])
  else acc.

Definition splitImages (out : string) : Z * list ImageInfo :=
  let adjustedString :=
    strings.ReplaceAll out imageMarker (sentinel +:+ imageMarker) in
  let imagesArray := strings.Split adjustedString separator in
  range countImage 0 imagesArray (0%Z, []).

(** The format argument of the two listings: the template in quotes. *)
Definition jsonFormat : string := quoted "{{json .}}".

(** The three implementations of the interface [Action]; each holds the
    pointer to the monitor it was made from. *)
Inductive Action :=
| CheckDockerVersion (dockerMonitor : loc)
| CheckContainersStatus (dockerMonitor : loc)
| CheckLocalImages (dockerMonitor : loc).

Section Probes.

Variable host : Host.

Definition CheckDockerVersion_execute (dockerMonitor : loc) (env : string)
  : M (option error) :=
  r <- Output host ["docker"; "--version"] ;;
  match r.2 with
  | Some err => ret (Some err)
  | None =>
    let version := r.1 in
    d <- load dockerMonitor ;;
    store dockerMonitor (updateMatching env (set_DockerVersion version) d) ;;;
    Println [PString "Output:"; PString version] ;;;
    ret None
  end.

Definition CheckContainersStatus_execute (dockerMonitor : loc) (env : string)
  : M (option error) :=
  r <- CombinedOutput host
         ["docker"; "container"; "ls"; "-a"; "--format"; jsonFormat] ;;
  match r.2 with
  | Some err => ret (Some err)
  | None =>
    let '(stopped, running, containerOutput) := splitContainers r.1 in
    d <- load dockerMonitor ;;
    store dockerMonitor
      (updateMatching env
         (fun e => set_ContainersInfo containerOutput
                     (set_RunningContainers running
                        (set_StoppedContainers stopped e))) d) ;;;
    Println [PString "Stopped Containers:"; PInt stopped;
             PString "Running Containers:"; PInt running] ;;;
    ret None
  end.

Definition CheckLocalImages_execute (dockerMonitor : loc) (env : string)
  : M (option error) :=
  r <- CombinedOutput host ["docker"; "images"; "--format"; jsonFormat] ;;
  match r.2 with
  | Some err => ret (Some err)
  | None =>
    let '(totalImages, imageOutput) := splitImages r.1 in
    d <- load dockerMonitor ;;
    store dockerMonitor
      (updateMatching env
         (fun e => set_ImagesInfo imageOutput
                     (set_TotalLocalDockerImages totalImages e)) d) ;;;
    Println [PString "Total local images:"; PInt totalImages] ;;;
    ret None
  end.

(** [a.execute(env)] through the interface. *)
Definition execute (a : Action) (env : string) : M (option error) :=
  match a with
  | CheckDockerVersion d => CheckDockerVersion_execute d env
  | CheckContainersStatus d => CheckContainersStatus_execute d env
  | CheckLocalImages d => CheckLocalImages_execute d env
  end.

End Probes.

Definition CallDockerVersion (d : loc) : Action := CheckDockerVersion d.
Definition CallContainersStatus (d : loc) : Action := CheckContainersStatus d.
Definition CallLocalImages (d : loc) : Action := CheckLocalImages d.

(** ** The program: workflows and main *)

Record Workflow := Build_Workflow {
  Name : string;
  Actions : list Action
}.

Section Workflows.

Variable host : Host.

(** The loop of [executeActions]. *)
Fixpoint executeEach (name : string) (actions : list Action) : M (option error) :=
  match actions with
  | [] => ret None
  | a :: rest =>
    err <- execute host a name ;;
    match err with
    | Some e => ret (Some e)
    | None => executeEach name rest
    end
  end.

Definition executeActions (w : Workflow) : M (option error) :=
  Println [PString "Executing workflow - "; PString (Name w)] ;;;
  executeEach (Name w) (Actions w).

(** The loop of [main] over the workflows. *)
Fixpoint runWorkflows (index : nat) (workflows : list Workflow) : M unit :=
  match workflows with
  | [] => ret tt
  | w :: rest =>
    Println [PString "#"; PInt (Z.of_nat index); PString " Worklow - ";
             PString (Name w); PString ":"] ;;;
    err <- executeActions w ;;
    match err with
    | Some e => Println [PString "Error occurred:"; PError e]
    | None => ret tt
    end ;;;
    runWorkflows (S index) rest
  end.

Definition main : M unit :=
  let envs := ["Dev Environment"; "UAT Environment"] in
  d <- NewDockerMonitor envs ;;
  let devActions :=
    [CallDockerVersion d; CallContainersStatus d; CallLocalImages d] in
  let uatActions :=
    [CallDockerVersion d; CallContainersStatus d; CallLocalImages d] in
  let workflows :=
    [ {| Name := "Dev Environment"; Actions := devActions |};
      {| Name := "UAT Environment"; Actions := uatActions |} ] in
  runWorkflows 0 workflows ;;;
  m <- load d ;;
  e0 <- index (DockerEnvironments m) 0 ;;
  c0 <- index (ContainersInfo e0) 0 ;;
  Println [PString (cImage c0)].

End Workflows.

(** The world before [main]. *)
Definition emptyWorld : World := {| heap := ∅; commands := []; console := [] |}.

(** ** Reading the program

    What one loop over the registry does to one entry: [assign] on the
    entries named [env], nothing on the others. *)
Definition onMatching (env : string)
    (assign : DockerEnvironment -> DockerEnvironment)
    (e : DockerEnvironment) : DockerEnvironment :=
  if String.eqb (Environment e) env then assign e else e.

(** What the loop body hands to [json.Unmarshal] for a piece of the split
    output, and the record that it then appends. *)
Definition trimmed (cont : string) : string :=
  TrimSuffix (strings.TrimSpace cont) (String dquote "").

Definition parseContainer (cont : string) : ContainerInfo :=
  (json.Unmarshal (trimmed cont) zero_ContainerInfo).1.

Definition parseImage (img : string) : ImageInfo :=
  (json.Unmarshal (trimmed img) zero_ImageInfo).1.

(** The pieces that the loop works on: all but the first. *)
Definition fragments (marker out : string) : list string :=
  tail (strings.Split
          (strings.ReplaceAll out marker (sentinel +:+ marker)) separator).

(** The records that the splitter of the container probe returns. *)
Definition containerRecords (out : string) : list ContainerInfo :=
  (splitContainers out).2.

Definition exited (c : ContainerInfo) : bool := String.eqb (cState c) "exited".

Definition countIf {A} (p : A -> bool) (l : list A) : nat :=
  length (List.filter p l).

(** What each probe runs, which monitor it points to, what it assigns to
    an entry of the registry given the output of its command, and what it
    prints. *)
Definition probeCmd (a : Action) : Cmd :=
  match a with
  | CheckDockerVersion _ =>
    {| argv := ["docker"; "--version"]; combined := false |}
  | CheckContainersStatus _ =>
    {| argv := ["docker"; "container"; "ls"; "-a"; "--format"; jsonFormat];
       combined := true |}
  | CheckLocalImages _ =>
    {| argv := ["docker"; "images"; "--format"; jsonFormat]; combined := true |}
  end.

Definition probeMonitor (a : Action) : loc :=
  match a with
  | CheckDockerVersion d | CheckContainersStatus d | CheckLocalImages d => d
  end.

Definition probeAssign (a : Action) (out : string)
  : DockerEnvironment -> DockerEnvironment :=
  match a with
  | CheckDockerVersion _ => set_DockerVersion out
  | CheckContainersStatus _ =>
    fun e =>
      set_ContainersInfo (splitContainers out).2
        (set_RunningContainers (splitContainers out).1.2
           (set_StoppedContainers (splitContainers out).1.1 e))
  | CheckLocalImages _ =>
    fun e =>
      set_ImagesInfo (splitImages out).2
        (set_TotalLocalDockerImages (splitImages out).1 e)
  end.

Definition probeReport (a : Action) (out : string) : list PrintArg :=
  match a with
  | CheckDockerVersion _ => [PString "Output:"; PString out]
  | CheckContainersStatus _ =>
    [PString "Stopped Containers:"; PInt (splitContainers out).1.1;
     PString "Running Containers:"; PInt (splitContainers out).1.2]
  | CheckLocalImages _ =>
    [PString "Total local images:"; PInt (splitImages out).1]
  end.

(** The world after the command [c] has been run and nothing else done. *)
Definition ran (c : Cmd) (w : World) : World :=
  {| heap := heap w; commands := commands w ++ [c]; console := console w |}.

(** The names of a registry, in order. *)
Definition names (d : DockerMonitor) : list string :=
  map Environment (DockerEnvironments d).

(** The names and the workflows that [main] builds around the monitor at
    [d]. *)
Definition mainEnvs : list string := ["Dev Environment"; "UAT Environment"].

Definition threeProbes (d : loc) : list Action :=
  [CallDockerVersion d; CallContainersStatus d; CallLocalImages d].

Definition mainWorkflows (d : loc) : list Workflow :=
  [ {| Name := "Dev Environment"; Actions := threeProbes d |};
    {| Name := "UAT Environment"; Actions := threeProbes d |} ].

(** The worlds the program can be in: the empty one, and those that the
    construction of a registry or the execution of a probe leads to. *)
Inductive reachable (host : Host) : World -> Prop :=
| reachable_empty : reachable host emptyWorld
| reachable_new envs w :
    reachable host w -> reachable host (NewDockerMonitor envs w).2
| reachable_execute a env w :
    reachable host w -> reachable host (execute host a env w).2.

(** The two sums that the probes keep. *)
Definition consistent (e : DockerEnvironment) : Prop :=
  (StoppedContainers e + RunningContainers e)%Z
    = Z.of_nat (length (ContainersInfo e))
  /\ TotalLocalDockerImages e = Z.of_nat (length (ImagesInfo e)).

(** The outputs of the host are Go strings: their length is an [int]. *)
Definition boundedHost (host : Host) : Prop :=
  forall history c, (Z.of_nat (String.length (host history c).1) <= MaxInt)%Z.

(** ** Well-formed records

    The text of a JSON string between its quotes, and the string it
    denotes (RFC 8259, section 7): a character of ASCII other than the
    quote, the backslash and the control characters stands for itself, a
    well-formed multi-byte encoding stands for itself, and the escapes
    stand for what they name; an escaped surrogate has to come with its
    other half. *)

Definition plainChar (c : ascii) : bool :=
  between 32 127 c && negb (Ascii.eqb c dquote) && negb (Ascii.eqb c backslash).

Definition simpleEscape (e : ascii) : option ascii :=
  match e with
  | "034"%char => Some "034"%char
  | "\"%char => Some "\"%char
  | "/"%char => Some "/"%char
  | "b"%char => Some "008"%char
  | "f"%char => Some "012"%char
  | "n"%char => Some "010"%char
  | "r"%char => Some "013"%char
  | "t"%char => Some "009"%char
  | _ => None
  end.

Definition escapeU (h1 h2 h3 h4 : ascii) (s : string) : string :=
  String "\" (String "u" (String h1 (String h2 (String h3 (String h4 s))))).

Inductive Denotes : string -> string -> Prop :=
| Denotes_nil : Denotes "" ""
| Denotes_plain c body v :
    plainChar c = true -> Denotes body v ->
    Denotes (String c body) (String c v)
| Denotes_escape e x body v :
    simpleEscape e = Some x -> Denotes body v ->
    Denotes (String "\" (String e body)) (String x v)
| Denotes_unicode h1 h2 h3 h4 r body v :
    json.getu4 h1 h2 h3 h4 = Some r -> json.IsSurrogate r = false ->
    Denotes body v ->
    Denotes (escapeU h1 h2 h3 h4 body) (utf8.EncodeRune r +:+ v)
| Denotes_pair h1 h2 h3 h4 g1 g2 g3 g4 r1 r2 r body v :
    json.getu4 h1 h2 h3 h4 = Some r1 -> json.getu4 g1 g2 g3 g4 = Some r2 ->
    json.DecodeRune16 r1 r2 = Some r ->
    Denotes body v ->
    Denotes (escapeU h1 h2 h3 h4 (escapeU g1 g2 g3 g4 body))
            (utf8.EncodeRune r +:+ v)
| Denotes_utf8 w body v :
    2 <= utf8.width w -> utf8.width w = String.length w ->
    Denotes body v ->
    Denotes (w +:+ body) (w +:+ v).

(** The text of an object whose members are strings: after the opening
    brace, the members with commas between them, and the closing brace. *)
Definition member (key body : string) : string :=
  quoted key +:+ ":" +:+ quoted body.

Fixpoint closeObject (kvs : list (string * string)) : string :=
  match kvs with
  | [] => "}"
  | (key, body) :: rest => "," +:+ member key body +:+ closeObject rest
  end.

Definition objectText (kvs : list (string * string)) : string :=
  match kvs with
  | [] => "{}"
  | (key, body) :: rest => "{" +:+ member key body +:+ closeObject rest
  end.

(** The names under which the listing of the containers gives the fields
    of [ContainerInfo], in its order, and the fields in that order. *)
Definition containerKeys : list string :=
  ["Command"; "CreatedAt"; "ID"; "Image"; "Labels"; "LocalVolumes"; "Mounts";
   "Names"; "Networks"; "Ports"; "RunningFor"; "Size"; "State"; "Status"].

Definition containerFields (r : ContainerInfo) : list string :=
  [cCommand r; cCreatedAt r; cID r; cImage r; cLabels r; cLocalVolumes r;
   cMounts r; cNames r; cNetworks r; cPorts r; cRunningFor r; cSize r;
   cState r; cStatus r].

(** [js] is the text of the record [r]: the object of the fourteen
    members, each a string that denotes the field. *)
Definition encodesContainer (js : string) (r : ContainerInfo) : Prop :=
  exists bodies,
    Forall2 Denotes bodies (containerFields r)
    /\ js = objectText (zip containerKeys bodies).

Fixpoint allSpace (ws : string) : bool :=
  match ws with
  | EmptyString => true
  | String c ws' => strings.asciiSpace c && allSpace ws'
  end.

(** One line of the listing: the text of a record, what follows its
    closing quote (the end of the line, or nothing), and the record that
    the text is the text of. *)
Record Line := Build_Line {
  text : string;
  trailing : string;
  source : ContainerInfo
}.

Definition wellFormed (l : Line) : Prop :=
  encodesContainer (text l) (source l) /\ allSpace (trailing l) = true.

(** The text of the line has the separator nowhere in it. *)
Definition noSeparator (l : Line) : Prop :=
  strings.Contains (text l) separator = false.

(** The output: the lines one after the other, each text in quotes. *)
Fixpoint blob (ls : list Line) : string :=
  match ls with
  | [] => ""
  | l :: ls' => quoted (text l) +:+ trailing l +:+ blob ls'
  end.

(** The output after the sentinel has been put in front of every record,
    and the piece that a line leaves between two separators. *)
Fixpoint adjusted (ls : list Line) : string :=
  match ls with
  | [] => ""
  | l :: ls' => sentinel +:+ quoted (text l) +:+ trailing l +:+ adjusted ls'
  end.

Definition piece (l : Line) : string := text l +:+ String dquote (trailing l).

(** ** Notions for the proofs *)

(** [p] occurs in [x +:+ rest] at no position inside [x]. *)
Definition clearOf (p x rest : string) : Prop :=
  forall a b, x = a +:+ b -> b <> "" -> strings.HasPrefix (b +:+ rest) p = false.

(** [x] put in front of the first of the pieces. *)
Definition prepend (x : string) (pieces : list string) : list string :=
  match pieces with
  | piece :: rest => (x +:+ piece) :: rest
  | [] => [x]
  end.

Fixpoint occurs (c : ascii) (s : string) : bool :=
  match s with
  | EmptyString => false
  | String d s' => Ascii.eqb d c || occurs c s'
  end.

Definition isAlnum (c : ascii) : bool :=
  between 48 57 c || between 65 90 c || between 97 122 c.

Fixpoint identifier (s : string) : bool :=
  match s with
  | EmptyString => true
  | String c s' => isAlnum c && identifier s'
  end.

Fixpoint allHigh (s : string) : bool :=
  match s with
  | EmptyString => true
  | String c s' => (128 <=? code c)%N && allHigh s'
  end.

(** A byte that stands for itself between the quotes. *)
Definition ordinary (c : ascii) : bool := plainChar c || (128 <=? code c)%N.

(** The tokens of the members of an object, and what decoding them
    stores. *)
Definition memberTokens (key body : string) : list json.token :=
  [json.TString key; json.TColon; json.TString body].

Fixpoint closeTokens (kvs : list (string * string)) : list json.token :=
  match kvs with
  | [] => [json.TEndObject]
  | (key, body) :: rest => json.TComma :: memberTokens key body ++ closeTokens rest
  end.

Definition storeField {T} `{json.Struct T} (key val : string) (v : T) : T :=
  match json.findField key with
  | Some set => set val v
  | None => v
  end.

Fixpoint storeFields {T} `{json.Struct T} (keys vals : list string) (v : T) : T :=
  match keys, vals with
  | key :: keys', val :: vals' => storeFields keys' vals' (storeField key val v)
  | _, _ => v
  end.

(** The members of a well-formed object: the keys are identifiers and
    the bodies denote the values. *)
Definition wellFormedMember (kb : string * string) (val : string) : Prop :=
  identifier kb.1 = true /\ Denotes kb.2 val.

(** ** Examples *)

(** [sq s] is [s] with every apostrophe turned into a double quote, to
    write the examples legibly. *)
Definition sq (s : string) : string :=
  strings.ReplaceAll s "'" (String dquote "").

Definition newline : string := String "010" "".

(** Hosts: one that answers every command with the same output, one on
    which every command fails, and one on which the listing of the
    containers fails and every other command answers [out]. *)
Definition constHost (out : string) : Host := fun _ _ => (out, None).

Definition failingHost : Host :=
  fun _ _ => ("", Some (ExecError "exec: docker: executable file not found")).

Definition noListingHost (out : string) : Host :=
  fun _ c =>
    match argv c with
    | [_; "container"; _; _; _; _] => ("", Some (ExecError "exit status 1"))
    | _ => (out, None)
    end.

(** Worlds: a registry for Dev and UAT, and one in which the name Dev was
    given twice. *)
Definition devUat : World := (NewDockerMonitor ["Dev"; "UAT"] emptyWorld).2.
Definition devTwice : World :=
  (NewDockerMonitor ["Dev"; "UAT"; "Dev"] emptyWorld).2.

(** A record with the given command, image, labels and state and the
    other fields empty; its text, in which the command is written as
    [commandBody]; and its line. *)
Definition exampleRecord (command image labels state : string) : ContainerInfo :=
  {| cCommand := command; cCreatedAt := ""; cID := ""; cImage := image;
     cLabels := labels; cLocalVolumes := ""; cMounts := ""; cNames := "";
     cNetworks := ""; cPorts := ""; cRunningFor := ""; cSize := "";
     cState := state; cStatus := "" |}.

Definition exampleText (commandBody image labels state : string) : string :=
  objectText
    (zip containerKeys
       [commandBody; ""; ""; image; labels; ""; ""; ""; ""; ""; ""; ""; state; ""]).

Definition exampleLine (commandBody command image labels state : string) : Line :=
  {| text := exampleText commandBody image labels state;
     trailing := newline;
     source := exampleRecord command image labels state |}.

(** Two lines as the listing prints them: the runtime gives the command
    in quotes of its own, which the text escapes. *)
Definition twoLines : list Line :=
  [exampleLine (sq "\'nginx -g\'") (sq "'nginx -g'") "nginx" "" "exited";
   exampleLine (sq "\'postgres\'") (sq "'postgres'") "postgres"
     "maintainer=db" "running"].

Definition twoContainers : string := blob twoLines.

(** A line whose label ends with the sentinel. *)
Definition sentinelLines : list Line :=
  [exampleLine (sq "\'nginx -g\'") (sq "'nginx -g'") "nginx" "note=<===>"
     "running"].

(** Three records of which the second was cut short. *)
Definition truncatedOutput : string :=
  sq "'{'Command':'nginx -g','Image':'nginx','State':'exited'}'
'{'Command':'redis-server','Ima
'{'Command':'postgres','Image':'postgres','State':'running'}'
".

(** A record in which the state is a number. *)
Definition numberOutput : string :=
  sq "'{'Command':'nginx -g','Image':'nginx','State':5}'
".

(** ** Hosts and runs

    A host whose answer to a command does not depend on what was run
    before, and the workflows all of whose commands succeed: the command
    of each probe is asked after those of the probes before it. *)
Definition stateless (host : Host) : Prop :=
  forall history history' c, host history c = host history' c.

Fixpoint allSucceed (host : Host) (history : list Cmd) (actions : list Action)
  : Prop :=
  match actions with
  | [] => True
  | a :: rest =>
    (host history (probeCmd a)).2 = None
    /\ allSucceed host (history ++ [probeCmd a]) rest
  end.

(** ** Well-formed listings of images

    The names under which the listing of the images gives the fields of
    [ImageInfo], which are the names of the fields, in their order; the
    text of a record; a line of the listing and the output, as for the
    containers. *)
Definition imageKeys : list string :=
  ["Containers"; "CreatedAt"; "CreatedSince"; "Digest"; "ID"; "Repository";
   "SharedSize"; "Size"; "Tag"; "UniqueSize"; "VirtualSize"].

Definition imageFields (r : ImageInfo) : list string :=
  [iContainers r; iCreatedAt r; iCreatedSince r; iDigest r; iID r;
   iRepository r; iSharedSize r; iSize r; iTag r; iUniqueSize r;
   iVirtualSize r].

Definition encodesImage (js : string) (r : ImageInfo) : Prop :=
  exists bodies,
    Forall2 Denotes bodies (imageFields r)
    /\ js = objectText (zip imageKeys bodies).

Record ImageLine := Build_ImageLine {
  imageText : string;
  imageTrailing : string;
  imageSource : ImageInfo
}.

Definition wellFormedImage (l : ImageLine) : Prop :=
  encodesImage (imageText l) (imageSource l)
  /\ allSpace (imageTrailing l) = true.

Definition noSeparatorImage (l : ImageLine) : Prop :=
  strings.Contains (imageText l) separator = false.

Fixpoint imageBlob (ls : list ImageLine) : string :=
  match ls with
  | [] => ""
  | l :: ls' => quoted (imageText l) +:+ imageTrailing l +:+ imageBlob ls'
  end.

Fixpoint imageAdjusted (ls : list ImageLine) : string :=
  match ls with
  | [] => ""
  | l :: ls' =>
    sentinel +:+ quoted (imageText l) +:+ imageTrailing l +:+ imageAdjusted ls'
  end.

Definition imagePiece (l : ImageLine) : string :=
  imageText l +:+ String dquote (imageTrailing l).

(** The records that the splitter of the image probe returns. *)
Definition imageRecords (out : string) : list ImageInfo := (splitImages out).2.

(** ** More examples *)

(** An image with the given repository, tag and age and the other fields
    empty; its text and its line. *)
Definition exampleImage (repository tag createdSince : string) : ImageInfo :=
  {| iContainers := ""; iCreatedAt := ""; iCreatedSince := createdSince;
     iDigest := ""; iID := ""; iRepository := repository; iSharedSize := "";
     iSize := ""; iTag := tag; iUniqueSize := ""; iVirtualSize := "" |}.

Definition exampleImageLine (repository tag createdSince : string) : ImageLine :=
  {| imageText :=
       objectText
         (zip imageKeys
            [""; ""; createdSince; ""; ""; repository; ""; ""; tag; ""; ""]);
     imageTrailing := newline;
     imageSource := exampleImage repository tag createdSince |}.

Definition twoImageLines : list ImageLine :=
  [exampleImageLine "nginx" "latest" "2 weeks ago";
   exampleImageLine "postgres" "13" "3 months ago"].

(** A host that answers by the kind of the command alone. *)
Definition listingHost (version containers images : string) : Host :=
  fun _ c =>
    match argv c with
    | [_; "--version"] => (version, None)
    | [_; "container"; _; _; _; _] => (containers, None)
    | _ => (images, None)
    end.

(** ** More notions for the proofs *)

(** The entry at [i] of the registry at [l]. *)
Definition entryAt (w : World) (l : loc) (i : nat) : option DockerEnvironment :=
  heap w !! l ≫= fun d => DockerEnvironments d !! i.

(** * Proofs *)

(** ** The registry *)

Lemma newDockerEnvironments_map envs :
  newDockerEnvironments envs = map newDockerEnvironment envs.
Proof.
  unfold newDockerEnvironments.
  assert (G : forall acc,
    fold_left (fun dockerEnvironments env =>
                 dockerEnvironments ++ [newDockerEnvironment env]) envs acc
    = acc ++ map newDockerEnvironment envs).
  { induction envs as [|env envs IH]; intros acc; simpl.
    - by rewrite app_nil_r.
    - rewrite IH, <- app_assoc. reflexivity. }
  apply (G []).
Qed.

Lemma alter_take_drop {A} (f : A -> A) (l : list A) i x :
  l !! i = Some x -> alter f i l = take i l ++ f x :: drop (S i) l.
Proof.
  revert i. induction l as [|y l IH]; intros [|i] H; simplify_eq/=; [done|].
  f_equal. by apply IH.
Qed.

Lemma rangeEnvironments_spec env assign n :
  forall index envs,
    index + n = length envs ->
    rangeEnvironments
      (fun index dockerEnv envs =>
         if String.eqb (Environment dockerEnv) env
         then alter assign index envs else envs) n index envs
    = take index envs ++ map (onMatching env assign) (drop index envs).
Proof.
  induction n as [|n IH]; intros index envs Hlen; simpl.
  - rewrite drop_ge, take_ge by lia. by rewrite app_nil_r.
  - destruct (lookup_lt_is_Some_2 envs index) as [e He]; [lia|].
    rewrite He.
    set (envs' := if String.eqb (Environment e) env
                  then alter assign index envs else envs).
    assert (L : length (take index envs) = index) by (rewrite length_take; lia).
    assert (E : envs' = take index envs ++ onMatching env assign e :: drop (S index) envs).
    { subst envs'. unfold onMatching.
      destruct (String.eqb (Environment e) env).
      - by apply alter_take_drop.
      - by rewrite take_drop_middle. }
    rewrite IH by (rewrite E, length_app, L; simpl; rewrite length_drop; lia).
    rewrite (drop_S envs e index He). simpl.
    rewrite E, cons_middle, app_assoc.
    rewrite take_app_length', drop_app_length'.
    + by rewrite <- app_assoc.
    + rewrite length_app, L. simpl. lia.
    + rewrite length_app, L. simpl. lia.
Qed.

Lemma updateMatching_spec env assign d :
  updateMatching env assign d
  = {| DockerEnvironments := map (onMatching env assign) (DockerEnvironments d) |}.
Proof.
  unfold updateMatching. f_equal.
  rewrite rangeEnvironments_spec by lia. reflexivity.
Qed.

(** ** One probe, read off its code *)

Lemma execute_spec host a env w :
  execute host a env w =
  let r := host (commands w) (probeCmd a) in
  match r.2 with
  | Some err => (Returned (Some err), ran (probeCmd a) w)
  | None =>
    match heap w !! probeMonitor a with
    | None => (Panicked nilDereference, ran (probeCmd a) w)
    | Some d =>
      (Returned None,
       {| heap := <[probeMonitor a :=
                     {| DockerEnvironments :=
                          map (onMatching env (probeAssign a r.1))
                              (DockerEnvironments d) |}]> (heap w);
          commands := commands w ++ [probeCmd a];
          console := console w ++ [probeReport a r.1] |})
    end
  end.
Proof.
  destruct a as [l|l|l]; simpl;
    unfold CheckDockerVersion_execute, CheckContainersStatus_execute,
      CheckLocalImages_execute, Output, CombinedOutput, run, bind; simpl;
    match goal with |- context [host ?h ?c] => destruct (host h c) as [out [err|]] end;
    simpl; try reflexivity.
  - unfold load, store, Println, ret, ran; simpl.
    destruct (heap w !! l) as [d|]; simpl; [|reflexivity].
    by rewrite updateMatching_spec.
  - destruct (splitContainers out) as [[stopped running] containerOutput] eqn:E.
    unfold bind, load, store, Println, ret, ran; simpl.
    destruct (heap w !! l) as [d|]; simpl; [|reflexivity].
    by rewrite updateMatching_spec.
  - destruct (splitImages out) as [totalImages imageOutput] eqn:E.
    unfold bind, load, store, Println, ret, ran; simpl.
    destruct (heap w !! l) as [d|]; simpl; [|reflexivity].
    by rewrite updateMatching_spec.
Qed.

Lemma probeAssign_Environment a out e :
  Environment (probeAssign a out e) = Environment e.
Proof. by destruct a. Qed.

Lemma onMatching_Environment env a out e :
  Environment (onMatching env (probeAssign a out) e) = Environment e.
Proof.
  unfold onMatching. destruct (String.eqb (Environment e) env); [|done].
  apply probeAssign_Environment.
Qed.

Lemma names_onMatching env a out envs :
  map Environment (map (onMatching env (probeAssign a out)) envs)
  = map Environment envs.
Proof.
  induction envs as [|e envs IH]; simpl; [done|].
  by rewrite onMatching_Environment, IH.
Qed.

Lemma execute_names host a env w l :
  names <$> heap (execute host a env w).2 !! l = names <$> heap w !! l.
Proof.
  rewrite execute_spec. simpl.
  destruct (host (commands w) (probeCmd a)) as [out [err|]]; simpl; [done|].
  destruct (heap w !! probeMonitor a) as [d|] eqn:Hd; simpl; [|done].
  destruct (decide (l = probeMonitor a)) as [->|Hne].
  - rewrite lookup_insert_eq, Hd. simpl. unfold names. simpl.
    by rewrite names_onMatching.
  - by rewrite lookup_insert_ne.
Qed.

(** ** Workflows *)

Lemma executeEach_app host name pre post w :
  executeEach host name (pre ++ post) w =
  match executeEach host name pre w with
  | (Returned None, w1) => executeEach host name post w1
  | other => other
  end.
Proof.
  revert w. induction pre as [|a pre IH]; intros w; simpl; [done|].
  unfold bind. destruct (execute host a name w) as [[[e|]|msg] w1]; simpl; [done| |done].
  apply IH.
Qed.

(** What every probe preserves, every run preserves. *)
Lemma executeEach_preserves host (P : World -> Prop) :
  (forall a env w, P w -> P (execute host a env w).2) ->
  forall name actions w, P w -> P (executeEach host name actions w).2.
Proof.
  intros Hstep name actions. induction actions as [|a actions IH]; intros w Hw; simpl.
  - exact Hw.
  - unfold bind. specialize (Hstep a name w Hw).
    destruct (execute host a name w) as [[[e|]|msg] w1]; simpl in *; auto.
Qed.

Lemma runWorkflows_preserves host (P : World -> Prop) :
  (forall args w, P w -> P (Println args w).2) ->
  (forall a env w, P w -> P (execute host a env w).2) ->
  forall workflows index w, P w -> P (runWorkflows host index workflows w).2.
Proof.
  intros Hprint Hstep workflows.
  induction workflows as [|wf workflows IH]; intros index w Hw; simpl.
  - exact Hw.
  - unfold bind, executeActions, bind. simpl.
    pose proof (executeEach_preserves host P Hstep (Name wf) (Actions wf) _
                  (Hprint [PString "Executing workflow - "; PString (Name wf)] _
                     (Hprint [PString "#"; PInt (Z.of_nat index);
                              PString " Worklow - "; PString (Name wf);
                              PString ":"] w Hw))) as H1.
    simpl in H1.
    destruct (executeEach host (Name wf) (Actions wf) _) as [[[e|]|msg] w1];
      simpl in *; auto.
Qed.

Lemma runWorkflows_names host workflows index w l :
  names <$> heap (runWorkflows host index workflows w).2 !! l
  = names <$> heap w !! l.
Proof.
  apply (runWorkflows_preserves host
           (fun w' => names <$> heap w' !! l = names <$> heap w !! l)).
  - intros args w' H. exact H.
  - intros a env w' H. by rewrite execute_names.
  - reflexivity.
Qed.

(** ** Strings *)

Lemma append_nil_r (s : string) : s +:+ "" = s.
Proof. induction s; simpl; congruence. Qed.

Lemma append_assoc (s t u : string) : (s +:+ t) +:+ u = s +:+ t +:+ u.
Proof. induction s; simpl; congruence. Qed.

Lemma length_append (s t : string) :
  String.length (s +:+ t) = String.length s + String.length t.
Proof. induction s; simpl; congruence. Qed.

Lemma HasPrefix_length s p :
  strings.HasPrefix s p = true -> String.length p <= String.length s.
Proof.
  revert s. induction p as [|c p IH]; intros [|d s] H; simpl in *;
    try lia; try discriminate.
  apply andb_true_iff in H as [_ H]. apply IH in H. lia.
Qed.

Lemma HasPrefix_app p s : strings.HasPrefix (p +:+ s) p = true.
Proof. induction p as [|c p IH]; simpl; [reflexivity|]. by rewrite Ascii.eqb_refl. Qed.

(** ** How many pieces a split can have *)

Lemma replace_go_length old new s :
  String.length old <= String.length new ->
  forall inside,
    String.length old * String.length (strings.replace_go inside s old new)
    <= String.length new * (String.length s - inside).
Proof.
  intros Hlen. induction s as [|c s IH]; intros inside; simpl; [lia|].
  destruct inside as [|k].
  - destruct (strings.HasPrefix (String c s) old) eqn:Hp.
    + apply HasPrefix_length in Hp. simpl in Hp.
      rewrite length_append. specialize (IH (String.length old - 1)). nia.
    + simpl. specialize (IH 0). nia.
  - specialize (IH k). lia.
Qed.

Lemma split_go_length sep s :
  forall inside,
    1 <= length (strings.split_go inside s sep)
    /\ String.length sep * (length (strings.split_go inside s sep) - 1)
       <= String.length s - inside.
Proof.
  induction s as [|c s IH]; intros inside; simpl; [lia|].
  destruct inside as [|k].
  - destruct (strings.HasPrefix (String c s) sep) eqn:Hp.
    + apply HasPrefix_length in Hp. simpl in Hp. simpl.
      specialize (IH (String.length sep - 1)). nia.
    + specialize (IH 0). unfold strings.push_front.
      destruct (strings.split_go 0 s sep); simpl in *; lia.
  - specialize (IH k). lia.
Qed.

Lemma fragments_length marker out :
  String.length marker >= 6 ->
  length (fragments marker out) <= String.length out.
Proof.
  intros Hm. unfold fragments, strings.Split, strings.ReplaceAll.
  assert (Hsep : String.length separator = 6) by reflexivity.
  assert (Hneq : String.eqb marker (sentinel +:+ marker) = false).
  { apply String.eqb_neq. intros E. apply (f_equal String.length) in E.
    rewrite length_append in E. simpl in E. lia. }
  rewrite Hneq.
  pose proof (replace_go_length marker (sentinel +:+ marker) out) as H1.
  rewrite length_append in H1. simpl in H1. specialize (H1 ltac:(lia) 0).
  match goal with |- context [strings.split_go 0 ?s ?sep] =>
    pose proof (split_go_length sep s 0) as [H2 H3] end.
  rewrite Hsep in H3.
  match goal with |- context [strings.split_go 0 ?s ?sep] =>
    destruct (strings.split_go 0 s sep) as [|piece pieces] end;
    simpl in *; nia.
Qed.

(** ** The counting loops *)

Lemma int_add_small a b :
  (- 2 ^ 63 <= a + b <= MaxInt)%Z -> int_add a b = (a + b)%Z.
Proof.
  unfold int_add, int_wrap, MaxInt. intros H.
  rewrite Z.mod_small by lia. lia.
Qed.

Lemma countContainer_step index cont stopped running containerOutput :
  index <> 0 ->
  countContainer index cont (stopped, running, containerOutput) =
  if exited (parseContainer cont)
  then (int_add stopped 1, running, containerOutput ++ [parseContainer cont])
  else (stopped, int_add running 1, containerOutput ++ [parseContainer cont]).
Proof.
  intros Hi. unfold countContainer.
  destruct (Nat.eqb_spec index 0) as [|_]; [contradiction|]. reflexivity.
Qed.

Lemma countImage_step index img totalImages imageOutput :
  index <> 0 ->
  countImage index img (totalImages, imageOutput) =
  (int_add totalImages 1, imageOutput ++ [parseImage img]).
Proof.
  intros Hi. unfold countImage.
  destruct (Nat.eqb_spec index 0) as [|_]; [contradiction|]. reflexivity.
Qed.

Lemma countIf_cons {A} (p : A -> bool) x l :
  countIf p (x :: l) = (if p x then 1 else 0) + countIf p l.
Proof. unfold countIf. simpl. by destruct (p x). Qed.

Lemma range_countContainer_records pieces :
  forall index acc,
    index <> 0 ->
    (range countContainer index pieces acc).2
    = acc.2 ++ map parseContainer pieces.
Proof.
  induction pieces as [|cont pieces IH]; intros index [[s r] o] Hi;
    cbn [range map].
  - simpl. by rewrite app_nil_r.
  - rewrite countContainer_step by done.
    destruct (exited (parseContainer cont));
      rewrite IH by lia; simpl; by rewrite <- app_assoc.
Qed.

Lemma range_countContainer pieces :
  forall index stopped running containerOutput,
    index <> 0 ->
    (0 <= stopped)%Z -> (0 <= running)%Z ->
    (stopped + running + Z.of_nat (length pieces) <= MaxInt)%Z ->
    range countContainer index pieces (stopped, running, containerOutput)
    = ((stopped + Z.of_nat (countIf exited (map parseContainer pieces)))%Z,
       (running
        + Z.of_nat (countIf (fun c => negb (exited c))
                      (map parseContainer pieces)))%Z,
       containerOutput ++ map parseContainer pieces).
Proof.
  induction pieces as [|cont pieces IH]; intros index s r o Hi Hs Hr Hb.
  - simpl. unfold countIf. simpl. by rewrite !Z.add_0_r, app_nil_r.
  - cbn [range length map] in *. rewrite countContainer_step by done.
    rewrite !countIf_cons.
    assert (M : (MaxInt = 2 ^ 63 - 1)%Z) by reflexivity.
    destruct (exited (parseContainer cont)); simpl negb; cbv iota.
    + rewrite int_add_small by lia.
      rewrite IH by lia. rewrite <- app_assoc. simpl. f_equal. f_equal; lia.
    + rewrite int_add_small by lia.
      rewrite IH by lia. rewrite <- app_assoc. simpl. f_equal. f_equal; lia.
Qed.

Lemma range_countImage pieces :
  forall index totalImages imageOutput,
    index <> 0 ->
    (0 <= totalImages)%Z ->
    (totalImages + Z.of_nat (length pieces) <= MaxInt)%Z ->
    range countImage index pieces (totalImages, imageOutput)
    = ((totalImages + Z.of_nat (length pieces))%Z,
       imageOutput ++ map parseImage pieces).
Proof.
  induction pieces as [|img pieces IH]; intros index t o Hi Ht Hb.
  - simpl. by rewrite Z.add_0_r, app_nil_r.
  - cbn [range length map] in *. rewrite countImage_step by done.
    assert (M : (MaxInt = 2 ^ 63 - 1)%Z) by reflexivity.
    rewrite int_add_small by lia.
    rewrite IH by lia. rewrite <- app_assoc. simpl. f_equal. lia.
Qed.

Lemma Split_cons s sep :
  exists piece, strings.Split s sep = piece :: tail (strings.Split s sep).
Proof.
  pose proof (split_go_length sep s 0) as [H _]. unfold strings.Split.
  destruct (strings.split_go 0 s sep); simpl in *; [lia|eauto].
Qed.

(** The records are the pieces after the first, each parsed on its own. *)
Lemma containerRecords_spec out :
  containerRecords out = map parseContainer (fragments containerMarker out).
Proof.
  unfold containerRecords, splitContainers, fragments.
  destruct (Split_cons (strings.ReplaceAll out containerMarker
                          (sentinel +:+ containerMarker)) separator) as [p ->].
  simpl. rewrite range_countContainer_records by lia. reflexivity.
Qed.

Lemma splitContainers_spec out :
  (Z.of_nat (String.length out) <= MaxInt)%Z ->
  splitContainers out
  = (Z.of_nat (countIf exited (containerRecords out)),
     Z.of_nat (countIf (fun c => negb (exited c)) (containerRecords out)),
     containerRecords out).
Proof.
  intros Hb. rewrite containerRecords_spec.
  pose proof (fragments_length containerMarker out ltac:(simpl; lia)) as Hn.
  unfold splitContainers, fragments in *.
  destruct (Split_cons (strings.ReplaceAll out containerMarker
                          (sentinel +:+ containerMarker)) separator) as [p E].
  rewrite E. rewrite E in Hn. simpl in *.
  rewrite range_countContainer by lia. reflexivity.
Qed.

Lemma splitImages_spec out :
  (Z.of_nat (String.length out) <= MaxInt)%Z ->
  splitImages out
  = (Z.of_nat (length (fragments imageMarker out)),
     map parseImage (fragments imageMarker out)).
Proof.
  intros Hb.
  pose proof (fragments_length imageMarker out ltac:(simpl; lia)) as Hn.
  unfold splitImages, fragments in *.
  destruct (Split_cons (strings.ReplaceAll out imageMarker
                          (sentinel +:+ imageMarker)) separator) as [p E].
  rewrite E. rewrite E in Hn. simpl in *.
  rewrite range_countImage by lia. reflexivity.
Qed.

Lemma countIf_split {A} (p : A -> bool) l :
  countIf p l + countIf (fun x => negb (p x)) l = length l.
Proof.
  induction l as [|x l IH]; [reflexivity|].
  rewrite !countIf_cons. simpl. destruct (p x); simpl; lia.
Qed.

(** ** Replacing and splitting where the pattern does not occur *)

Lemma HasPrefix_cons c s d p :
  strings.HasPrefix (String c s) (String d p)
  = Ascii.eqb c d && strings.HasPrefix s p.
Proof. reflexivity. Qed.

Lemma clearOf_nil p rest : clearOf p "" rest.
Proof.
  intros a b E Hb. destruct a; simpl in E; [congruence|discriminate].
Qed.

Lemma clearOf_cons p c x rest :
  strings.HasPrefix (String c (x +:+ rest)) p = false ->
  clearOf p x rest -> clearOf p (String c x) rest.
Proof.
  intros H1 H2 a b E Hb. destruct a as [|c' a]; simpl in E.
  - subst b. exact H1.
  - injection E as _ E. by apply (H2 a b).
Qed.

Lemma clearOf_head p c x rest :
  clearOf p (String c x) rest ->
  strings.HasPrefix (String c (x +:+ rest)) p = false.
Proof. intros H. by apply (H "" (String c x)). Qed.

Lemma clearOf_tail p c x rest :
  clearOf p (String c x) rest -> clearOf p x rest.
Proof. intros H a b E Hb. apply (H (String c a) b); [by rewrite E|done]. Qed.

Lemma clearOf_app p x y rest :
  clearOf p x (y +:+ rest) -> clearOf p y rest -> clearOf p (x +:+ y) rest.
Proof.
  intros Hx Hy. induction x as [|c x IH]; simpl; [exact Hy|].
  apply clearOf_cons.
  - rewrite append_assoc. by apply clearOf_head.
  - apply IH. by apply clearOf_tail in Hx.
Qed.

(** A string in which every byte differs from the first of the pattern. *)
Lemma clearOf_no_first c p x rest :
  occurs c x = false -> clearOf (String c p) x rest.
Proof.
  induction x as [|d x IH]; simpl; intros H; [apply clearOf_nil|].
  apply orb_false_iff in H as [Hd Hx].
  apply clearOf_cons; [|by apply IH].
  simpl. by rewrite Hd.
Qed.

Lemma replace_go_skip x rest old new :
  strings.replace_go (String.length x) (x +:+ rest) old new
  = strings.replace_go 0 rest old new.
Proof.
  induction x as [|c x IH]; simpl; [|exact IH].
  destruct rest; reflexivity.
Qed.

Lemma replace_go_match c old rest new :
  strings.replace_go 0 (String c old +:+ rest) (String c old) new
  = new +:+ strings.replace_go 0 rest (String c old) new.
Proof.
  change (String c old +:+ rest) with (String c (old +:+ rest)).
  cbn [strings.replace_go].
  pose proof (HasPrefix_app (String c old) rest) as H. simpl in H.
  change (strings.HasPrefix (String c (old +:+ rest)) (String c old))
    with (Ascii.eqb c c && strings.HasPrefix (old +:+ rest) old).
  rewrite H.
  replace (String.length (String c old) - 1) with (String.length old)
    by (simpl; lia).
  by rewrite replace_go_skip.
Qed.

Lemma replace_go_clear x rest old new :
  clearOf old x rest ->
  strings.replace_go 0 (x +:+ rest) old new
  = x +:+ strings.replace_go 0 rest old new.
Proof.
  induction x as [|c x IH]; intros H; simpl; [reflexivity|].
  rewrite (clearOf_head _ _ _ _ H). f_equal. apply IH.
  by apply clearOf_tail in H.
Qed.

Lemma split_go_skip x rest sep :
  strings.split_go (String.length x) (x +:+ rest) sep
  = strings.split_go 0 rest sep.
Proof.
  induction x as [|c x IH]; simpl; [|exact IH].
  destruct rest; reflexivity.
Qed.

Lemma split_go_match c sep rest :
  strings.split_go 0 (String c sep +:+ rest) (String c sep)
  = "" :: strings.split_go 0 rest (String c sep).
Proof.
  change (String c sep +:+ rest) with (String c (sep +:+ rest)).
  cbn [strings.split_go].
  pose proof (HasPrefix_app (String c sep) rest) as H. simpl in H.
  change (strings.HasPrefix (String c (sep +:+ rest)) (String c sep))
    with (Ascii.eqb c c && strings.HasPrefix (sep +:+ rest) sep).
  rewrite H.
  replace (String.length (String c sep) - 1) with (String.length sep)
    by (simpl; lia).
  by rewrite split_go_skip.
Qed.

Lemma split_go_clear x rest sep :
  clearOf sep x rest ->
  strings.split_go 0 (x +:+ rest) sep
  = prepend x (strings.split_go 0 rest sep).
Proof.
  induction x as [|c x IH]; intros H.
  - simpl. pose proof (split_go_length sep rest 0) as [Hn _].
    destruct (strings.split_go 0 rest sep); simpl in *; [lia|reflexivity].
  - change (String c x +:+ rest) with (String c (x +:+ rest)).
    cbn [strings.split_go].
    rewrite (clearOf_head _ _ _ _ H). rewrite IH by (by apply clearOf_tail in H).
    pose proof (split_go_length sep rest 0) as [Hn _].
    destruct (strings.split_go 0 rest sep); simpl in *; [lia|reflexivity].
Qed.

(** ** The body of a string literal *)

Ltac each_byte c := destruct c as [[] [] [] [] [] [] [] []].

Lemma ordinary_not_quote c : ordinary c = true -> Ascii.eqb c dquote = false.
Proof. each_byte c; intros H; try discriminate H; reflexivity. Qed.

Lemma doInString_ordinary s c : ordinary c = true -> json.doInString s c = s.
Proof. each_byte c; intros H; try discriminate H; reflexivity. Qed.

Lemma string_body_ordinary c s :
  ordinary c = true -> json.string_body (String c s) = String c (json.string_body s).
Proof. each_byte c; intros H; try discriminate H; reflexivity. Qed.

Lemma unquote_plain c s :
  plainChar c = true ->
  json.unquote_go 0 (String c s) = String c <$> json.unquote_go 0 s.
Proof. each_byte c; intros H; try discriminate H; reflexivity. Qed.

Lemma simpleEscape_scan s e x :
  simpleEscape e = Some x ->
  json.doInStringEsc s e = json.goto json.stateInString s.
Proof. each_byte e; intros H; try discriminate H; reflexivity. Qed.

Lemma simpleEscape_unquote e x s :
  simpleEscape e = Some x ->
  json.unquote_go 0 (String "\" (String e s)) = String x <$> json.unquote_go 0 s.
Proof.
  each_byte e; intros H; try discriminate H; injection H as <-; reflexivity.
Qed.

Lemma hexval_isHex c n : json.hexval c = Some n -> json.isHex c = true.
Proof.
  unfold json.hexval, json.isHex.
  destruct (between 48 57 c); [done|].
  destruct (between 97 102 c); [done|].
  destruct (between 65 70 c); [done|discriminate].
Qed.

Lemma getu4_isHex h1 h2 h3 h4 r :
  json.getu4 h1 h2 h3 h4 = Some r ->
  json.isHex h1 = true /\ json.isHex h2 = true
  /\ json.isHex h3 = true /\ json.isHex h4 = true.
Proof.
  unfold json.getu4. intros H.
  destruct (json.hexval h1) eqn:E1; [|discriminate].
  destruct (json.hexval h2) eqn:E2; [|discriminate].
  destruct (json.hexval h3) eqn:E3; [|discriminate].
  destruct (json.hexval h4) eqn:E4; [|discriminate].
  eauto 8 using hexval_isHex.
Qed.

(** *** Well-formed encodings *)

Lemma width_high w :
  2 <= utf8.width w -> utf8.width w = String.length w -> allHigh w = true.
Proof.
  destruct w as [|c0 w]; simpl; [lia|].
  destruct (code c0 <? 128)%N eqn:E0; [lia|].
  assert (H0 : (128 <=? code c0)%N = true) by (apply N.leb_le; apply N.ltb_ge in E0; lia).
  rewrite H0. simpl.
  assert (Hc : forall c, utf8.cont c = true -> (128 <=? code c)%N = true).
  { intros c. unfold utf8.cont, between. intros H.
    apply andb_true_iff in H as [H _]. exact H. }
  assert (Hb : forall lo hi c, (128 <=? lo)%N = true -> between lo hi c = true ->
                 (128 <=? code c)%N = true).
  { intros lo hi c Hlo. unfold between. intros H.
    apply andb_true_iff in H as [H _].
    apply N.leb_le in Hlo, H. apply N.leb_le. lia. }
  destruct (between 194 223 c0).
  { destruct w as [|c1 w]; [simpl; lia|].
    destruct (utf8.cont c1) eqn:E1; [|lia].
    intros _ H. destruct w; [|simpl in H; lia]. simpl. by rewrite (Hc c1 E1). }
  destruct (between 224 239 c0).
  { destruct w as [|c1 [|c2 w]]; try (simpl; lia).
    match goal with |- context [between ?lo ?hi c1] =>
      destruct (between lo hi c1) eqn:E1; [|simpl; lia];
      assert (H1 : (128 <=? code c1)%N = true)
        by (apply (Hb lo hi); [by destruct (code c0 =? 224)%N|done]) end.
    destruct (utf8.cont c2) eqn:E2; [|simpl; lia]. simpl.
    intros _ H. destruct w; [|simpl in H; lia]. simpl.
    by rewrite H1, (Hc c2 E2). }
  destruct (between 240 244 c0); [|lia].
  destruct w as [|c1 [|c2 [|c3 w]]]; try (simpl; lia).
  match goal with |- context [between ?lo ?hi c1] =>
    destruct (between lo hi c1) eqn:E1; [|simpl; lia];
    assert (H1 : (128 <=? code c1)%N = true)
      by (apply (Hb lo hi); [by destruct (code c0 =? 240)%N|done]) end.
  destruct (utf8.cont c2) eqn:E2; [|simpl; lia].
  destruct (utf8.cont c3) eqn:E3; [|simpl; lia]. simpl.
  intros _ H. destruct w; [|simpl in H; lia]. simpl.
  by rewrite H1, (Hc c2 E2), (Hc c3 E3).
Qed.

Lemma width_app w rest :
  2 <= utf8.width w -> utf8.width w = String.length w ->
  utf8.width (w +:+ rest) = utf8.width w.
Proof.
  destruct w as [|c0 w]; simpl; [lia|].
  destruct (code c0 <? 128)%N; [lia|].
  destruct (between 194 223 c0).
  { destruct w as [|c1 w]; [simpl; lia|]. intros _ _. reflexivity. }
  destruct (between 224 239 c0).
  { destruct w as [|c1 [|c2 w]]; try (simpl; lia);
      try (intros _ _; reflexivity). }
  destruct (between 240 244 c0); [|lia].
  destruct w as [|c1 [|c2 [|c3 w]]]; try (simpl; lia);
    try (intros _ _; reflexivity).
Qed.

Lemma allHigh_ordinary c : (128 <=? code c)%N = true -> ordinary c = true.
Proof. unfold ordinary. intros ->. apply orb_true_r. Qed.

(** *** What the scanner, the lexer and unquote make of a body *)

Lemma feed_cons s c x rest :
  json.feed s (String c x +:+ rest) = json.feed (json.call s c) (x +:+ rest).
Proof. reflexivity. Qed.

Lemma call_inString et ps c :
  json.call (json.Scanner json.stateInString et ps false) c
  = json.doInString (json.Scanner json.stateInString et ps false) c.
Proof. reflexivity. Qed.

Lemma feed_high w et ps :
  allHigh w = true ->
  forall rest,
    json.feed (json.Scanner json.stateInString et ps false) (w +:+ rest)
    = json.feed (json.Scanner json.stateInString et ps false) rest.
Proof.
  intros Hw rest. induction w as [|c w IH]; [reflexivity|].
  cbn [allHigh] in Hw. apply andb_true_iff in Hw as [Hc Hw].
  rewrite feed_cons, call_inString.
  rewrite doInString_ordinary by (by apply allHigh_ordinary). by apply IH.
Qed.

Lemma feed_escapeU h1 h2 h3 h4 et ps x :
  json.isHex h1 = true -> json.isHex h2 = true ->
  json.isHex h3 = true -> json.isHex h4 = true ->
  json.feed (json.Scanner json.stateInString et ps false) (escapeU h1 h2 h3 h4 x)
  = json.feed (json.Scanner json.stateInString et ps false) x.
Proof.
  intros H1 H2 H3 H4. unfold escapeU. cbn [json.feed].
  change (json.call (json.Scanner json.stateInString et ps false) "\")
    with (json.Scanner json.stateInStringEsc et ps false).
  change (json.call (json.Scanner json.stateInStringEsc et ps false) "u")
    with (json.Scanner json.stateInStringEscU et ps false).
  unfold json.call at 4. cbn [json.step]. unfold json.expectHex. rewrite H1.
  unfold json.call at 3. cbn [json.step json.goto]. unfold json.expectHex.
  rewrite H2.
  unfold json.call at 2. cbn [json.step json.goto]. unfold json.expectHex.
  rewrite H3.
  unfold json.call at 1. cbn [json.step json.goto]. unfold json.expectHex.
  rewrite H4. reflexivity.
Qed.

Lemma feed_body body v :
  Denotes body v ->
  forall et ps rest,
    json.feed (json.Scanner json.stateInString et ps false) (body +:+ rest)
    = json.feed (json.Scanner json.stateInString et ps false) rest.
Proof.
  induction 1 as [|c body v Hc _ IH|e x body v He _ IH
                  |h1 h2 h3 h4 r body v Hr Hs _ IH
                  |h1 h2 h3 h4 g1 g2 g3 g4 r1 r2 r body v Hr1 Hr2 Hd _ IH
                  |w body v Hw1 Hw2 _ IH]; intros et ps rest.
  - reflexivity.
  - rewrite feed_cons, call_inString.
    rewrite doInString_ordinary by (unfold ordinary; by rewrite Hc). apply IH.
  - rewrite feed_cons.
    change (json.call (json.Scanner json.stateInString et ps false) "\")
      with (json.Scanner json.stateInStringEsc et ps false).
    rewrite feed_cons.
    change (json.call (json.Scanner json.stateInStringEsc et ps false) e)
      with (json.doInStringEsc (json.Scanner json.stateInStringEsc et ps false) e).
    rewrite (simpleEscape_scan _ e x He). apply IH.
  - apply getu4_isHex in Hr as (H1 & H2 & H3 & H4).
    change (escapeU h1 h2 h3 h4 body +:+ rest)
      with (escapeU h1 h2 h3 h4 (body +:+ rest)).
    rewrite feed_escapeU by done. apply IH.
  - apply getu4_isHex in Hr1 as (H1 & H2 & H3 & H4).
    apply getu4_isHex in Hr2 as (G1 & G2 & G3 & G4).
    change (escapeU h1 h2 h3 h4 (escapeU g1 g2 g3 g4 body) +:+ rest)
      with (escapeU h1 h2 h3 h4 (escapeU g1 g2 g3 g4 (body +:+ rest))).
    rewrite !feed_escapeU by done. apply IH.
  - rewrite append_assoc, feed_high; [apply IH|by apply width_high].
Qed.

Lemma append_cons c x y : String c x +:+ y = String c (x +:+ y).
Proof. reflexivity. Qed.

Lemma string_body_high w s :
  allHigh w = true -> json.string_body (w +:+ s) = w +:+ json.string_body s.
Proof.
  induction w as [|c w IH]; intros H; [reflexivity|].
  cbn [allHigh] in H. apply andb_true_iff in H as [Hc Hw].
  rewrite !append_cons.
  rewrite string_body_ordinary by (by apply allHigh_ordinary).
  by rewrite IH.
Qed.

Lemma string_body_escape e s :
  json.string_body (String "\" (String e s))
  = String "\" (String e (json.string_body s)).
Proof. reflexivity. Qed.

Lemma isHex_ordinary c : json.isHex c = true -> ordinary c = true.
Proof. each_byte c; intros H; try discriminate H; reflexivity. Qed.

Lemma string_body_escapeU h1 h2 h3 h4 s :
  json.isHex h1 = true -> json.isHex h2 = true ->
  json.isHex h3 = true -> json.isHex h4 = true ->
  json.string_body (escapeU h1 h2 h3 h4 s)
  = escapeU h1 h2 h3 h4 (json.string_body s).
Proof.
  intros H1 H2 H3 H4. unfold escapeU. rewrite string_body_escape.
  by rewrite !string_body_ordinary by (by apply isHex_ordinary).
Qed.

Lemma string_body_body body v :
  Denotes body v ->
  forall rest, json.string_body (body +:+ String dquote rest) = body.
Proof.
  induction 1 as [|c body v Hc _ IH|e x body v He _ IH
                  |h1 h2 h3 h4 r body v Hr Hs _ IH
                  |h1 h2 h3 h4 g1 g2 g3 g4 r1 r2 r body v Hr1 Hr2 Hd _ IH
                  |w body v Hw1 Hw2 _ IH]; intros rest.
  - reflexivity.
  - rewrite append_cons.
    rewrite string_body_ordinary by (unfold ordinary; by rewrite Hc).
    by rewrite IH.
  - rewrite !append_cons, string_body_escape. by rewrite IH.
  - apply getu4_isHex in Hr as (H1 & H2 & H3 & H4).
    change (escapeU h1 h2 h3 h4 body +:+ String dquote rest)
      with (escapeU h1 h2 h3 h4 (body +:+ String dquote rest)).
    rewrite string_body_escapeU by done. by rewrite IH.
  - apply getu4_isHex in Hr1 as (H1 & H2 & H3 & H4).
    apply getu4_isHex in Hr2 as (G1 & G2 & G3 & G4).
    change (escapeU h1 h2 h3 h4 (escapeU g1 g2 g3 g4 body) +:+ String dquote rest)
      with (escapeU h1 h2 h3 h4 (escapeU g1 g2 g3 g4 (body +:+ String dquote rest))).
    rewrite !string_body_escapeU by done. by rewrite IH.
  - rewrite append_assoc, string_body_high by (by apply width_high).
    by rewrite IH.
Qed.

Lemma unquote_go_copy k c s :
  json.unquote_go (S k) (String c s) = String c <$> json.unquote_go k s.
Proof. reflexivity. Qed.

Lemma unquote_copy w s :
  json.unquote_go (String.length w) (w +:+ s)
  = String.append w <$> json.unquote_go 0 s.
Proof.
  induction w as [|c w IH].
  - cbn [String.length String.append]. by destruct (json.unquote_go 0 s).
  - cbn [String.length]. rewrite append_cons, unquote_go_copy, IH.
    by destruct (json.unquote_go 0 s).
Qed.

Lemma unquote_high c s :
  (128 <=? code c)%N = true ->
  json.unquote_go 0 (String c s)
  = match utf8.width (String c s) with
    | O => String.append json.replacement <$> json.unquote_go 0 s
    | S w => String c <$> json.unquote_go w s
    end.
Proof. each_byte c; intros H; try discriminate H; reflexivity. Qed.

Lemma unquote_escapeU h1 h2 h3 h4 s :
  json.unquote_go 0 (escapeU h1 h2 h3 h4 s)
  = match json.getu4 h1 h2 h3 h4 with
    | None => None
    | Some rr =>
      if json.IsSurrogate rr then
        match s with
        | String "\"%char (String "u"%char
            (String g1 (String g2 (String g3 (String g4 r2))))) =>
          match json.getu4 g1 g2 g3 g4 with
          | Some rr1 =>
            match json.DecodeRune16 rr rr1 with
            | Some dec =>
              String.append (utf8.EncodeRune dec) <$> json.unquote_go 0 r2
            | None => String.append json.replacement <$> json.unquote_go 0 s
            end
          | None => String.append json.replacement <$> json.unquote_go 0 s
          end
        | _ => String.append json.replacement <$> json.unquote_go 0 s
        end
      else String.append (utf8.EncodeRune rr) <$> json.unquote_go 0 s
    end.
Proof. reflexivity. Qed.

Lemma unquote_body body v : Denotes body v -> json.unquote body = Some v.
Proof.
  unfold json.unquote.
  induction 1 as [|c body v Hc _ IH|e x body v He _ IH
                  |h1 h2 h3 h4 r body v Hr Hs _ IH
                  |h1 h2 h3 h4 g1 g2 g3 g4 r1 r2 r body v Hr1 Hr2 Hd _ IH
                  |w body v Hw1 Hw2 _ IH].
  - reflexivity.
  - by rewrite unquote_plain, IH.
  - by rewrite (simpleEscape_unquote e x), IH.
  - rewrite unquote_escapeU, Hr, Hs, IH. reflexivity.
  - rewrite unquote_escapeU, Hr1.
    assert (S1 : json.IsSurrogate r1 = true).
    { unfold json.DecodeRune16 in Hd. unfold json.IsSurrogate.
      destruct (55296 <=? r1)%N eqn:A; [|discriminate].
      destruct (r1 <? 56320)%N eqn:B; [|discriminate].
      simpl. apply N.ltb_lt. apply N.ltb_lt in B. lia. }
    rewrite S1. unfold escapeU at 1. rewrite Hr2, Hd, IH. reflexivity.
  - pose proof (width_high w Hw1 Hw2) as Hh.
    destruct w as [|c w]; [simpl in Hw1; lia|].
    cbn [allHigh] in Hh. apply andb_true_iff in Hh as [Hc Hh].
    rewrite append_cons, unquote_high by done.
    rewrite <- append_cons, width_app by done. rewrite Hw2.
    cbn [String.length]. rewrite unquote_copy, IH. reflexivity.
Qed.

(** ** An object of strings *)

Lemma isAlnum_plain c : isAlnum c = true -> plainChar c = true.
Proof. each_byte c; intros H; try discriminate H; reflexivity. Qed.

Lemma identifier_Denotes k : identifier k = true -> Denotes k k.
Proof.
  induction k as [|c k IH]; simpl; intros H; [constructor|].
  apply andb_true_iff in H as [Hc Hk].
  constructor; [by apply isAlnum_plain|by apply IH].
Qed.

Lemma feed_quoted body v st et ps rest :
  Denotes body v ->
  st = json.stateBeginValue \/ st = json.stateBeginString
    \/ st = json.stateBeginStringOrEmpty ->
  json.feed (json.Scanner st et ps false) (quoted body +:+ rest)
  = json.feed (json.Scanner json.stateEndValue et ps false) rest.
Proof.
  intros Hb Hst. unfold quoted.
  change (String dquote (body +:+ String dquote "") +:+ rest)
    with (String dquote ((body +:+ String dquote "") +:+ rest)).
  rewrite append_assoc. cbn [json.feed].
  assert (E : json.call (json.Scanner st et ps false) dquote
              = json.Scanner json.stateInString et ps false)
    by (destruct Hst as [->|[->| ->]]; reflexivity).
  rewrite E, (feed_body body v Hb). reflexivity.
Qed.

Lemma feed_member key body v st ps rest :
  wellFormedMember (key, body) v ->
  st = json.stateBeginString \/ st = json.stateBeginStringOrEmpty ->
  json.feed (json.Scanner st false (json.parseObjectKey :: ps) false)
    (member key body +:+ rest)
  = json.feed
      (json.Scanner json.stateEndValue false (json.parseObjectValue :: ps) false)
      rest.
Proof.
  intros [Hk Hb] Hst. simpl in Hk, Hb. unfold member.
  rewrite !append_assoc.
  rewrite (feed_quoted key key) by (auto using identifier_Denotes).
  change (":" +:+ quoted body +:+ rest) with (String ":" (quoted body +:+ rest)).
  cbn [json.feed].
  change (json.call (json.Scanner json.stateEndValue false
                       (json.parseObjectKey :: ps) false) ":")
    with (json.Scanner json.stateBeginValue false
            (json.parseObjectValue :: ps) false).
  by rewrite (feed_quoted body v) by auto.
Qed.

Lemma feed_closeObject kvs vals :
  Forall2 wellFormedMember kvs vals ->
  json.feed (json.Scanner json.stateEndValue false [json.parseObjectValue] false)
    (closeObject kvs)
  = json.Scanner json.stateEndTop true [] false.
Proof.
  induction 1 as [|[key body] v kvs vals Hm _ IH]; [reflexivity|].
  cbn [closeObject].
  change ("," +:+ member key body +:+ closeObject kvs)
    with (String "," (member key body +:+ closeObject kvs)).
  cbn [json.feed].
  change (json.call (json.Scanner json.stateEndValue false
                       [json.parseObjectValue] false) ",")
    with (json.Scanner json.stateBeginString false [json.parseObjectKey] false).
  rewrite (feed_member key body v) by auto. exact IH.
Qed.

Lemma checkValid_objectText kvs vals :
  Forall2 wellFormedMember kvs vals ->
  json.checkValid (objectText kvs) = true.
Proof.
  intros H. unfold json.checkValid.
  destruct H as [|[key body] v kvs vals Hm H]; [reflexivity|].
  cbn [objectText].
  change ("{" +:+ member key body +:+ closeObject kvs)
    with (String "{" (member key body +:+ closeObject kvs)).
  cbn [json.feed].
  change (json.call json.reset "{")
    with (json.Scanner json.stateBeginStringOrEmpty false [json.parseObjectKey] false).
  rewrite (feed_member key body v) by auto.
  by rewrite (feed_closeObject kvs vals).
Qed.

(** *** The tokens *)

Lemma lex_skip x rest : json.lex (String.length x) (x +:+ rest) = json.lex 0 rest.
Proof.
  induction x as [|c x IH]; simpl; [|exact IH]. destruct rest; reflexivity.
Qed.

Lemma lex_quoted body v rest :
  Denotes body v ->
  json.lex 0 (quoted body +:+ rest) = json.TString body :: json.lex 0 rest.
Proof.
  intros Hb. unfold quoted.
  change (String dquote (body +:+ String dquote "") +:+ rest)
    with (String dquote ((body +:+ String dquote "") +:+ rest)).
  rewrite append_assoc. cbn [json.lex]. simpl json.isSpace. cbv iota.
  change (String dquote "" +:+ rest) with (String dquote rest).
  rewrite (string_body_body body v Hb). f_equal.
  change (String dquote rest) with (String dquote "" +:+ rest).
  rewrite <- append_assoc.
  replace (S (String.length body)) with (String.length (body +:+ String dquote ""))
    by (rewrite length_append; simpl; lia).
  apply lex_skip.
Qed.

Lemma lex_member key body v rest :
  wellFormedMember (key, body) v ->
  json.lex 0 (member key body +:+ rest)
  = memberTokens key body ++ json.lex 0 rest.
Proof.
  intros [Hk Hb]. simpl in Hk, Hb. unfold member. rewrite !append_assoc.
  rewrite (lex_quoted key key) by (by apply identifier_Denotes).
  change (":" +:+ quoted body +:+ rest) with (String ":" (quoted body +:+ rest)).
  cbn [json.lex]. simpl json.isSpace. cbv iota.
  by rewrite (lex_quoted body v).
Qed.

Lemma lex_closeObject kvs vals :
  Forall2 wellFormedMember kvs vals ->
  json.lex 0 (closeObject kvs) = closeTokens kvs.
Proof.
  induction 1 as [|[key body] v kvs vals Hm _ IH]; [reflexivity|].
  cbn [closeObject closeTokens].
  change ("," +:+ member key body +:+ closeObject kvs)
    with (String "," (member key body +:+ closeObject kvs)).
  cbn [json.lex]. simpl json.isSpace. cbv iota.
  by rewrite (lex_member key body v), IH.
Qed.

(** *** The values stored *)

Lemma object_member {T} `{json.Struct T} key body val ts (v : T) e :
  wellFormedMember (key, body) val ->
  json.object json.AtKey (memberTokens key body ++ ts) v e
  = json.object json.AtNext ts (storeField key val v) e.
Proof.
  intros [Hk Hb]. simpl in Hk, Hb. simpl.
  rewrite (unquote_body key key) by (by apply identifier_Denotes).
  rewrite (unquote_body body val Hb). simpl. unfold storeField.
  by destruct (json.findField key).
Qed.

Lemma object_closeTokens {T} `{json.Struct T} kvs vals :
  Forall2 wellFormedMember kvs vals ->
  forall (v : T) e,
    json.object json.AtNext (closeTokens kvs) v e
    = (storeFields kvs.*1 vals v, e).
Proof.
  induction 1 as [|[key body] val kvs vals Hm _ IH]; intros v e; [reflexivity|].
  cbn [closeTokens]. cbn [json.object].
  rewrite (object_member key body val) by done. rewrite IH. reflexivity.
Qed.

Lemma Unmarshal_objectText {T} `{json.Struct T} kvs vals (v : T) :
  Forall2 wellFormedMember kvs vals ->
  json.Unmarshal (objectText kvs) v = (storeFields kvs.*1 vals v, None).
Proof.
  intros Hm. unfold json.Unmarshal.
  rewrite (checkValid_objectText kvs vals Hm).
  destruct Hm as [|[key body] val kvs vals Hm Hms]; [reflexivity|].
  cbn [objectText].
  change ("{" +:+ member key body +:+ closeObject kvs)
    with (String "{" (member key body +:+ closeObject kvs)).
  cbn [json.lex]. simpl json.isSpace. cbv iota.
  rewrite (lex_member key body val _ Hm), (lex_closeObject kvs vals Hms).
  cbn [json.value]. rewrite (object_member key body val) by done.
  rewrite (object_closeTokens kvs vals Hms). reflexivity.
Qed.

(** *** The record of a container *)

Lemma encodesContainer_members js r :
  encodesContainer js r ->
  exists body kvs vals,
    js = objectText (("Command", body) :: kvs)
    /\ Denotes body (cCommand r)
    /\ Forall2 wellFormedMember kvs vals
    /\ (("Command", body) :: kvs).*1 = containerKeys
    /\ cCommand r :: vals = containerFields r.
Proof.
  intros (bodies & Hb & ->).
  assert (Hlen : length bodies = 14)
    by (apply Forall2_length in Hb; exact Hb).
  repeat (destruct bodies as [|? bodies]; [discriminate Hlen|]).
  destruct bodies; [|discriminate Hlen].
  unfold containerFields in *.
  repeat match goal with
  | H : Forall2 _ (_ :: _) (_ :: _) |- _ =>
    apply Forall2_cons_1 in H as [? H]
  end.
  eexists _, _, _. split; [reflexivity|]. split; [assumption|].
  split; [|split; reflexivity].
  repeat (constructor; [split; [reflexivity|assumption]|]).
  constructor.
Qed.

Lemma Unmarshal_container js r :
  encodesContainer js r ->
  json.Unmarshal js zero_ContainerInfo = (r, None).
Proof.
  intros H. destruct (encodesContainer_members js r H)
    as (body & kvs & vals & -> & Hb & Hm & Hk & Hv).
  rewrite (Unmarshal_objectText (("Command", body) :: kvs) (cCommand r :: vals)).
  - rewrite Hk, Hv. destruct r. reflexivity.
  - constructor; [split; [reflexivity|exact Hb]|exact Hm].
Qed.

(** ** Trimming a piece *)

Lemma slice_from_app x y : strings.slice_from (x +:+ y) (String.length x) = y.
Proof. induction x as [|c x IH]; simpl; [by destruct y|exact IH]. Qed.

Lemma slice_to_app x y : strings.slice_to (x +:+ y) (String.length x) = x.
Proof. induction x as [|c x IH]; simpl; [by destruct y|by rewrite IH]. Qed.

Lemma TrimSuffix_quote x : TrimSuffix (x +:+ String dquote "") (String dquote "") = x.
Proof.
  unfold TrimSuffix, strings.HasSuffix. rewrite length_append. simpl String.length.
  replace (String.length x + 1 - 1) with (String.length x) by lia.
  rewrite slice_from_app, slice_to_app.
  destruct (String.length x + 1) eqn:E; [lia|]. reflexivity.
Qed.

Lemma occurs_app c x y : occurs c (x +:+ y) = occurs c x || occurs c y.
Proof. induction x as [|d x IH]; simpl; [reflexivity|]. by rewrite IH, orb_assoc. Qed.

Lemma occurs_slices c s k :
  occurs c s = occurs c (strings.slice_to s k) || occurs c (strings.slice_from s k).
Proof.
  revert k. induction s as [|d s IH]; intros [|k]; simpl; try reflexivity.
  by rewrite (IH k), orb_assoc.
Qed.

Lemma code_not_quote c n : code c = n -> n <> 34%N -> Ascii.eqb c dquote = false.
Proof.
  intros E Hn. apply Ascii.eqb_neq. intros ->. apply Hn. rewrite <- E. reflexivity.
Qed.

Lemma eqb_code c n : (code c =? n)%N = true -> code c = n.
Proof. apply N.eqb_eq. Qed.

Lemma between_not_quote lo hi c :
  between lo hi c = true -> (34 < lo)%N -> Ascii.eqb c dquote = false.
Proof.
  unfold between. intros H Hlo. apply andb_true_iff in H as [H _].
  apply N.leb_le in H. apply Ascii.eqb_neq. intros ->.
  change (code dquote) with 34%N in H. lia.
Qed.

Lemma slice_to_0 s : strings.slice_to s 0 = "".
Proof. by destruct s. Qed.

Ltac side := first [assumption | by apply eqb_code | lia].

(** The bytes of a white space rune are not quotes. *)
Lemma space_width_no_quote c s w :
  strings.space_width (String c s) = S w ->
  Ascii.eqb c dquote = false /\ occurs dquote (strings.slice_to s w) = false.
Proof.
  unfold strings.space_width.
  destruct (strings.asciiSpace c) eqn:Ha.
  { intros [= <-]. split; [|by destruct s].
    revert Ha. each_byte c; intros H; try discriminate H; reflexivity. }
  destruct (code c) as [|p] eqn:Ec; [discriminate|].
  assert (Hq : (N.pos p = 194 \/ N.pos p = 225 \/ N.pos p = 226 \/ N.pos p = 227)%N
               -> Ascii.eqb c dquote = false).
  { intros H. apply (code_not_quote c (N.pos p) Ec). lia. }
  do 8 (destruct p as [p|p|]; try discriminate).
  - (* 227 *)
    destruct s as [|c1 [|c2 s]]; try discriminate.
    destruct (code c1 =? 128)%N eqn:E1; [|discriminate].
    destruct (code c2 =? 128)%N eqn:E2; [|discriminate].
    intros [= <-]. split; [apply Hq; lia|]. simpl.
    by rewrite slice_to_0, (code_not_quote c1 128), (code_not_quote c2 128) by side.
  - (* 225 *)
    destruct s as [|c1 [|c2 s]]; try discriminate.
    destruct (code c1 =? 154)%N eqn:E1; [|discriminate].
    destruct (code c2 =? 128)%N eqn:E2; [|discriminate].
    intros [= <-]. split; [apply Hq; lia|]. simpl.
    by rewrite slice_to_0, (code_not_quote c1 154), (code_not_quote c2 128) by side.
  - (* 226 *)
    destruct s as [|c1 [|c2 s]]; try discriminate.
    destruct (code c1 =? 128)%N eqn:E1.
    + destruct (between 128 138 c2 || between 168 169 c2 || (code c2 =? 175)%N)
        eqn:E2; [|discriminate].
      intros [= <-]. split; [apply Hq; lia|]. simpl.
      rewrite slice_to_0, (code_not_quote c1 128) by side.
      apply orb_true_iff in E2 as [E2|E2]; [apply orb_true_iff in E2 as [E2|E2]|].
      * rewrite (between_not_quote 128 138 c2) by side. reflexivity.
      * rewrite (between_not_quote 168 169 c2) by side. reflexivity.
      * rewrite (code_not_quote c2 175) by side. reflexivity.
    + destruct (code c1 =? 129)%N eqn:E1'; [|discriminate].
      destruct (code c2 =? 159)%N eqn:E2; [|discriminate].
      intros [= <-]. split; [apply Hq; lia|]. simpl.
      by rewrite slice_to_0, (code_not_quote c1 129), (code_not_quote c2 159) by side.
  - (* 194 *)
    destruct s as [|c1 s]; try discriminate.
    destruct ((code c1 =? 133)%N || (code c1 =? 160)%N) eqn:E1; [|discriminate].
    intros [= <-]. split; [apply Hq; lia|]. simpl. rewrite slice_to_0.
    apply orb_true_iff in E1 as [E1|E1].
    + rewrite (code_not_quote c1 133) by side. reflexivity.
    + rewrite (code_not_quote c1 160) by side. reflexivity.
Qed.

Lemma trim_left_empty s :
  forall k, strings.trim_left_go k s = "" ->
            occurs dquote (strings.slice_from s k) = false.
Proof.
  induction s as [|c s IH]; intros k H; [by destruct k|].
  destruct k as [|k]; cbn [strings.trim_left_go] in H.
  - destruct (strings.space_width (String c s)) as [|w] eqn:Ew; [discriminate|].
    apply space_width_no_quote in Ew as [Hc Hs].
    cbn [strings.slice_from occurs]. rewrite Hc. simpl.
    rewrite (occurs_slices dquote s w), Hs. simpl. by apply IH.
  - cbn [strings.slice_from]. by apply IH.
Qed.

Lemma TrimLeftSpace_quote s :
  occurs dquote s = true -> String.eqb (strings.TrimLeftSpace s) "" = false.
Proof.
  intros H. apply String.eqb_neq. intros E.
  apply trim_left_empty in E. destruct s; simpl in *; congruence.
Qed.

Lemma TrimLeftSpace_allSpace ws :
  allSpace ws = true -> strings.TrimLeftSpace ws = "".
Proof.
  unfold strings.TrimLeftSpace.
  induction ws as [|c ws IH]; intros H; [reflexivity|].
  cbn [allSpace] in H. apply andb_true_iff in H as [Hc Hws].
  cbn [strings.trim_left_go]. unfold strings.space_width. rewrite Hc. by apply IH.
Qed.

Lemma TrimRightSpace_allSpace ws :
  allSpace ws = true -> strings.TrimRightSpace ws = "".
Proof.
  intros H. destruct ws as [|c ws]; [reflexivity|].
  cbn [strings.TrimRightSpace]. by rewrite TrimLeftSpace_allSpace.
Qed.

Lemma TrimRightSpace_quote x ws :
  allSpace ws = true ->
  strings.TrimRightSpace (x +:+ String dquote ws) = x +:+ String dquote "".
Proof.
  intros Hws. induction x as [|c x IH].
  - cbn [String.append strings.TrimRightSpace].
    rewrite TrimLeftSpace_quote by reflexivity.
    by rewrite TrimRightSpace_allSpace.
  - rewrite !append_cons. cbn [strings.TrimRightSpace].
    rewrite TrimLeftSpace_quote.
    + by rewrite IH.
    + cbn [occurs]. rewrite occurs_app. cbn [occurs].
      change (Ascii.eqb dquote dquote) with true. simpl.
      by rewrite !orb_true_r.
Qed.

(** A piece that is the text of an object, its closing quote and white
    space comes out of the trimming as the text. *)
Lemma trim_piece x ws :
  allSpace ws = true ->
  TrimSuffix (strings.TrimSpace (String "{" x +:+ String dquote ws))
    (String dquote "")
  = String "{" x.
Proof.
  intros Hws. unfold strings.TrimSpace.
  assert (E : strings.TrimLeftSpace (String "{" x +:+ String dquote ws)
              = String "{" x +:+ String dquote ws) by reflexivity.
  rewrite E, TrimRightSpace_quote by done. apply TrimSuffix_quote.
Qed.

(** ** The marker occurs at the head of a record only *)

Lemma body_head_not_quote body v Z W :
  Denotes body v -> body <> "" ->
  strings.HasPrefix (body +:+ Z) (String dquote W) = false.
Proof.
  intros H Hne. destruct H as [|c body v Hc _|e x body v He _
                  |h1 h2 h3 h4 r body v Hr Hs _
                  |h1 h2 h3 h4 g1 g2 g3 g4 r1 r2 r body v Hr1 Hr2 Hd _
                  |w body v Hw1 Hw2 _]; try done.
  - rewrite append_cons. rewrite HasPrefix_cons.
    rewrite ordinary_not_quote by (unfold ordinary; by rewrite Hc). reflexivity.
  - pose proof (width_high w Hw1 Hw2) as Hh.
    destruct w as [|c w]; [simpl in Hw1; lia|].
    cbn [allHigh] in Hh. apply andb_true_iff in Hh as [Hc _].
    rewrite append_assoc, append_cons. rewrite HasPrefix_cons.
    rewrite ordinary_not_quote by (by apply allHigh_ordinary). reflexivity.
Qed.

Lemma closeObject_head kvs Z :
  exists d Y, closeObject kvs +:+ Z = String d Y /\ (d = ","%char \/ d = "}"%char).
Proof.
  destruct kvs as [|[k b] kvs]; simpl; eauto.
Qed.

Lemma identifier_no_quote k : identifier k = true -> occurs dquote k = false.
Proof.
  induction k as [|c k IH]; simpl; intros H; [reflexivity|].
  apply andb_true_iff in H as [Hc Hk]. rewrite IH by done.
  rewrite ordinary_not_quote; [reflexivity|].
  unfold ordinary. by rewrite isAlnum_plain.
Qed.

Lemma allSpace_no c ws :
  strings.asciiSpace c = false -> allSpace ws = true -> occurs c ws = false.
Proof.
  intros Hc. induction ws as [|d ws IH]; simpl; intros H; [reflexivity|].
  apply andb_true_iff in H as [Hd Hws]. rewrite IH by done.
  destruct (Ascii.eqb_spec d c) as [->|]; [congruence|reflexivity].
Qed.

Lemma space_then_next ws next p :
  allSpace ws = true -> strings.HasPrefix next (String "{" p) = false ->
  strings.HasPrefix (ws +:+ next) (String "{" p) = false.
Proof.
  intros Hws Hn. destruct ws as [|c ws]; [exact Hn|].
  cbn [allSpace] in Hws. apply andb_true_iff in Hws as [Hc _].
  rewrite append_cons. rewrite HasPrefix_cons.
  destruct (Ascii.eqb_spec c "{") as [->|]; [discriminate Hc|reflexivity].
Qed.

Section Marker.

(** The marker is a quote, a brace, a quote and the first key; of the key
    all that matters is that it starts with a letter. *)
Variable k0 : ascii.
Variable key : string.
Hypothesis k0_alnum : isAlnum k0 = true.

#[local] Abbreviation afterQuote := (String "{" (String dquote (String k0 key))).
#[local] Abbreviation marker := (String dquote afterQuote).

Lemma closer_not_k0 d : d = ","%char \/ d = "}"%char -> Ascii.eqb d k0 = false.
Proof using All.
  intros Hd. apply Ascii.eqb_neq. intros <-.
  destruct Hd as [->| ->]; discriminate k0_alnum.
Qed.

Lemma body_not_afterQuote body v d Y :
  Denotes body v -> d = ","%char \/ d = "}"%char ->
  strings.HasPrefix (body +:+ String dquote (String d Y)) afterQuote = false.
Proof using All.
  intros H Hd.
  destruct H as [|c body v Hc Hb|e x body v He _
                  |h1 h2 h3 h4 r body v Hr Hs _
                  |h1 h2 h3 h4 g1 g2 g3 g4 r1 r2 r body v Hr1 Hr2 Hd' _
                  |w body v Hw1 Hw2 _]; try reflexivity.
  - rewrite append_cons. rewrite HasPrefix_cons.
    destruct (Ascii.eqb c "{"); [|reflexivity]. cbn [andb].
    destruct (decide (body = "")) as [->|Hne].
    + cbn [String.append]; rewrite !HasPrefix_cons.
      change (Ascii.eqb dquote dquote) with true.
      by rewrite (closer_not_k0 d Hd).
    + change (strings.HasPrefix (body +:+ String dquote (String d Y))
                (String dquote (String k0 key)) = false).
      by apply (body_head_not_quote body v).
  - pose proof (width_high w Hw1 Hw2) as Hh.
    destruct w as [|c w]; [simpl in Hw1; lia|].
    cbn [allHigh] in Hh. apply andb_true_iff in Hh as [Hc _].
    rewrite append_assoc, append_cons. rewrite HasPrefix_cons.
    assert (E : Ascii.eqb c "{" = false).
    { revert Hc. clear. each_byte c; intros H; try discriminate H; reflexivity. }
    by rewrite E.
Qed.

Lemma clearOf_ordinary c x rest :
  ordinary c = true -> clearOf marker x rest -> clearOf marker (String c x) rest.
Proof using All.
  intros Hc Hx. apply clearOf_cons; [|exact Hx].
  rewrite HasPrefix_cons. by rewrite ordinary_not_quote.
Qed.

Lemma clearOf_escapeU h1 h2 h3 h4 x rest :
  json.isHex h1 = true -> json.isHex h2 = true ->
  json.isHex h3 = true -> json.isHex h4 = true ->
  clearOf marker x rest -> clearOf marker (escapeU h1 h2 h3 h4 x) rest.
Proof using All.
  intros H1 H2 H3 H4 Hx. unfold escapeU.
  apply clearOf_cons; [reflexivity|]. apply clearOf_cons; [reflexivity|].
  repeat (apply clearOf_ordinary; [by apply isHex_ordinary|]). exact Hx.
Qed.

Lemma body_clearOf body v d Y :
  Denotes body v -> d = ","%char \/ d = "}"%char ->
  clearOf marker body (String dquote (String d Y)).
Proof using All.
  intros H Hd.
  induction H as [|c body v Hc _ IH|e x body v He Hb IH
                  |h1 h2 h3 h4 r body v Hr Hs _ IH
                  |h1 h2 h3 h4 g1 g2 g3 g4 r1 r2 r body v Hr1 Hr2 Hd' _ IH
                  |w body v Hw1 Hw2 _ IH].
  - apply clearOf_nil.
  - apply clearOf_ordinary; [unfold ordinary; by rewrite Hc|exact IH].
  - apply clearOf_cons; [reflexivity|]. apply clearOf_cons; [|exact IH].
    rewrite HasPrefix_cons.
    destruct (Ascii.eqb e dquote); [|reflexivity]. cbn [andb].
    by apply (body_not_afterQuote body v).
  - apply getu4_isHex in Hr as (H1 & H2 & H3 & H4).
    by apply clearOf_escapeU.
  - apply getu4_isHex in Hr1 as (H1 & H2 & H3 & H4).
    apply getu4_isHex in Hr2 as (G1 & G2 & G3 & G4).
    apply clearOf_escapeU; try done. by apply clearOf_escapeU.
  - pose proof (width_high w Hw1 Hw2) as Hh. clear Hw1 Hw2.
    induction w as [|c w IHw]; [exact IH|].
    cbn [allHigh] in Hh. apply andb_true_iff in Hh as [Hc Hh].
    rewrite append_cons. apply clearOf_ordinary; [by apply allHigh_ordinary|].
    by apply IHw.
Qed.

Lemma quoted_clearOf body v d Y :
  Denotes body v -> d = ","%char \/ d = "}"%char ->
  clearOf marker (quoted body) (String d Y).
Proof using All.
  intros Hb Hd. unfold quoted. apply clearOf_cons.
  - rewrite append_assoc. rewrite HasPrefix_cons.
    change (Ascii.eqb dquote dquote) with true. cbn [andb].
    by apply (body_not_afterQuote body v).
  - apply clearOf_app.
    + by apply (body_clearOf body v).
    + apply clearOf_cons; [|apply clearOf_nil].
      cbn [String.append]; rewrite !HasPrefix_cons.
      destruct Hd as [->| ->]; reflexivity.
Qed.

Lemma key_clearOf k Y :
  identifier k = true -> clearOf marker (quoted k) (String ":" Y).
Proof using All.
  intros Hk. unfold quoted. apply clearOf_cons.
  - rewrite append_assoc. rewrite HasPrefix_cons.
    destruct k as [|c k]; [reflexivity|].
    cbn [identifier] in Hk. apply andb_true_iff in Hk as [Hc _].
    rewrite append_cons. rewrite HasPrefix_cons.
    assert (E : Ascii.eqb c "{" = false).
    { revert Hc. clear. each_byte c; intros H; try discriminate H; reflexivity. }
    rewrite E. reflexivity.
  - apply clearOf_app.
    + apply clearOf_no_first. by apply identifier_no_quote.
    + apply clearOf_cons; [reflexivity|apply clearOf_nil].
Qed.

Lemma closeObject_clearOf kvs vals ws next :
  Forall2 wellFormedMember kvs vals ->
  allSpace ws = true ->
  strings.HasPrefix next afterQuote = false ->
  clearOf marker (closeObject kvs +:+ String dquote ws) next.
Proof using All.
  intros Hm Hws Hn.
  induction Hm as [|[k b] v kvs vals [Hk Hb] _ IH]; cbn [closeObject fst snd] in *.
  - apply clearOf_cons; [reflexivity|].
    apply clearOf_cons.
    + rewrite HasPrefix_cons.
      change (Ascii.eqb dquote dquote) with true. cbn [andb].
      by apply space_then_next.
    + apply clearOf_no_first. by apply allSpace_no.
  - apply clearOf_cons; [reflexivity|].
    unfold member. rewrite !append_assoc.
    apply clearOf_app; [rewrite append_cons; by apply key_clearOf|].
    rewrite append_cons. apply clearOf_cons; [reflexivity|].
    destruct (closeObject_head kvs (String dquote ws +:+ next))
      as (d & Y & E & Hd).
    apply (clearOf_app _ (quoted b) (closeObject kvs +:+ String dquote ws));
      [|exact IH].
    rewrite append_assoc, E. by apply (quoted_clearOf b v).
Qed.

End Marker.

(** ** The pieces of a well-formed output *)

Lemma blob_head ls p : strings.HasPrefix (blob ls) (String "{" p) = false.
Proof. destruct ls; reflexivity. Qed.

Lemma line_marker body kvs ws :
  quoted (objectText (("Command", body) :: kvs)) +:+ ws
  = containerMarker
    +:+ (quoted body +:+ closeObject kvs +:+ String dquote ws).
Proof.
  unfold quoted, objectText, member, quoted, containerMarker.
  cbn [String.append]. rewrite !append_assoc. reflexivity.
Qed.

Lemma line_clearOf body v kvs vals ws next :
  Denotes body v ->
  Forall2 wellFormedMember kvs vals ->
  allSpace ws = true ->
  (forall p, strings.HasPrefix next (String "{" p) = false) ->
  clearOf containerMarker
    (quoted body +:+ closeObject kvs +:+ String dquote ws) next.
Proof.
  intros Hb Hm Hws Hn.
  destruct (closeObject_head kvs (String dquote ws +:+ next))
    as (d & Y & E & Hd).
  apply (clearOf_app _ (quoted body) (closeObject kvs +:+ String dquote ws)).
  - rewrite append_assoc, E.
    apply (quoted_clearOf "C" ("ommand" +:+ String dquote ":") eq_refl body v);
      assumption.
  - apply (closeObject_clearOf "C" ("ommand" +:+ String dquote ":") eq_refl
             kvs vals); [assumption..|apply Hn].
Qed.

Lemma replace_marker rest new :
  strings.replace_go 0 (containerMarker +:+ rest) containerMarker new
  = new +:+ strings.replace_go 0 rest containerMarker new.
Proof. apply (replace_go_match dquote). Qed.

Lemma replace_blob ls :
  Forall wellFormed ls ->
  strings.ReplaceAll (blob ls) containerMarker (sentinel +:+ containerMarker)
  = adjusted ls.
Proof.
  intros H. unfold strings.ReplaceAll.
  change (String.eqb containerMarker (sentinel +:+ containerMarker)) with false.
  cbv iota.
  induction H as [|[js ws r] ls [Hjs Hws] _ IH]; [reflexivity|].
  cbn [text trailing source] in *. cbn [blob adjusted text trailing].
  destruct (encodesContainer_members js r Hjs)
    as (body & kvs & vals & -> & Hb & Hm & _ & _).
  rewrite <- !append_assoc, line_marker, !append_assoc.
  rewrite replace_marker.
  rewrite <- (append_assoc (quoted body)), <- append_assoc.
  rewrite replace_go_clear.
  - rewrite IH.
    rewrite <- (append_assoc (quoted (objectText _)) ws), line_marker.
    rewrite !append_assoc. reflexivity.
  - rewrite append_assoc.
    apply (line_clearOf body (cCommand r) kvs vals); try assumption.
    intros p. apply blob_head.
Qed.

(** ** The separator occurs where it was put only *)

Lemma HasPrefix_app_cases b Y p :
  strings.HasPrefix (b +:+ Y) p = true ->
  strings.HasPrefix b p = true \/ exists p', p = b +:+ p'.
Proof.
  revert b. induction p as [|d p IH]; intros b H; [by left|].
  destruct b as [|e b]; [right; by exists (String d p)|].
  rewrite append_cons, HasPrefix_cons in H.
  apply andb_true_iff in H as [He H]. apply Ascii.eqb_eq in He as ->.
  destruct (IH b H) as [Hb|[p' ->]].
  - left. by rewrite HasPrefix_cons, Ascii.eqb_refl.
  - right. by exists p'.
Qed.

Lemma Contains_suffix a b p :
  strings.HasPrefix b p = true -> strings.Contains (a +:+ b) p = true.
Proof.
  intros H. induction a as [|c a IH].
  - destruct b; simpl; by rewrite H.
  - rewrite append_cons. cbn [strings.Contains]. rewrite IH. apply orb_true_r.
Qed.

Lemma suffix_last x c a b :
  x +:+ String c "" = a +:+ b -> b <> "" -> exists b', b = b' +:+ String c "".
Proof.
  revert x. induction a as [|e a IH]; intros x E Hb.
  - exists x. symmetry. exact E.
  - destruct x as [|e' x].
    + injection E as _ E. destruct a; [|discriminate].
      simpl in E. congruence.
    + injection E as _ E. by apply (IH x).
Qed.

Lemma clearOf_not_contains p x c Y :
  strings.Contains (x +:+ String c "") p = false ->
  occurs c p = false ->
  clearOf p (x +:+ String c "") Y.
Proof.
  intros Hc Hp a b E Hb.
  destruct (strings.HasPrefix (b +:+ Y) p) eqn:H; [exfalso|reflexivity].
  apply HasPrefix_app_cases in H as [H|[p' ->]].
  - rewrite E, (Contains_suffix a b p H) in Hc. discriminate.
  - destruct (suffix_last x c a b E Hb) as [b' ->].
    rewrite !occurs_app in Hp. cbn [occurs] in Hp.
    rewrite Ascii.eqb_refl in Hp. simpl in Hp.
    by rewrite orb_true_r in Hp.
Qed.

Lemma closeObject_last kvs : exists x, closeObject kvs = x +:+ "}".
Proof.
  induction kvs as [|[k b] kvs [x IH]]; [by exists ""|].
  cbn [closeObject]. rewrite IH.
  exists ("," +:+ member k b +:+ x). by rewrite !append_assoc.
Qed.

Lemma objectText_last kvs : exists x, objectText kvs = x +:+ "}".
Proof.
  destruct kvs as [|[k b] kvs]; [by exists "{"|].
  cbn [objectText]. destruct (closeObject_last kvs) as [x ->].
  exists ("{" +:+ member k b +:+ x). by rewrite !append_assoc.
Qed.

Lemma split_separator rest :
  strings.split_go 0 (separator +:+ rest) separator
  = "" :: strings.split_go 0 rest separator.
Proof. apply (split_go_match "<"). Qed.

Lemma piece_clearOf l ls :
  wellFormed l -> noSeparator l ->
  clearOf separator (piece l) (adjusted ls).
Proof.
  intros [Hjs Hws] Hsep. unfold piece, noSeparator in *.
  destruct l as [js ws r]. cbn [text trailing source] in *.
  apply clearOf_app.
  - destruct Hjs as (bodies & _ & ->).
    destruct (objectText_last (zip containerKeys bodies)) as [x E].
    rewrite E in *. by apply clearOf_not_contains.
  - apply (clearOf_no_first "<"). cbn [occurs].
    by rewrite allSpace_no.
Qed.

Lemma split_adjusted ls :
  Forall wellFormed ls -> Forall noSeparator ls ->
  strings.Split (adjusted ls) separator = "" :: map piece ls.
Proof.
  unfold strings.Split. intros Hw Hs.
  induction Hw as [|l ls Hl _ IH]; [reflexivity|].
  apply Forall_cons_1 in Hs as [Hsl Hs].
  cbn [adjusted map].
  replace (sentinel +:+ quoted (text l) +:+ trailing l +:+ adjusted ls)
    with (separator +:+ piece l +:+ adjusted ls).
  - rewrite split_separator, split_go_clear by (by apply piece_clearOf).
    rewrite IH by done. cbn [prepend]. by rewrite append_nil_r.
  - unfold separator, piece, quoted, sentinel. cbn [String.append].
    rewrite !append_assoc. reflexivity.
Qed.

Lemma fragments_blob ls :
  Forall wellFormed ls -> Forall noSeparator ls ->
  fragments containerMarker (blob ls) = map piece ls.
Proof.
  intros Hw Hs. unfold fragments.
  by rewrite replace_blob, split_adjusted.
Qed.

Lemma parseContainer_piece l : wellFormed l -> parseContainer (piece l) = source l.
Proof.
  intros [Hjs Hws]. unfold parseContainer, trimmed, piece.
  destruct (encodesContainer_members _ _ Hjs)
    as (body & kvs & vals & E & _).
  rewrite E at 1. cbn [objectText]. rewrite append_cons.
  rewrite trim_piece by done. rewrite <- append_cons.
  change (String "{" "" +:+ member "Command" body +:+ closeObject kvs)
    with (objectText (("Command", body) :: kvs)).
  rewrite <- E. by rewrite (Unmarshal_container _ _ Hjs).
Qed.

(** ** Errors of a probe *)

(** C7: a probe returns an error exactly when its command fails, and then
    it returns that error with the registry as it was, the command being
    all that happened; when the command succeeds the probe returns nil
    whatever the output is, so that no record that fails to parse
    surfaces as an error. *)
Theorem probe_fails_iff_command_fails host a env w :
  let answer := host (commands w) (probeCmd a) in
  (forall e, (execute host a env w).1 = Returned (Some e) <-> answer.2 = Some e)
  /\ (forall e, answer.2 = Some e ->
        (execute host a env w).2 = ran (probeCmd a) w
        /\ heap (execute host a env w).2 = heap w)
  /\ (answer.2 = None -> is_Some (heap w !! probeMonitor a) ->
        (execute host a env w).1 = Returned None).
Proof.
  intros answer. subst answer. rewrite execute_spec. simpl.
  destruct (host (commands w) (probeCmd a)) as [out [err|]]; simpl.
  - repeat split; intros; simplify_eq; done.
  - destruct (heap w !! probeMonitor a) as [d|]; simpl.
    + repeat split; intros; simplify_eq; done.
    + repeat split; intros; simplify_eq; done.
Qed.

Lemma probe_fails_iff_command_fails_witness :
  (execute failingHost (CheckContainersStatus 0) "Dev" devUat).1
    = Returned (Some (ExecError "exec: docker: executable file not found"))
  /\ heap (execute failingHost (CheckContainersStatus 0) "Dev" devUat).2
     = heap devUat
  /\ (execute (constHost "garbage") (CheckContainersStatus 0) "Dev" devUat).1
     = Returned None.
Proof.
  split; [|split].
  - apply (probe_fails_iff_command_fails failingHost (CheckContainersStatus 0)
             "Dev" devUat). reflexivity.
  - apply (probe_fails_iff_command_fails failingHost (CheckContainersStatus 0)
             "Dev" devUat) with (e := ExecError "exec: docker: executable file not found").
    reflexivity.
  - apply (probe_fails_iff_command_fails (constHost "garbage")
             (CheckContainersStatus 0) "Dev" devUat).
    + reflexivity.
    + vm_compute. eauto.
Defined.

(** ** Which entries a probe writes *)

(** C5: when its command succeeds, a probe of any of the three kinds
    replaces every entry of its registry whose name is the target name by
    the same function of the entry and of the output, whatever the
    position of the entry and however many entries carry the name. *)
Theorem probe_updates_every_match host a env w d :
  heap w !! probeMonitor a = Some d ->
  (host (commands w) (probeCmd a)).2 = None ->
  let out := (host (commands w) (probeCmd a)).1 in
  exists d',
    heap (execute host a env w).2 !! probeMonitor a = Some d'
    /\ DockerEnvironments d'
       = map (onMatching env (probeAssign a out)) (DockerEnvironments d)
    /\ forall i e,
         DockerEnvironments d !! i = Some e -> Environment e = env ->
         DockerEnvironments d' !! i = Some (probeAssign a out e).
Proof.
  intros Hd Herr out. subst out. rewrite execute_spec. simpl.
  destruct (host (commands w) (probeCmd a)) as [out err]; simpl in *; subst err.
  rewrite Hd. simpl. eexists. split; [apply lookup_insert_eq|]. simpl.
  split; [reflexivity|].
  intros i e Hi He. rewrite list_lookup_fmap, Hi. simpl.
  unfold onMatching. rewrite He, String.eqb_refl. reflexivity.
Qed.

Lemma probe_updates_every_match_witness :
  exists d',
    heap (execute (constHost "Docker version 20.10.8") (CheckDockerVersion 0)
            "Dev" devTwice).2 !! 0 = Some d'
    /\ DockerVersion <$> DockerEnvironments d'
       = ["Docker version 20.10.8"; ""; "Docker version 20.10.8"].
Proof.
  destruct (probe_updates_every_match (constHost "Docker version 20.10.8")
              (CheckDockerVersion 0) "Dev" devTwice
              {| DockerEnvironments := map newDockerEnvironment ["Dev"; "UAT"; "Dev"] |}
              eq_refl eq_refl) as (d' & H1 & H2 & _).
  exists d'. split; [exact H1|]. rewrite H2. reflexivity.
Defined.

(** ** Which entries a probe leaves alone *)

(** C6: whatever a probe run against the name [A] does, an entry of any
    registry whose name is not [A] is afterwards what it was before, field
    for field. *)
Theorem probe_leaves_other_names host a A w l d i e :
  heap w !! l = Some d ->
  DockerEnvironments d !! i = Some e ->
  Environment e <> A ->
  exists d',
    heap (execute host a A w).2 !! l = Some d'
    /\ DockerEnvironments d' !! i = Some e.
Proof.
  intros Hd Hi Hne. rewrite execute_spec. simpl.
  destruct (host (commands w) (probeCmd a)) as [out [err|]]; simpl; [eauto|].
  destruct (heap w !! probeMonitor a) as [d0|] eqn:Hd0; simpl; [|eauto].
  destruct (decide (l = probeMonitor a)) as [->|Hl].
  - rewrite lookup_insert_eq. eexists. split; [reflexivity|]. simpl.
    assert (d0 = d) as -> by congruence.
    rewrite list_lookup_fmap, Hi. simpl. unfold onMatching.
    destruct (String.eqb_spec (Environment e) A); [contradiction|reflexivity].
  - rewrite lookup_insert_ne by done. eauto.
Qed.

Lemma probe_leaves_other_names_witness :
  exists d',
    heap (execute (constHost twoContainers) (CheckContainersStatus 0)
            "Dev" devUat).2 !! 0 = Some d'
    /\ DockerEnvironments d' !! 1 = Some (newDockerEnvironment "UAT").
Proof.
  apply (probe_leaves_other_names (constHost twoContainers)
           (CheckContainersStatus 0) "Dev" devUat 0
           {| DockerEnvironments := map newDockerEnvironment ["Dev"; "UAT"] |}
           1 (newDockerEnvironment "UAT")).
  - reflexivity.
  - reflexivity.
  - discriminate.
Defined.

(** The scenario of the specification: a registry for Dev and UAT, the
    container probe run against Dev on an output of two records, one
    exited and one running. *)
Lemma dev_uat_scenario :
  heap (execute (constHost twoContainers) (CheckContainersStatus 0)
          "Dev" devUat).2 !! 0
  = Some {| DockerEnvironments :=
              [ {| Environment := "Dev";
                   StoppedContainers := 1;
                   RunningContainers := 1;
                   DockerVersion := "";
                   TotalLocalDockerImages := 0;
                   ContainersInfo := map source twoLines;
                   ImagesInfo := [] |};
                {| Environment := "UAT";
                   StoppedContainers := 0;
                   RunningContainers := 0;
                   DockerVersion := "";
                   TotalLocalDockerImages := 0;
                   ContainersInfo := [];
                   ImagesInfo := [] |} ] |}.
Proof. vm_compute. reflexivity. Qed.

(** ** The first error ends a workflow *)

(** C4: when the probes [pre] of a workflow have returned nil and the
    command of the next probe [a] fails with [e], the workflow returns [e]
    at once: the world is the one that [pre] left, with the command of [a]
    added to the commands run, so that what [pre] wrote to the registry is
    still there and nothing of [post] has run; and the loop of [main] goes
    on with the workflows that follow a workflow that failed. *)
Theorem workflow_stops_at_first_error host name pre a post w w1 e :
  executeEach host name pre w = (Returned None, w1) ->
  (host (commands w1) (probeCmd a)).2 = Some e ->
  executeEach host name (pre ++ a :: post) w
    = (Returned (Some e), ran (probeCmd a) w1)
  /\ heap (executeEach host name (pre ++ a :: post) w).2 = heap w1
  /\ commands (executeEach host name (pre ++ a :: post) w).2
     = commands w1 ++ [probeCmd a]
  /\ forall index rest w0 w2,
       executeActions host {| Name := name; Actions := pre ++ a :: post |}
         (Println [PString "#"; PInt (Z.of_nat index); PString " Worklow - ";
                   PString name; PString ":"] w0).2
         = (Returned (Some e), w2) ->
       runWorkflows host index
         ({| Name := name; Actions := pre ++ a :: post |} :: rest) w0
       = runWorkflows host (S index) rest
           (Println [PString "Error occurred:"; PError e] w2).2.
Proof.
  intros Hpre Hfail.
  assert (E : executeEach host name (pre ++ a :: post) w
              = (Returned (Some e), ran (probeCmd a) w1)).
  { rewrite executeEach_app, Hpre. simpl. unfold bind.
    rewrite execute_spec. simpl.
    destruct (host (commands w1) (probeCmd a)) as [out err]; simpl in *.
    subst err. reflexivity. }
  rewrite E. repeat split.
  intros index rest w0 w2 Hrun. simpl. unfold bind at 1 2 3. simpl in *.
  rewrite Hrun. reflexivity.
Qed.

Lemma workflow_stops_at_first_error_witness :
  executeEach (noListingHost "Docker version 20.10.8") "Dev" (threeProbes 0) devUat
  = (Returned (Some (ExecError "exit status 1")),
     ran (probeCmd (CallContainersStatus 0))
       (execute (noListingHost "Docker version 20.10.8")
          (CallDockerVersion 0) "Dev" devUat).2).
Proof.
  apply (workflow_stops_at_first_error (noListingHost "Docker version 20.10.8")
           "Dev" [CallDockerVersion 0] (CallContainersStatus 0)
           [CallLocalImages 0] devUat).
  - reflexivity.
  - reflexivity.
Defined.

(** ** The construction of the registry *)

(** C8: [NewDockerMonitor] puts at a fresh place a registry with one
    entry per name, in the order of the names, each with the empty
    version, the three counts at 0 and the two sequences empty; and no run
    of workflows changes the names of a registry or their order, so that
    no entry is ever removed or added. *)
Theorem registry_construction envs w :
  (exists l,
     (NewDockerMonitor envs w).1 = Returned l
     /\ heap w !! l = None
     /\ heap (NewDockerMonitor envs w).2 !! l
        = Some {| DockerEnvironments :=
                    map (fun env =>
                           {| Environment := env;
                              StoppedContainers := 0;
                              RunningContainers := 0;
                              DockerVersion := "";
                              TotalLocalDockerImages := 0;
                              ContainersInfo := [];
                              ImagesInfo := [] |}) envs |})
  /\ forall host workflows index w' l,
       names <$> heap (runWorkflows host index workflows w').2 !! l
       = names <$> heap w' !! l.
Proof.
  split.
  - exists (fresh (dom (heap w))). split; [reflexivity|]. split.
    + apply not_elem_of_dom, is_fresh.
    + unfold NewDockerMonitor, new. simpl.
      rewrite lookup_insert_eq, newDockerEnvironments_map. reflexivity.
  - intros. apply runWorkflows_names.
Qed.

(** ** The last line of main *)

Lemma execute_returns host a env w :
  is_Some (heap w !! probeMonitor a) ->
  exists r, (execute host a env w).1 = Returned r.
Proof.
  intros [d Hd]. rewrite execute_spec. simpl.
  destruct (host (commands w) (probeCmd a)) as [out [err|]]; simpl; [eauto|].
  rewrite Hd. eauto.
Qed.

Lemma execute_is_Some host a env w l :
  is_Some (heap w !! l) -> is_Some (heap (execute host a env w).2 !! l).
Proof.
  intros H. apply fmap_is_Some with (f := names).
  rewrite execute_names. by apply fmap_is_Some.
Qed.

Lemma executeEach_returns host name l actions :
  Forall (fun a => probeMonitor a = l) actions ->
  forall w, is_Some (heap w !! l) ->
  exists r, (executeEach host name actions w).1 = Returned r.
Proof.
  induction 1 as [|a actions Ha _ IH]; intros w Hw; simpl; [eauto|].
  unfold bind.
  destruct (execute_returns host a name w) as [r Hr]; [by rewrite Ha|].
  pose proof (execute_is_Some host a name w l Hw) as Hw'.
  destruct (execute host a name w) as [o w1]; simpl in *; subst o.
  destruct r as [e|]; simpl; eauto.
Qed.

Lemma runWorkflows_returns host l workflows :
  Forall (fun wf => Forall (fun a => probeMonitor a = l) (Actions wf)) workflows ->
  forall index w, is_Some (heap w !! l) ->
  (runWorkflows host index workflows w).1 = Returned tt.
Proof.
  induction 1 as [|wf workflows Hwf _ IH]; intros index w Hw; simpl; [done|].
  unfold bind at 1 2 3, executeActions, bind. simpl.
  match goal with |- context [executeEach host ?n ?acts ?w'] =>
    destruct (executeEach_returns host n l acts Hwf w' Hw) as [r Hr];
    pose proof (executeEach_preserves host (fun w => is_Some (heap w !! l))
                  (fun a env w => execute_is_Some host a env w l) n acts w' Hw) as Hw1;
    destruct (executeEach host n acts w') as [o w1]
  end.
  simpl in *. subst o. destruct r as [e|]; simpl; apply IH; exact Hw1.
Qed.

Lemma main_unfold host :
  main host =
  (d <- NewDockerMonitor mainEnvs ;;
   runWorkflows host 0 (mainWorkflows d) ;;;
   m <- load d ;;
   e0 <- index (DockerEnvironments m) 0 ;;
   c0 <- index (ContainersInfo e0) 0 ;;
   Println [PString (cImage c0)]).
Proof. reflexivity. Qed.

(** C10: [main] ends by printing the image of the first container of the
    first environment, without a test.  After the two workflows the
    registry has its two entries; when the first has a container the line
    is printed, and when it has none the access is out of range and [main]
    panics, which happens on a host where the commands fail. *)
Theorem main_final_access :
  (forall host, exists d w e0 rest,
      NewDockerMonitor mainEnvs emptyWorld = (Returned d, (NewDockerMonitor mainEnvs emptyWorld).2)
      /\ runWorkflows host 0 (mainWorkflows d)
           (NewDockerMonitor mainEnvs emptyWorld).2 = (Returned tt, w)
      /\ heap w !! d = Some {| DockerEnvironments := e0 :: rest |}
      /\ main host emptyWorld
         = match ContainersInfo e0 with
           | c0 :: _ => Println [PString (cImage c0)] w
           | [] => (Panicked outOfRange, w)
           end)
  /\ exists host, (main host emptyWorld).1 = Panicked outOfRange.
Proof.
  split.
  - intros host.
    set (w0 := (NewDockerMonitor mainEnvs emptyWorld).2).
    set (d := fresh (dom (heap emptyWorld))).
    assert (Hd : heap w0 !! d
                 = Some {| DockerEnvironments := map newDockerEnvironment mainEnvs |})
      by reflexivity.
    assert (Hret : (runWorkflows host 0 (mainWorkflows d) w0).1 = Returned tt).
    { apply (runWorkflows_returns host d); [|by rewrite Hd].
      repeat constructor. }
    pose proof (runWorkflows_names host (mainWorkflows d) 0 w0 d) as Hn.
    rewrite Hd in Hn.
    destruct (runWorkflows host 0 (mainWorkflows d) w0) as [o w] eqn:Hrun.
    simpl in Hret, Hn. subst o.
    destruct (heap w !! d) as [[envs]|] eqn:Hw; [|discriminate].
    injection Hn as Hn. unfold names in Hn. simpl in Hn.
    destruct envs as [|e0 rest]; [discriminate|].
    exists d, w, e0, rest. split; [reflexivity|]. split; [exact Hrun|].
    split; [exact Hw|].
    rewrite main_unfold. unfold bind at 1.
    change (NewDockerMonitor mainEnvs emptyWorld) with (Returned d, w0).
    cbv beta iota. unfold bind at 1. rewrite Hrun.
    unfold bind, load. rewrite Hw. simpl.
    destruct (ContainersInfo e0); reflexivity.
  - exists failingHost. vm_compute. reflexivity.
Qed.

(** ** Running and stopped *)

(** C3: the container probe counts a record as stopped when its state is
    exactly exited, and as running otherwise, the empty state of a record
    that failed to parse included; each record adds one to one count and
    leaves the other as it is, so that the two counts are the number of
    records whose state is exited and the number of the others; and the
    probe writes the two counts and the records over those of every entry
    with the target name, whatever they were. *)
Theorem containers_classified_by_state out :
  (Z.of_nat (String.length out) <= MaxInt)%Z ->
  (forall index cont stopped running containerOutput,
      index <> 0 ->
      countContainer index cont (stopped, running, containerOutput) =
      if String.eqb (cState (parseContainer cont)) "exited"
      then (int_add stopped 1, running, containerOutput ++ [parseContainer cont])
      else (stopped, int_add running 1, containerOutput ++ [parseContainer cont]))
  /\ String.eqb (cState zero_ContainerInfo) "exited" = false
  /\ splitContainers out
     = (Z.of_nat (countIf exited (containerRecords out)),
        Z.of_nat (countIf (fun c => negb (exited c)) (containerRecords out)),
        containerRecords out)
  /\ forall host env w l d i e,
       heap w !! l = Some d ->
       host (commands w) (probeCmd (CheckContainersStatus l)) = (out, None) ->
       DockerEnvironments d !! i = Some e ->
       Environment e = env ->
       exists d',
         heap (execute host (CheckContainersStatus l) env w).2 !! l = Some d'
         /\ DockerEnvironments d' !! i
            = Some {| Environment := Environment e;
                      StoppedContainers :=
                        Z.of_nat (countIf exited (containerRecords out));
                      RunningContainers :=
                        Z.of_nat (countIf (fun c => negb (exited c))
                                    (containerRecords out));
                      DockerVersion := DockerVersion e;
                      TotalLocalDockerImages := TotalLocalDockerImages e;
                      ContainersInfo := containerRecords out;
                      ImagesInfo := ImagesInfo e |}.
Proof.
  intros Hb. split; [|split; [reflexivity|split]].
  - intros. by apply countContainer_step.
  - by apply splitContainers_spec.
  - intros host env w l d i e Hd Hhost Hi <-.
    rewrite execute_spec. simpl probeCmd. simpl in Hhost. rewrite Hhost. simpl.
    rewrite Hd. eexists. split; [apply lookup_insert_eq|]. simpl.
    rewrite list_lookup_fmap, Hi. simpl. unfold onMatching.
    rewrite String.eqb_refl. rewrite splitContainers_spec by done.
    reflexivity.
Qed.

Lemma containers_classified_by_state_witness :
  splitContainers twoContainers
  = (1%Z, 1%Z, containerRecords twoContainers).
Proof.
  apply (containers_classified_by_state twoContainers). vm_compute. discriminate.
Defined.

(** ** The counts and the sequences agree *)

Lemma probeAssign_consistent a out e :
  (Z.of_nat (String.length out) <= MaxInt)%Z ->
  consistent e -> consistent (probeAssign a out e).
Proof.
  intros Hb [H1 H2]. destruct a as [l|l|l]; simpl.
  - by split.
  - split; [|exact H2]. simpl. rewrite splitContainers_spec by done. simpl.
    rewrite <- Nat2Z.inj_add, countIf_split. reflexivity.
  - split; [exact H1|]. simpl. rewrite splitImages_spec by done. simpl.
    by rewrite length_map.
Qed.

(** C9: in every world that the construction of registries and the
    execution of probes lead to, on a host whose outputs have a length
    that an int holds, every entry of every registry has a stopped count
    and a running count that add up to the number of its container
    records, and an image count that is the number of its image records. *)
Theorem counts_match_sequences host w :
  boundedHost host ->
  reachable host w ->
  forall l d e,
    heap w !! l = Some d ->
    e ∈ DockerEnvironments d ->
    (StoppedContainers e + RunningContainers e)%Z
      = Z.of_nat (length (ContainersInfo e))
    /\ TotalLocalDockerImages e = Z.of_nat (length (ImagesInfo e)).
Proof.
  intros Hb Hr. change (forall l d e, heap w !! l = Some d ->
                          e ∈ DockerEnvironments d -> consistent e).
  induction Hr as [|envs w Hr IH|a env w Hr IH]; intros l d e Hd He.
  - simpl in Hd. by rewrite lookup_empty in Hd.
  - unfold NewDockerMonitor, new in Hd. simpl in Hd.
    destruct (decide (l = fresh (dom (heap w)))) as [->|Hne].
    + rewrite lookup_insert_eq in Hd. injection Hd as <-. simpl in He.
      rewrite newDockerEnvironments_map in He.
      apply list_elem_of_fmap in He as (name & -> & _). by split.
    + rewrite lookup_insert_ne in Hd by done. eauto.
  - rewrite execute_spec in Hd. simpl in Hd.
    pose proof (Hb (commands w) (probeCmd a)) as Hlen.
    destruct (host (commands w) (probeCmd a)) as [out [err|]]; simpl in *; [eauto|].
    destruct (heap w !! probeMonitor a) as [d0|] eqn:Hd0; simpl in *; [|eauto].
    destruct (decide (l = probeMonitor a)) as [->|Hne].
    + rewrite lookup_insert_eq in Hd. injection Hd as <-. simpl in He.
      apply list_elem_of_fmap in He as (e0 & -> & He0).
      unfold onMatching. specialize (IH _ _ _ Hd0 He0).
      destruct (String.eqb (Environment e0) env); [|exact IH].
      by apply probeAssign_consistent.
    + rewrite lookup_insert_ne in Hd by done. eauto.
Qed.

Lemma counts_match_sequences_witness :
  (1 + 1)%Z = Z.of_nat (length (containerRecords twoContainers))
  /\ 0%Z = Z.of_nat 0.
Proof.
  apply (counts_match_sequences (constHost twoContainers)
           (execute (constHost twoContainers) (CheckContainersStatus 0) "Dev"
              (NewDockerMonitor ["Dev"; "UAT"] emptyWorld).2).2)
    with (l := 0)
         (d := {| DockerEnvironments :=
                    [ {| Environment := "Dev";
                         StoppedContainers := 1;
                         RunningContainers := 1;
                         DockerVersion := "";
                         TotalLocalDockerImages := 0;
                         ContainersInfo := containerRecords twoContainers;
                         ImagesInfo := [] |};
                      newDockerEnvironment "UAT" ] |})
         (e := {| Environment := "Dev";
                  StoppedContainers := 1;
                  RunningContainers := 1;
                  DockerVersion := "";
                  TotalLocalDockerImages := 0;
                  ContainersInfo := containerRecords twoContainers;
                  ImagesInfo := [] |}).
  - intros history c. vm_compute. discriminate.
  - apply reachable_execute, reachable_new, reachable_empty.
  - vm_compute. reflexivity.
  - simpl. apply list_elem_of_here.
Defined.

(** ** The splitter on well-formed output *)

Ltac denotes :=
  vm_compute;
  repeat first
    [ apply Denotes_nil
    | apply Denotes_plain; [reflexivity|]
    | eapply Denotes_escape; [reflexivity|] ].

Lemma exampleLine_wellFormed commandBody command image labels state :
  Denotes commandBody command -> Denotes image image ->
  Denotes labels labels -> Denotes state state ->
  wellFormed (exampleLine commandBody command image labels state).
Proof.
  intros Hc Hi Hl Hs. split; [|reflexivity].
  exists [commandBody; ""; ""; image; labels; ""; ""; ""; ""; ""; ""; "";
          state; ""].
  split; [|reflexivity]. unfold containerFields. simpl.
  repeat (constructor; [first [assumption|apply Denotes_nil]|]). constructor.
Qed.

(** C1, as stated, fails: a well-formed record whose label ends with the
    sentinel is split in two where its text has the separator. *)
Lemma sentinel_in_record_splits_it :
  Forall wellFormed sentinelLines
  /\ length (containerRecords (blob sentinelLines)) = 2
  /\ ~ (forall ls, Forall wellFormed ls ->
          containerRecords (blob ls) = map source ls).
Proof.
  assert (W : Forall wellFormed sentinelLines).
  { repeat constructor; apply exampleLine_wellFormed; denotes. }
  split; [exact W|]. split; [vm_compute; reflexivity|].
  intros H. specialize (H sentinelLines W).
  apply (f_equal length) in H. vm_compute in H. discriminate H.
Qed.

(** C1, amended: for an output made of N well-formed records in quotes,
    each followed by white space or by nothing, and none with the
    separator (the sentinel and a quote) in its text, the splitter
    returns N records, in the order of the output, and each is the
    source record, field for field. *)
Theorem splitter_returns_the_records ls :
  Forall wellFormed ls ->
  Forall noSeparator ls ->
  containerRecords (blob ls) = map source ls
  /\ length (containerRecords (blob ls)) = length ls
  /\ forall i l, ls !! i = Some l ->
       containerRecords (blob ls) !! i = Some (source l).
Proof.
  intros Hw Hs.
  assert (E : containerRecords (blob ls) = map source ls).
  { rewrite containerRecords_spec, fragments_blob by done.
    rewrite map_map. apply map_ext_Forall.
    eapply Forall_impl; [exact Hw|]. intros l Hl. by apply parseContainer_piece. }
  rewrite E. split; [reflexivity|]. split; [apply length_map|].
  intros i l Hi. by rewrite list_lookup_fmap, Hi.
Qed.

Lemma splitter_returns_the_records_witness :
  containerRecords (blob twoLines)
  = [exampleRecord (sq "'nginx -g'") "nginx" "" "exited";
     exampleRecord (sq "'postgres'") "postgres" "maintainer=db" "running"].
Proof.
  apply (splitter_returns_the_records twoLines).
  - repeat constructor; apply exampleLine_wellFormed; denotes.
  - repeat constructor; vm_compute; reflexivity.
Defined.

(** ** The splitter on output that does not parse *)

Lemma saveError_not_syntax e :
  e <> Some json.SyntaxError -> json.saveError e <> Some json.SyntaxError.
Proof. destruct e as [[]|]; simpl; congruence. Qed.

Lemma mismatch_not_syntax {T} (f : option (string -> T -> T)) e :
  e <> Some json.SyntaxError -> json.mismatch f e <> Some json.SyntaxError.
Proof. destruct f; simpl; auto using saveError_not_syntax. Qed.

Lemma object_not_syntax {T} `{json.Struct T} ts :
  forall (at_ : json.place T) (v : T) e,
    e <> Some json.SyntaxError ->
    (json.object at_ ts v e).2 <> Some json.SyntaxError.
Proof.
  induction ts as [|t ts IH]; intros at_ v e He; [exact He|].
  destruct at_ as [|f|f|d|]; destruct t; cbn [json.object]; try exact He;
    try (apply IH; exact He).
  - apply IH. by apply mismatch_not_syntax.
  - apply IH. by apply mismatch_not_syntax.
  - destruct f as [set|]; [destruct (json.unquote raw)|]; by apply IH.
  - apply IH. destruct (json.isNull raw); [exact He|by apply mismatch_not_syntax].
  - destruct d as [|[|d]]; by apply IH.
  - destruct d as [|[|d]]; by apply IH.
Qed.

(** Unmarshal reports a syntax error exactly when the data is not valid. *)
Lemma Unmarshal_syntax_error {T} `{json.Struct T} data (v : T) :
  (json.Unmarshal data v).2 = Some json.SyntaxError
  <-> json.checkValid data = false.
Proof.
  unfold json.Unmarshal. destruct (json.checkValid data); [|done].
  split; [|discriminate]. intros E. exfalso. revert E.
  unfold json.value.
  destruct (json.lex 0 data) as [|[| | | | | |raw|raw] ts]; simpl; try discriminate.
  - by apply object_not_syntax.
  - destruct (json.isNull raw); discriminate.
Qed.

(** C2, as stated, fails: of a piece that is valid JSON but has a number
    where a string is due, Unmarshal returns an error and yet fills the
    fields that are strings, so that the record is not the zero value. *)
Lemma type_error_record_is_not_zero :
  fragments containerMarker numberOutput !! 0
    = Some (sq "{'Command':'nginx -g','Image':'nginx','State':5}"
            +:+ String dquote newline)
  /\ (json.Unmarshal (sq "{'Command':'nginx -g','Image':'nginx','State':5}")
        zero_ContainerInfo).2 = Some json.UnmarshalTypeError
  /\ containerRecords numberOutput !! 0
     = Some (exampleRecord "nginx -g" "nginx" "" "")
  /\ ~ (forall out i cont,
          fragments containerMarker out !! i = Some cont ->
          (json.Unmarshal (trimmed cont) zero_ContainerInfo).2 <> None ->
          containerRecords out !! i = Some zero_ContainerInfo).
Proof.
  split; [vm_compute; reflexivity|]. split; [vm_compute; reflexivity|].
  split; [vm_compute; reflexivity|].
  intros H.
  specialize (H numberOutput 0
                (sq "{'Command':'nginx -g','Image':'nginx','State':5}"
                 +:+ String dquote newline)).
  assert (E : containerRecords numberOutput !! 0 = Some zero_ContainerInfo).
  { apply H; vm_compute; [reflexivity|discriminate]. }
  vm_compute in E. discriminate E.
Qed.

(** C2, amended: the splitter returns one record for each piece of the
    output, in the order of the pieces, and the record of a piece depends
    on that piece alone; the record of a piece that is not valid JSON,
    which is when Unmarshal reports a syntax error, as for a piece cut
    short, is the zero value; so the three pieces of an output whose
    second record was cut short give the first record, the zero value
    and the third record. *)
Theorem invalid_piece_gives_zero_record out :
  length (containerRecords out) = length (fragments containerMarker out)
  /\ (forall i cont,
        fragments containerMarker out !! i = Some cont ->
        containerRecords out !! i
          = Some (json.Unmarshal (trimmed cont) zero_ContainerInfo).1
        /\ ((json.Unmarshal (trimmed cont) zero_ContainerInfo).2
              = Some json.SyntaxError ->
            containerRecords out !! i = Some zero_ContainerInfo)
        /\ (json.checkValid (trimmed cont) = false ->
            containerRecords out !! i = Some zero_ContainerInfo))
  /\ containerRecords truncatedOutput
     = [exampleRecord "nginx -g" "nginx" "" "exited";
        zero_ContainerInfo;
        exampleRecord "postgres" "postgres" "" "running"].
Proof.
  rewrite containerRecords_spec. split; [apply length_map|].
  split; [|vm_compute; reflexivity].
  intros i cont Hi.
  assert (E : map parseContainer (fragments containerMarker out) !! i
              = Some (json.Unmarshal (trimmed cont) zero_ContainerInfo).1)
    by (by rewrite list_lookup_fmap, Hi).
  rewrite E. split; [reflexivity|].
  assert (Z : json.checkValid (trimmed cont) = false ->
              Some (json.Unmarshal (trimmed cont) zero_ContainerInfo).1
              = Some zero_ContainerInfo).
  { intros Hv. unfold json.Unmarshal. by rewrite Hv. }
  split; [|exact Z].
  intros Hs. apply Z. by apply Unmarshal_syntax_error in Hs.
Qed.

Lemma invalid_piece_gives_zero_record_witness :
  containerRecords truncatedOutput !! 1 = Some zero_ContainerInfo.
Proof.
  destruct (invalid_piece_gives_zero_record truncatedOutput) as (_ & H & _).
  apply (H 1 (sq "{'Command':'redis-server','Ima" +:+ newline)).
  - vm_compute. reflexivity.
  - vm_compute. reflexivity.
Defined.

(** * More of the program *)

(** ** TrimSuffix *)

Lemma slice_to_from s n : strings.slice_to s n +:+ strings.slice_from s n = s.
Proof.
  revert n. induction s as [|c s IH]; intros [|n]; simpl; try reflexivity.
  by rewrite IH.
Qed.

Lemma HasSuffix_app x suffix : strings.HasSuffix (x +:+ suffix) suffix = true.
Proof.
  unfold strings.HasSuffix. rewrite length_append.
  replace (String.length x + String.length suffix - String.length suffix)
    with (String.length x) by lia.
  rewrite slice_from_app, String.eqb_refl, andb_true_r.
  apply Nat.leb_le. lia.
Qed.

Lemma HasSuffix_split s suffix :
  strings.HasSuffix s suffix = true ->
  s = strings.slice_to s (String.length s - String.length suffix) +:+ suffix.
Proof.
  unfold strings.HasSuffix. intros H. apply andb_true_iff in H as [_ H].
  set (n := String.length s - String.length suffix) in *.
  apply String.eqb_eq in H. rewrite <- H. symmetry. apply slice_to_from.
Qed.

Lemma append_inv_r x y suffix : x +:+ suffix = y +:+ suffix -> x = y.
Proof.
  revert y. induction x as [|c x IH]; intros [|d y] E; simpl in E.
  - reflexivity.
  - apply (f_equal String.length) in E. simpl in E.
    rewrite length_append in E. lia.
  - apply (f_equal String.length) in E. simpl in E.
    rewrite length_append in E. lia.
  - injection E as -> E. f_equal. by apply IH.
Qed.

(** X1: [TrimSuffix] takes one occurrence of the suffix off the end of a
    string that ends with it, and no more than one; a string that does
    not end with the suffix is returned as it is. *)
Theorem TrimSuffix_removes_one_suffix s suffix :
  (forall x, s = x +:+ suffix -> TrimSuffix s suffix = x)
  /\ (strings.HasSuffix s suffix = true -> TrimSuffix s suffix +:+ suffix = s)
  /\ (strings.HasSuffix s suffix = false ->
      TrimSuffix s suffix = s /\ forall x, s <> x +:+ suffix).
Proof.
  split; [|split].
  - intros x ->. unfold TrimSuffix. rewrite HasSuffix_app, length_append.
    replace (String.length x + String.length suffix - String.length suffix)
      with (String.length x) by lia.
    apply slice_to_app.
  - intros H. unfold TrimSuffix. rewrite H. symmetry. by apply HasSuffix_split.
  - intros H. unfold TrimSuffix. rewrite H. split; [reflexivity|].
    intros x ->. by rewrite HasSuffix_app in H.
Qed.

Lemma TrimSuffix_removes_one_suffix_witness :
  TrimSuffix (sq "{}''") (sq "'") = sq "{}'"
  /\ TrimSuffix "{} " (sq "'") = "{} ".
Proof.
  split.
  - apply (TrimSuffix_removes_one_suffix (sq "{}''") (sq "'")). reflexivity.
  - apply (TrimSuffix_removes_one_suffix "{} " (sq "'")). reflexivity.
Defined.

(** ** What one probe does to the world *)

Lemma heap_execute host a env w :
  heap (execute host a env w).2 =
  match (host (commands w) (probeCmd a)).2, heap w !! probeMonitor a with
  | None, Some d =>
    <[probeMonitor a :=
        updateMatching env (probeAssign a (host (commands w) (probeCmd a)).1) d]>
      (heap w)
  | _, _ => heap w
  end.
Proof.
  rewrite execute_spec. simpl.
  destruct (host (commands w) (probeCmd a)) as [out [err|]]; simpl; [done|].
  destruct (heap w !! probeMonitor a) as [d|]; simpl; [|done].
  by rewrite updateMatching_spec.
Qed.

Lemma commands_execute host a env w :
  commands (execute host a env w).2 = commands w ++ [probeCmd a].
Proof.
  rewrite execute_spec. simpl.
  destruct (host (commands w) (probeCmd a)) as [out [err|]]; simpl; [done|].
  by destruct (heap w !! probeMonitor a).
Qed.

Lemma onMatching_other env assign e :
  Environment e <> env -> onMatching env assign e = e.
Proof.
  intros H. unfold onMatching.
  by destruct (String.eqb_spec (Environment e) env).
Qed.

Lemma updateMatching_unknown env assign d :
  env ∉ names d -> updateMatching env assign d = d.
Proof.
  rewrite updateMatching_spec. destruct d as [envs]. unfold names. simpl.
  intros H. f_equal. induction envs as [|e envs IH]; [reflexivity|].
  simpl in *. apply not_elem_of_cons in H as [He H].
  rewrite onMatching_other by congruence. by rewrite IH.
Qed.

(** X2: a probe run against a name that its registry does not have
    reports no error: when its command succeeds it returns nil, prints
    its line and leaves every registry as it was. *)
Theorem probe_of_unknown_name host a env w d :
  heap w !! probeMonitor a = Some d ->
  env ∉ names d ->
  (host (commands w) (probeCmd a)).2 = None ->
  (execute host a env w).1 = Returned None
  /\ heap (execute host a env w).2 = heap w
  /\ console (execute host a env w).2
     = console w ++ [probeReport a (host (commands w) (probeCmd a)).1].
Proof.
  intros Hd Henv Hok. rewrite heap_execute, execute_spec. simpl.
  rewrite Hok, Hd. simpl. split; [reflexivity|]. split; [|reflexivity].
  rewrite updateMatching_unknown by done. by apply insert_id.
Qed.

Lemma probe_of_unknown_name_witness :
  (execute (constHost twoContainers) (CheckContainersStatus 0) "Prod" devUat).1
    = Returned None
  /\ heap (execute (constHost twoContainers) (CheckContainersStatus 0) "Prod"
             devUat).2 = heap devUat.
Proof.
  destruct (probe_of_unknown_name (constHost twoContainers)
              (CheckContainersStatus 0) "Prod" devUat
              {| DockerEnvironments := map newDockerEnvironment ["Dev"; "UAT"] |})
    as (H1 & H2 & _).
  - reflexivity.
  - unfold names. simpl.
    repeat (apply not_elem_of_cons; split; [discriminate|]).
    apply not_elem_of_nil.
  - reflexivity.
  - split; assumption.
Defined.

(** X3: whatever the host answers, a probe runs its command once and no
    other command, writes to no monitor but the one it points to, creates
    and removes no monitor, and prints its line or nothing. *)
Theorem probe_frame host a env w :
  commands (execute host a env w).2 = commands w ++ [probeCmd a]
  /\ (forall l, l <> probeMonitor a ->
        heap (execute host a env w).2 !! l = heap w !! l)
  /\ dom (heap (execute host a env w).2) = dom (heap w)
  /\ (console (execute host a env w).2 = console w
      \/ console (execute host a env w).2
         = console w ++ [probeReport a (host (commands w) (probeCmd a)).1]).
Proof.
  split; [apply commands_execute|].
  rewrite heap_execute, execute_spec. simpl.
  destruct (host (commands w) (probeCmd a)) as [out [err|]]; simpl; [by auto|].
  destruct (heap w !! probeMonitor a) as [d|] eqn:Hd; simpl; [|by auto].
  split; [|split; [|by right]].
  - intros l Hl. by rewrite lookup_insert_ne.
  - rewrite dom_insert_L. apply subseteq_union_1_L, singleton_subseteq_l.
    by apply elem_of_dom_2 in Hd.
Qed.

(** ** Probes one after the other *)

Lemma probeAssign_again a out1 out2 e :
  probeAssign a out2 (probeAssign a out1 e) = probeAssign a out2 e.
Proof. by destruct a, e. Qed.

Lemma onMatching_again env a out1 out2 e :
  onMatching env (probeAssign a out2) (onMatching env (probeAssign a out1) e)
  = onMatching env (probeAssign a out2) e.
Proof.
  unfold onMatching at 2 3.
  destruct (String.eqb (Environment e) env) eqn:E; [|by unfold onMatching; rewrite E].
  unfold onMatching. rewrite probeAssign_Environment, E.
  apply probeAssign_again.
Qed.

(** X4: a probe run a second time against the same name writes over what
    its first run wrote: the registry is then what the second run alone
    would have made of the registry from before the first, so that
    counts and records of two runs never add up. *)
Theorem probe_again_overwrites host a env w d out1 out2 :
  heap w !! probeMonitor a = Some d ->
  host (commands w) (probeCmd a) = (out1, None) ->
  host (commands w ++ [probeCmd a]) (probeCmd a) = (out2, None) ->
  heap (execute host a env (execute host a env w).2).2
  = <[probeMonitor a := updateMatching env (probeAssign a out2) d]> (heap w).
Proof.
  intros Hd H1 H2.
  rewrite heap_execute, commands_execute, H2. simpl.
  rewrite heap_execute, H1, Hd. simpl.
  rewrite lookup_insert_eq, insert_insert_eq. f_equal.
  rewrite !updateMatching_spec. simpl. f_equal.
  rewrite map_map. apply map_ext. intros e. apply onMatching_again.
Qed.

Lemma probe_again_overwrites_witness :
  heap (execute (constHost twoContainers) (CheckContainersStatus 0) "Dev"
          (execute (constHost twoContainers) (CheckContainersStatus 0) "Dev"
             devUat).2).2
  = <[0 := updateMatching "Dev"
             (probeAssign (CheckContainersStatus 0) twoContainers)
             {| DockerEnvironments := map newDockerEnvironment ["Dev"; "UAT"] |}]>
      (heap devUat).
Proof.
  apply (probe_again_overwrites (constHost twoContainers)
           (CheckContainersStatus 0) "Dev" devUat
           {| DockerEnvironments := map newDockerEnvironment ["Dev"; "UAT"] |}
           twoContainers twoContainers); reflexivity.
Defined.

Lemma probeAssign_commute a b outA outB e :
  probeCmd a <> probeCmd b ->
  probeAssign a outA (probeAssign b outB e)
  = probeAssign b outB (probeAssign a outA e).
Proof. intros H. destruct a, b, e; try reflexivity; by destruct H. Qed.

Lemma onMatching_commute a b envA envB outA outB e :
  probeCmd a <> probeCmd b \/ envA <> envB ->
  onMatching envA (probeAssign a outA) (onMatching envB (probeAssign b outB) e)
  = onMatching envB (probeAssign b outB) (onMatching envA (probeAssign a outA) e).
Proof.
  intros H. unfold onMatching at 2 4.
  destruct (String.eqb_spec (Environment e) envA) as [EA|EA],
           (String.eqb_spec (Environment e) envB) as [EB|EB];
    unfold onMatching; rewrite ?probeAssign_Environment.
  - destruct H as [H|H]; [|congruence].
    rewrite <- EA, <- EB, String.eqb_refl. by apply probeAssign_commute.
  - rewrite <- EA, String.eqb_refl.
    by destruct (String.eqb_spec (Environment e) envB).
  - rewrite <- EB, String.eqb_refl.
    by destruct (String.eqb_spec (Environment e) envA).
  - destruct (String.eqb_spec (Environment e) envA),
             (String.eqb_spec (Environment e) envB); congruence.
Qed.

Lemma updateMatching_commute a b envA envB outA outB d :
  probeCmd a <> probeCmd b \/ envA <> envB ->
  updateMatching envA (probeAssign a outA)
    (updateMatching envB (probeAssign b outB) d)
  = updateMatching envB (probeAssign b outB)
      (updateMatching envA (probeAssign a outA) d).
Proof.
  intros H. rewrite !updateMatching_spec. simpl. f_equal.
  rewrite !map_map. apply map_ext. intros e. by apply onMatching_commute.
Qed.



(** ** Two monitors *)

(** X6: [NewDockerMonitor] returns a place that no monitor built before
    it has, and leaves those monitors as they are; and no probe that
    points to the new monitor writes to an older one. *)
Theorem monitors_are_separate envs w l d :
  heap w !! l = Some d ->
  exists l',
    (NewDockerMonitor envs w).1 = Returned l'
    /\ l' <> l
    /\ heap (NewDockerMonitor envs w).2 !! l = Some d
    /\ forall host a env,
         probeMonitor a = l' ->
         heap (execute host a env (NewDockerMonitor envs w).2).2 !! l = Some d.
Proof.
  intros Hd. exists (fresh (dom (heap w))).
  assert (Hne : fresh (dom (heap w)) <> l).
  { intros E. apply elem_of_dom_2 in Hd. rewrite <- E in Hd.
    by apply is_fresh in Hd. }
  assert (Hl : heap (NewDockerMonitor envs w).2 !! l = Some d).
  { unfold NewDockerMonitor, new. simpl. by rewrite lookup_insert_ne. }
  split; [reflexivity|]. split; [exact Hne|]. split; [exact Hl|].
  intros host a env Ha. rewrite heap_execute.
  destruct (host _ _).2; [exact Hl|].
  destruct (heap (NewDockerMonitor envs w).2 !! probeMonitor a); [|exact Hl].
  rewrite lookup_insert_ne by congruence. exact Hl.
Qed.

Lemma monitors_are_separate_witness :
  heap (execute (constHost twoContainers) (CheckContainersStatus 1) "Dev"
          (NewDockerMonitor ["Dev"] devUat).2).2 !! 0
  = Some {| DockerEnvironments := map newDockerEnvironment ["Dev"; "UAT"] |}.
Proof.
  destruct (monitors_are_separate ["Dev"] devUat 0
              {| DockerEnvironments := map newDockerEnvironment ["Dev"; "UAT"] |}
              eq_refl) as (l' & Hl' & _ & _ & H).
  apply H. injection Hl' as <-. reflexivity.
Defined.

(** ** What a workflow runs *)

Lemma executeEach_cons host name a rest w :
  executeEach host name (a :: rest) w =
  match execute host a name w with
  | (Returned None, w1) => executeEach host name rest w1
  | (Returned (Some e), w1) => (Returned (Some e), w1)
  | (Panicked msg, w1) => (Panicked msg, w1)
  end.
Proof.
  cbn [executeEach]. unfold bind.
  by destruct (execute host a name w) as [[[e|]|msg] w1].
Qed.

Lemma execute_ok host a env w d out :
  heap w !! probeMonitor a = Some d ->
  host (commands w) (probeCmd a) = (out, None) ->
  execute host a env w
  = (Returned None,
     {| heap := <[probeMonitor a := updateMatching env (probeAssign a out) d]>
                  (heap w);
        commands := commands w ++ [probeCmd a];
        console := console w ++ [probeReport a out] |}).
Proof.
  intros Hd Hh. rewrite execute_spec, Hh. simpl. rewrite Hd.
  by rewrite updateMatching_spec.
Qed.

Lemma execute_err host a env w out e :
  host (commands w) (probeCmd a) = (out, Some e) ->
  execute host a env w = (Returned (Some e), ran (probeCmd a) w).
Proof. intros Hh. by rewrite execute_spec, Hh. Qed.

(** X7: a workflow runs the commands of its probes in their order,
    starting with the first and leaving none out before the one it stops
    at, and runs nothing else; when it returns nil it has run them all. *)
Theorem workflow_commands_in_order host name actions w :
  exists k,
    k <= length actions
    /\ commands (executeEach host name actions w).2
       = commands w ++ map probeCmd (take k actions)
    /\ ((executeEach host name actions w).1 = Returned None ->
        k = length actions).
Proof.
  revert w. induction actions as [|a actions IH]; intros w.
  - exists 0. simpl. by rewrite app_nil_r.
  - rewrite executeEach_cons.
    pose proof (commands_execute host a name w) as Hc.
    destruct (execute host a name w) as [[[e|]|msg] w1]; simpl in Hc.
    + exists 1. simpl. split; [lia|]. split; [exact Hc|done].
    + destruct (IH w1) as (k & Hk & Hcs & Hnil). exists (S k). simpl.
      split; [lia|]. split; [|by intros ->%Hnil].
      by rewrite Hcs, Hc, <- app_assoc.
    + exists 1. simpl. split; [lia|]. split; [exact Hc|done].
Qed.

(** X8: a workflow whose probes point to monitors returns nil exactly
    when the command of every probe succeeds, each asked after the
    commands of the probes before it; it has then run every command and
    printed one line for each probe. *)
Theorem workflow_succeeds_iff host name actions w :
  Forall (fun a => is_Some (heap w !! probeMonitor a)) actions ->
  ((executeEach host name actions w).1 = Returned None
   <-> allSucceed host (commands w) actions)
  /\ (allSucceed host (commands w) actions ->
      commands (executeEach host name actions w).2
        = commands w ++ map probeCmd actions
      /\ length (console (executeEach host name actions w).2)
         = length (console w) + length actions).
Proof.
  revert w. induction actions as [|a actions IH]; intros w Hlive.
  - simpl. rewrite app_nil_r. split; [done|]. intros _. split; [done|lia].
  - apply Forall_cons_1 in Hlive as [[d Hd] Hlive].
    rewrite executeEach_cons. cbn [allSucceed].
    destruct (host (commands w) (probeCmd a)) as [out [err|]] eqn:Hh.
    + rewrite (execute_err host a name w out err Hh). simpl.
      split; [split; [discriminate|by intros [? _]]|by intros [? _]].
    + rewrite (execute_ok host a name w d out Hd Hh).
      match goal with |- context [executeEach host name actions ?w1] =>
        destruct (IH w1) as [IH1 IH2] end.
      { eapply Forall_impl; [exact Hlive|]. intros b [db Hb]. simpl.
        destruct (decide (probeMonitor b = probeMonitor a)) as [->|Hne].
        - rewrite lookup_insert_eq. eauto.
        - rewrite lookup_insert_ne by done. eauto. }
      simpl in *. split.
      * rewrite IH1. split; [by intros ?|by intros [_ ?]].
      * intros [_ Hall]. destruct (IH2 Hall) as [-> ->].
        rewrite <- app_assoc, length_app. simpl. split; [done|lia].
Qed.

Lemma workflow_succeeds_iff_witness :
  (executeEach (listingHost "Docker version 20.10.8" twoContainers "") "Dev"
     (threeProbes 0) devUat).1 = Returned None
  /\ commands
       (executeEach (listingHost "Docker version 20.10.8" twoContainers "")
          "Dev" (threeProbes 0) devUat).2
     = map probeCmd (threeProbes 0).
Proof.
  assert (L : Forall (fun a => is_Some (heap devUat !! probeMonitor a))
                (threeProbes 0)).
  { repeat constructor; by eexists. }
  assert (S : allSucceed (listingHost "Docker version 20.10.8" twoContainers "")
                (commands devUat) (threeProbes 0)).
  { simpl. auto. }
  destruct (workflow_succeeds_iff
              (listingHost "Docker version 20.10.8" twoContainers "")
              "Dev" (threeProbes 0) devUat L) as [H1 H2].
  split; [by apply H1|]. by apply H2.
Defined.

(** ** A whole workflow *)

(** X9: when the three commands succeed, the workflow of the three
    probes returns nil and leaves, in every entry of its registry with
    the name of the workflow, the version as the first command printed
    it, the two counts and the records of the second, and the count and
    the records of the third, the name being as it was; it has run the
    three commands and printed its heading and one line for each. *)
Theorem workflow_fills_every_field host env l w d version listing images :
  heap w !! l = Some d ->
  host (commands w) (probeCmd (CallDockerVersion l)) = (version, None) ->
  host (commands w ++ [probeCmd (CallDockerVersion l)])
       (probeCmd (CallContainersStatus l)) = (listing, None) ->
  host (commands w ++ [probeCmd (CallDockerVersion l);
                       probeCmd (CallContainersStatus l)])
       (probeCmd (CallLocalImages l)) = (images, None) ->
  executeActions host {| Name := env; Actions := threeProbes l |} w
  = (Returned None,
     {| heap :=
          <[l := updateMatching env
                   (fun e =>
                      {| Environment := Environment e;
                         StoppedContainers := (splitContainers listing).1.1;
                         RunningContainers := (splitContainers listing).1.2;
                         DockerVersion := version;
                         TotalLocalDockerImages := (splitImages images).1;
                         ContainersInfo := (splitContainers listing).2;
                         ImagesInfo := (splitImages images).2 |}) d]> (heap w);
        commands := commands w ++ map probeCmd (threeProbes l);
        console :=
          console w
          ++ [[PString "Executing workflow - "; PString env];
              [PString "Output:"; PString version];
              [PString "Stopped Containers:"; PInt (splitContainers listing).1.1;
               PString "Running Containers:"; PInt (splitContainers listing).1.2];
              [PString "Total local images:"; PInt (splitImages images).1]] |}).
Proof.
  intros Hd H1 H2 H3.
  unfold executeActions, bind, Println, threeProbes. cbn [Name Actions].
  rewrite executeEach_cons.
  erewrite (execute_ok host (CallDockerVersion l) env _ d version);
    [|exact Hd|exact H1].
  rewrite executeEach_cons.
  erewrite (execute_ok host (CallContainersStatus l) env _ _ listing);
    [|apply lookup_insert_eq|exact H2].
  rewrite executeEach_cons.
  erewrite (execute_ok host (CallLocalImages l) env _ _ images);
    [|apply lookup_insert_eq|cbn [commands]; rewrite <- app_assoc; exact H3].
  cbn [executeEach ret heap commands console probeMonitor CallDockerVersion
       CallContainersStatus CallLocalImages].
  rewrite !insert_insert_eq, <- !app_assoc. f_equal. f_equal.
  f_equal. rewrite !updateMatching_spec. cbn [DockerEnvironments]. f_equal.
  rewrite !map_map. apply map_ext. intros e. unfold onMatching.
  destruct (String.eqb (Environment e) env) eqn:E;
    repeat (rewrite ?probeAssign_Environment, ?E); [by destruct e|reflexivity].
Qed.

Lemma workflow_fills_every_field_witness :
  (executeActions (listingHost "Docker version 20.10.8" twoContainers "")
     {| Name := "Dev"; Actions := threeProbes 0 |} devUat).1 = Returned None.
Proof.
  rewrite (workflow_fills_every_field
             (listingHost "Docker version 20.10.8" twoContainers "")
             "Dev" 0 devUat
             {| DockerEnvironments := map newDockerEnvironment ["Dev"; "UAT"] |}
             "Docker version 20.10.8" twoContainers ""
             eq_refl eq_refl eq_refl eq_refl).
  reflexivity.
Defined.

(** ** The run of main *)

Lemma execute_cases host a env w i e :
  entryAt w (probeMonitor a) i = Some e ->
  match host (commands w) (probeCmd a) with
  | (out, Some err) =>
    execute host a env w = (Returned (Some err), ran (probeCmd a) w)
  | (out, None) =>
    exists w1,
      execute host a env w = (Returned None, w1)
      /\ commands w1 = commands w ++ [probeCmd a]
      /\ entryAt w1 (probeMonitor a) i
         = Some (onMatching env (probeAssign a out) e)
  end.
Proof.
  unfold entryAt. intros He.
  destruct (heap w !! probeMonitor a) as [d|] eqn:Hd; [|discriminate].
  simpl in He.
  destruct (host (commands w) (probeCmd a)) as [out [err|]] eqn:Hh.
  - by apply (execute_err host a env w out).
  - eexists. split; [by apply (execute_ok host a env w d out)|].
    split; [reflexivity|]. cbn [heap].
    rewrite lookup_insert_eq, updateMatching_spec. simpl.
    by rewrite list_lookup_fmap, He.
Qed.

Lemma execute_entryAt_other host a env w l i e :
  Environment e <> env ->
  entryAt w l i = Some e ->
  entryAt (execute host a env w).2 l i = Some e.
Proof.
  intros Hne He. unfold entryAt in *. rewrite heap_execute.
  destruct (host (commands w) (probeCmd a)).2; [exact He|].
  destruct (heap w !! probeMonitor a) as [d|] eqn:Hd; [|exact He].
  destruct (decide (l = probeMonitor a)) as [->|Hl].
  - rewrite lookup_insert_eq, updateMatching_spec. rewrite Hd in He.
    simpl in *.
    rewrite list_lookup_fmap, He. simpl. by rewrite onMatching_other.
  - by rewrite lookup_insert_ne.
Qed.

Lemma executeEach_entryAt_other host name actions l i e :
  Environment e <> name ->
  forall w, entryAt w l i = Some e ->
  entryAt (executeEach host name actions w).2 l i = Some e.
Proof.
  intros Hne. induction actions as [|a actions IH]; intros w He; [exact He|].
  rewrite executeEach_cons.
  pose proof (execute_entryAt_other host a name w l i e Hne He) as H1.
  destruct (execute host a name w) as [[[err|]|msg] w1]; simpl in *; auto.
Qed.

Lemma runWorkflows_cons host index wf rest w :
  runWorkflows host index (wf :: rest) w =
  match executeEach host (Name wf) (Actions wf)
          (Println [PString "Executing workflow - "; PString (Name wf)]
             (Println [PString "#"; PInt (Z.of_nat index);
                       PString " Worklow - "; PString (Name wf);
                       PString ":"] w).2).2 with
  | (Returned None, w1) => runWorkflows host (S index) rest w1
  | (Returned (Some e), w1) =>
    runWorkflows host (S index) rest
      (Println [PString "Error occurred:"; PError e] w1).2
  | (Panicked msg, w1) => (Panicked msg, w1)
  end.
Proof.
  cbn [runWorkflows]. unfold bind at 1 2 3, executeActions, bind. simpl.
  by destruct (executeEach host (Name wf) (Actions wf) _) as [[[e|]|msg] w1].
Qed.

Lemma runWorkflows_entryAt_other host l i e workflows :
  Forall (fun wf => Environment e <> Name wf) workflows ->
  forall index w, entryAt w l i = Some e ->
  entryAt (runWorkflows host index workflows w).2 l i = Some e.
Proof.
  induction 1 as [|wf workflows Hwf _ IH]; intros index w He; [exact He|].
  rewrite runWorkflows_cons.
  match goal with |- context [executeEach host ?n ?acts ?w'] =>
    pose proof (executeEach_entryAt_other host n acts l i e Hwf w' He) as H1;
    destruct (executeEach host n acts w') as [[[err|]|msg] w1]
  end; simpl in *; auto.
Qed.

(** The container records of an entry after the three probes have been
    run against its name. *)
Lemma threeProbes_containers host l i e w :
  entryAt w l i = Some e ->
  exists e',
    entryAt (executeEach host (Environment e) (threeProbes l) w).2 l i = Some e'
    /\ Environment e' = Environment e
    /\ ContainersInfo e'
       = match host (commands w) (probeCmd (CallDockerVersion l)),
               host (commands w ++ [probeCmd (CallDockerVersion l)])
                    (probeCmd (CallContainersStatus l)) with
         | (_, None), (listing, None) => containerRecords listing
         | _, _ => ContainersInfo e
         end.
Proof.
  intros He. unfold threeProbes. rewrite executeEach_cons.
  pose proof (execute_cases host (CallDockerVersion l) (Environment e) w i e He)
    as H1.
  destruct (host (commands w) (probeCmd (CallDockerVersion l)))
    as [version [err|]].
  { rewrite H1. exists e. split; [exact He|]. split; [reflexivity|].
    simpl. repeat case_match; reflexivity. }
  destruct H1 as (w1 & -> & Hc1 & He1).
  unfold onMatching in He1. rewrite String.eqb_refl in He1.
  rewrite executeEach_cons.
  pose proof (execute_cases host (CallContainersStatus l) (Environment e) w1 i
                _ He1) as H2.
  rewrite Hc1 in H2.
  destruct (host (commands w ++ [probeCmd (CallDockerVersion l)])
              (probeCmd (CallContainersStatus l))) as [listing [err|]].
  { rewrite H2. eexists. split; [exact He1|]. by split. }
  destruct H2 as (w2 & -> & Hc2 & He2).
  unfold onMatching in He2. rewrite String.eqb_refl in He2.
  rewrite executeEach_cons.
  pose proof (execute_cases host (CallLocalImages l) (Environment e) w2 i
                _ He2) as H3.
  destruct (host (commands w2) (probeCmd (CallLocalImages l)))
    as [images [err|]].
  { rewrite H3. eexists. split; [exact He2|]. by split. }
  destruct H3 as (w3 & -> & _ & He3).
  unfold onMatching in He3. rewrite String.eqb_refl in He3.
  eexists. split; [exact He3|]. by split.
Qed.

Lemma main_after_workflows host w e0 :
  runWorkflows host 0 (mainWorkflows 0) (NewDockerMonitor mainEnvs emptyWorld).2
    = (Returned tt, w) ->
  entryAt w 0 0 = Some e0 ->
  main host emptyWorld
  = match ContainersInfo e0 with
    | c0 :: _ => Println [PString (cImage c0)] w
    | [] => (Panicked outOfRange, w)
    end.
Proof.
  intros Hrun He. rewrite main_unfold. unfold bind at 1.
  change (NewDockerMonitor mainEnvs emptyWorld)
    with (Returned 0, (NewDockerMonitor mainEnvs emptyWorld).2).
  cbv beta iota. unfold bind at 1. rewrite Hrun.
  unfold entryAt in He. apply bind_Some in He as (d & Hd & He).
  unfold bind, load. rewrite Hd.
  unfold index. rewrite He. simpl.
  destruct (ContainersInfo e0); reflexivity.
Qed.

(** X10: [main] ends well exactly when, in the first workflow, the
    command of the version and then the listing of the containers
    succeed and the listing gives at least one record; its last line is
    then the image of the first of these records.  In every other case
    it panics at its last line, whatever the second workflow and the
    listings of the images gave. *)
Theorem main_prints_or_panics host :
  let version := host [] (probeCmd (CallDockerVersion 0)) in
  let listing :=
    host [probeCmd (CallDockerVersion 0)] (probeCmd (CallContainersStatus 0)) in
  match version.2, listing.2, containerRecords listing.1 with
  | None, None, c0 :: _ =>
    (main host emptyWorld).1 = Returned tt
    /\ last (console (main host emptyWorld).2) = Some [PString (cImage c0)]
  | _, _, _ => (main host emptyWorld).1 = Panicked outOfRange
  end.
Proof.
  intros version listing.
  set (w0 := (NewDockerMonitor mainEnvs emptyWorld).2).
  assert (Hret : (runWorkflows host 0 (mainWorkflows 0) w0).1 = Returned tt).
  { apply (runWorkflows_returns host 0); [repeat constructor|by eexists]. }
  assert (He : exists e0,
    entryAt (runWorkflows host 0 (mainWorkflows 0) w0).2 0 0 = Some e0
    /\ ContainersInfo e0
       = match version.2, listing.2 with
         | None, None => containerRecords listing.1
         | _, _ => []
         end).
  { unfold mainWorkflows. rewrite runWorkflows_cons. cbn [Name Actions].
    match goal with |- context [executeEach host _ _ ?w'] =>
      destruct (threeProbes_containers host 0 0
                  (newDockerEnvironment "Dev Environment") w' eq_refl)
        as (e' & He' & Hn & Hc)
    end.
    cbn [newDockerEnvironment Environment] in He', Hn.
    exists e'. split.
    - assert (K : Forall (fun wf => Environment e' <> Name wf)
                    [ {| Name := "UAT Environment"; Actions := threeProbes 0 |} ]).
      { repeat constructor. rewrite Hn. discriminate. }
      destruct (executeEach host "Dev Environment" (threeProbes 0) _)
        as [[[err|]|msg] w1]; simpl in He'.
      + by apply runWorkflows_entryAt_other.
      + by apply runWorkflows_entryAt_other.
      + exact He'.
    - rewrite Hc. subst version listing. simpl.
      destruct (host [] _) as [? [?|]]; [reflexivity|].
      by destruct (host [_] _) as [? [?|]]. }
  destruct He as (e0 & He & Hc).
  destruct (runWorkflows host 0 (mainWorkflows 0) w0) as [o w] eqn:Hrun.
  simpl in Hret, He. subst o.
  rewrite (main_after_workflows host w e0 Hrun He), Hc.
  destruct version.2; [reflexivity|]. destruct listing.2; [reflexivity|].
  destruct (containerRecords listing.1) as [|c0 rest]; [reflexivity|].
  simpl. split; [reflexivity|]. apply last_snoc.
Qed.

(** ** Text in front of the first record *)

Lemma ReplaceAll_clear x rest old new :
  clearOf old x rest ->
  strings.ReplaceAll (x +:+ rest) old new
  = x +:+ strings.ReplaceAll rest old new.
Proof.
  intros H. unfold strings.ReplaceAll.
  destruct (String.eqb old new); [reflexivity|]. by apply replace_go_clear.
Qed.

Lemma HasPrefix_occurs c b p :
  strings.HasPrefix b p = true -> occurs c p = true -> occurs c b = true.
Proof.
  revert b. induction p as [|d p IH]; intros b H Hp; [discriminate|].
  destruct b as [|e b]; [discriminate|].
  rewrite HasPrefix_cons in H. apply andb_true_iff in H as [He H].
  apply Ascii.eqb_eq in He as ->. cbn [occurs] in *.
  apply orb_true_iff in Hp as [Hp|Hp]; [by rewrite Hp|].
  rewrite (IH b H Hp). apply orb_true_r.
Qed.

Lemma HasPrefix_app_cancel b s p :
  strings.HasPrefix (b +:+ s) (b +:+ p) = strings.HasPrefix s p.
Proof.
  induction b as [|c b IH]; [reflexivity|].
  rewrite !append_cons, HasPrefix_cons, Ascii.eqb_refl. exact IH.
Qed.

Lemma adjusted_head ls c p :
  c <> "<"%char -> strings.HasPrefix (adjusted ls) (String c p) = false.
Proof.
  intros Hc. destruct ls as [|l ls]; [reflexivity|].
  cbn [adjusted]. unfold sentinel. rewrite append_cons, HasPrefix_cons.
  destruct (Ascii.eqb_spec "<" c) as [E|_]; [by destruct Hc|reflexivity].
Qed.

Lemma junk_clearOf junk ls :
  occurs dquote junk = false -> clearOf separator junk (adjusted ls).
Proof.
  intros Hj a b E Hb.
  assert (Hq : occurs dquote b = false).
  { rewrite E, occurs_app in Hj. by apply orb_false_iff in Hj as [_ ?]. }
  destruct (strings.HasPrefix (b +:+ adjusted ls) separator) eqn:P;
    [exfalso|reflexivity].
  destruct (HasPrefix_app_cases _ _ _ P) as [H|[p' Ep]].
  - apply (HasPrefix_occurs dquote) in H; [congruence|reflexivity].
  - rewrite Ep, HasPrefix_app_cancel in P. unfold separator, sentinel in Ep.
    repeat (destruct b as [|? b];
            [simpl in Ep; subst p';
             first [by destruct Hb
                   |by rewrite adjusted_head in P]|];
            injection Ep as <- Ep).
    destruct b; [|discriminate Ep]. simpl in Hq. discriminate Hq.
Qed.

(** X11: text in front of the first record that has no quote in it, such
    as a warning of the runtime, is dropped: the records of a well-formed
    output are the same with it and without it, and an output that is
    nothing but such text gives no record. *)
Theorem text_before_first_record_is_dropped junk ls :
  occurs dquote junk = false ->
  Forall wellFormed ls ->
  Forall noSeparator ls ->
  containerRecords (junk +:+ blob ls) = map source ls.
Proof.
  intros Hj Hw Hs. rewrite containerRecords_spec. unfold fragments.
  rewrite ReplaceAll_clear by (by apply (clearOf_no_first dquote)).
  rewrite replace_blob by done. unfold strings.Split.
  rewrite split_go_clear by (by apply junk_clearOf).
  fold (strings.Split (adjusted ls) separator).
  rewrite split_adjusted by done. cbn [prepend tail].
  rewrite map_map. apply map_ext_Forall.
  eapply Forall_impl; [exact Hw|]. intros l Hl. by apply parseContainer_piece.
Qed.

Lemma text_before_first_record_is_dropped_witness :
  containerRecords
    ("WARNING: No swap limit support" +:+ newline +:+ blob twoLines)
  = map source twoLines
  /\ containerRecords ("Cannot connect to the Docker daemon" +:+ blob []) = [].
Proof.
  split.
  - rewrite <- append_assoc.
    apply (text_before_first_record_is_dropped
             ("WARNING: No swap limit support" +:+ newline) twoLines).
    + reflexivity.
    + repeat constructor; apply exampleLine_wellFormed; denotes.
    + repeat constructor; vm_compute; reflexivity.
  - apply (text_before_first_record_is_dropped
             "Cannot connect to the Docker daemon" []);
      [reflexivity|constructor|constructor].
Defined.

(** ** The listing of the images *)

Lemma range_countImage_records pieces :
  forall index acc,
    index <> 0 ->
    (range countImage index pieces acc).2 = acc.2 ++ map parseImage pieces.
Proof.
  induction pieces as [|img pieces IH]; intros index [t o] Hi; cbn [range map].
  - simpl. by rewrite app_nil_r.
  - rewrite countImage_step by done. rewrite IH by lia. simpl.
    by rewrite <- app_assoc.
Qed.

Lemma imageRecords_spec out :
  imageRecords out = map parseImage (fragments imageMarker out).
Proof.
  unfold imageRecords, splitImages, fragments.
  destruct (Split_cons (strings.ReplaceAll out imageMarker
                          (sentinel +:+ imageMarker)) separator) as [p ->].
  simpl. rewrite range_countImage_records by lia. reflexivity.
Qed.

(** X12: the image probe counts every piece of the output after the
    first as an image, whatever is in it: the count is the number of the
    records, the record of a piece depends on that piece alone, and a
    piece that is not valid JSON gives the zero record and counts as an
    image all the same. *)
Theorem every_image_fragment_counts out :
  (Z.of_nat (String.length out) <= MaxInt)%Z ->
  (splitImages out).1 = Z.of_nat (length (imageRecords out))
  /\ length (imageRecords out) = length (fragments imageMarker out)
  /\ forall i img,
       fragments imageMarker out !! i = Some img ->
       imageRecords out !! i
         = Some (json.Unmarshal (trimmed img) zero_ImageInfo).1
       /\ (json.checkValid (trimmed img) = false ->
           imageRecords out !! i = Some zero_ImageInfo).
Proof.
  intros Hb. rewrite imageRecords_spec, splitImages_spec by done.
  rewrite length_map. split; [reflexivity|]. split; [reflexivity|].
  intros i img Hi. rewrite list_lookup_fmap, Hi. split; [reflexivity|].
  intros Hv. simpl. unfold parseImage, json.Unmarshal. by rewrite Hv.
Qed.

Lemma every_image_fragment_counts_witness :
  (splitImages (sq "'{'Containers':'N/A','Repo
'{'Containers':'N/A','Repository':'nginx'}'
")).1 = 2%Z.
Proof.
  destruct (every_image_fragment_counts (sq "'{'Containers':'N/A','Repo
'{'Containers':'N/A','Repository':'nginx'}'
")) as (H & _).
  - vm_compute. discriminate.
  - rewrite H. reflexivity.
Defined.

(** *** The record of an image *)

Lemma encodesImage_members js r :
  encodesImage js r ->
  exists body kvs vals,
    js = objectText (("Containers", body) :: kvs)
    /\ Denotes body (iContainers r)
    /\ Forall2 wellFormedMember kvs vals
    /\ (("Containers", body) :: kvs).*1 = imageKeys
    /\ iContainers r :: vals = imageFields r.
Proof.
  intros (bodies & Hb & ->).
  assert (Hlen : length bodies = 11)
    by (apply Forall2_length in Hb; exact Hb).
  repeat (destruct bodies as [|? bodies]; [discriminate Hlen|]).
  destruct bodies; [|discriminate Hlen].
  unfold imageFields in *.
  repeat match goal with
  | H : Forall2 _ (_ :: _) (_ :: _) |- _ =>
    apply Forall2_cons_1 in H as [? H]
  end.
  eexists _, _, _. split; [reflexivity|]. split; [assumption|].
  split; [|split; reflexivity].
  repeat (constructor; [split; [reflexivity|assumption]|]).
  constructor.
Qed.

(** The tag of [CreatedSince] is [createSince]: the member that the
    listing names [CreatedSince] matches no field. *)
Lemma Unmarshal_image js r :
  encodesImage js r ->
  json.Unmarshal js zero_ImageInfo = (set_iCreatedSince "" r, None).
Proof.
  intros H. destruct (encodesImage_members js r H)
    as (body & kvs & vals & -> & Hb & Hm & Hk & Hv).
  rewrite (Unmarshal_objectText (("Containers", body) :: kvs)
             (iContainers r :: vals)).
  - rewrite Hk, Hv. destruct r. reflexivity.
  - constructor; [split; [reflexivity|exact Hb]|exact Hm].
Qed.

Lemma imageBlob_head ls p :
  strings.HasPrefix (imageBlob ls) (String "{" p) = false.
Proof. destruct ls; reflexivity. Qed.

Lemma imageLine_marker body kvs ws :
  quoted (objectText (("Containers", body) :: kvs)) +:+ ws
  = imageMarker
    +:+ (quoted body +:+ closeObject kvs +:+ String dquote ws).
Proof.
  unfold quoted, objectText, member, quoted, imageMarker.
  cbn [String.append]. rewrite !append_assoc. reflexivity.
Qed.

Lemma imageLine_clearOf body v kvs vals ws next :
  Denotes body v ->
  Forall2 wellFormedMember kvs vals ->
  allSpace ws = true ->
  (forall p, strings.HasPrefix next (String "{" p) = false) ->
  clearOf imageMarker
    (quoted body +:+ closeObject kvs +:+ String dquote ws) next.
Proof.
  intros Hb Hm Hws Hn.
  destruct (closeObject_head kvs (String dquote ws +:+ next))
    as (d & Y & E & Hd).
  apply (clearOf_app _ (quoted body) (closeObject kvs +:+ String dquote ws)).
  - rewrite append_assoc, E.
    apply (quoted_clearOf "C" ("ontainers" +:+ String dquote ":") eq_refl body v);
      assumption.
  - apply (closeObject_clearOf "C" ("ontainers" +:+ String dquote ":") eq_refl
             kvs vals); [assumption..|apply Hn].
Qed.

Lemma replace_imageMarker rest new :
  strings.replace_go 0 (imageMarker +:+ rest) imageMarker new
  = new +:+ strings.replace_go 0 rest imageMarker new.
Proof. apply (replace_go_match dquote). Qed.

Lemma replace_imageBlob ls :
  Forall wellFormedImage ls ->
  strings.ReplaceAll (imageBlob ls) imageMarker (sentinel +:+ imageMarker)
  = imageAdjusted ls.
Proof.
  intros H. unfold strings.ReplaceAll.
  change (String.eqb imageMarker (sentinel +:+ imageMarker)) with false.
  cbv iota.
  induction H as [|[js ws r] ls [Hjs Hws] _ IH]; [reflexivity|].
  cbn [imageText imageTrailing imageSource] in *.
  cbn [imageBlob imageAdjusted imageText imageTrailing].
  destruct (encodesImage_members js r Hjs)
    as (body & kvs & vals & -> & Hb & Hm & _ & _).
  rewrite <- !append_assoc, imageLine_marker, !append_assoc.
  rewrite replace_imageMarker.
  rewrite <- (append_assoc (quoted body)), <- append_assoc.
  rewrite replace_go_clear.
  - rewrite IH.
    rewrite <- (append_assoc (quoted (objectText _)) ws), imageLine_marker.
    rewrite !append_assoc. reflexivity.
  - rewrite append_assoc.
    apply (imageLine_clearOf body (iContainers r) kvs vals); try assumption.
    intros p. apply imageBlob_head.
Qed.

Lemma imagePiece_clearOf l ls :
  wellFormedImage l -> noSeparatorImage l ->
  clearOf separator (imagePiece l) (imageAdjusted ls).
Proof.
  intros [Hjs Hws] Hsep. unfold imagePiece, noSeparatorImage in *.
  destruct l as [js ws r]. cbn [imageText imageTrailing imageSource] in *.
  apply clearOf_app.
  - destruct Hjs as (bodies & _ & ->).
    destruct (objectText_last (zip imageKeys bodies)) as [x E].
    rewrite E in *. by apply clearOf_not_contains.
  - apply (clearOf_no_first "<"). cbn [occurs].
    by rewrite allSpace_no.
Qed.

Lemma split_imageAdjusted ls :
  Forall wellFormedImage ls -> Forall noSeparatorImage ls ->
  strings.Split (imageAdjusted ls) separator = "" :: map imagePiece ls.
Proof.
  unfold strings.Split. intros Hw Hs.
  induction Hw as [|l ls Hl _ IH]; [reflexivity|].
  apply Forall_cons_1 in Hs as [Hsl Hs].
  cbn [imageAdjusted map].
  replace (sentinel +:+ quoted (imageText l) +:+ imageTrailing l
           +:+ imageAdjusted ls)
    with (separator +:+ imagePiece l +:+ imageAdjusted ls).
  - rewrite split_separator, split_go_clear by (by apply imagePiece_clearOf).
    rewrite IH by done. cbn [prepend]. by rewrite append_nil_r.
  - unfold separator, imagePiece, quoted, sentinel. cbn [String.append].
    rewrite !append_assoc. reflexivity.
Qed.

Lemma fragments_imageBlob ls :
  Forall wellFormedImage ls -> Forall noSeparatorImage ls ->
  fragments imageMarker (imageBlob ls) = map imagePiece ls.
Proof.
  intros Hw Hs. unfold fragments.
  by rewrite replace_imageBlob, split_imageAdjusted.
Qed.

Lemma parseImage_piece l :
  wellFormedImage l ->
  parseImage (imagePiece l) = set_iCreatedSince "" (imageSource l).
Proof.
  intros [Hjs Hws]. unfold parseImage, trimmed, imagePiece.
  destruct (encodesImage_members _ _ Hjs)
    as (body & kvs & vals & E & _).
  rewrite E at 1. cbn [objectText]. rewrite append_cons.
  rewrite trim_piece by done. rewrite <- append_cons.
  change (String "{" "" +:+ member "Containers" body +:+ closeObject kvs)
    with (objectText (("Containers", body) :: kvs)).
  rewrite <- E. by rewrite (Unmarshal_image _ _ Hjs).
Qed.

Lemma exampleImageLine_wellFormed repository tag createdSince :
  Denotes repository repository -> Denotes tag tag ->
  Denotes createdSince createdSince ->
  wellFormedImage (exampleImageLine repository tag createdSince).
Proof.
  intros Hr Ht Hc. split; [|reflexivity].
  exists [""; ""; createdSince; ""; ""; repository; ""; ""; tag; ""; ""].
  split; [|reflexivity]. unfold imageFields. simpl.
  repeat (constructor; [first [assumption|apply Denotes_nil]|]). constructor.
Qed.

(** X13: for an output made of N well-formed image records in quotes,
    each followed by white space or by nothing and none with the
    separator in its text, the image probe returns N records in the
    order of the output, each with the fields of its source but for
    CreatedSince, which is empty in every record: the field is tagged
    createSince and the listing names it CreatedSince. *)
Theorem image_records_lose_CreatedSince ls :
  Forall wellFormedImage ls ->
  Forall noSeparatorImage ls ->
  imageRecords (imageBlob ls)
    = map (fun l => set_iCreatedSince "" (imageSource l)) ls
  /\ Forall (fun r => iCreatedSince r = "") (imageRecords (imageBlob ls)).
Proof.
  intros Hw Hs.
  assert (E : imageRecords (imageBlob ls)
              = map (fun l => set_iCreatedSince "" (imageSource l)) ls).
  { rewrite imageRecords_spec, fragments_imageBlob by done.
    rewrite map_map. apply map_ext_Forall.
    eapply Forall_impl; [exact Hw|]. intros l Hl. by apply parseImage_piece. }
  split; [exact E|]. rewrite E. apply Forall_fmap, Forall_true. by intros l.
Qed.

Lemma image_records_lose_CreatedSince_witness :
  imageRecords (imageBlob twoImageLines)
  = [exampleImage "nginx" "latest" ""; exampleImage "postgres" "13" ""].
Proof.
  apply (image_records_lose_CreatedSince twoImageLines).
  - repeat constructor; apply exampleImageLine_wellFormed; denotes.
  - repeat constructor; vm_compute; reflexivity.
Defined.

(** *** The tag of CreatedSince *)

Lemma findField_createSince key :
  match json.findField (T := ImageInfo) key with
  | Some set =>
    forall v r,
      iCreatedSince (set v r)
      = if String.eqb (json.foldName key) "CREATESINCE" then v
        else iCreatedSince r
  | None => String.eqb (json.foldName key) "CREATESINCE" = false
  end.
Proof.
  unfold json.findField, json.fields, ImageInfo_struct. cbn [json.lookupBy].
  destruct (String.eqb (json.foldName key) "CREATESINCE") eqn:F.
  - apply String.eqb_eq in F.
    repeat match goal with
    | |- context [String.eqb key ?t] =>
      destruct (String.eqb_spec key t) as [->|_];
        [first [by intros|vm_compute in F; discriminate F]|]
    end.
    rewrite F. by intros.
  - apply String.eqb_neq in F.
    repeat match goal with
    | |- context [String.eqb key ?t] =>
      destruct (String.eqb_spec key t) as [->|_];
        [first [by intros|by destruct F]|]
    end.
    repeat match goal with
    | |- context [String.eqb (json.foldName ?t) (json.foldName key)] =>
      destruct (String.eqb_spec (json.foldName t) (json.foldName key)) as [E|_];
        [first [by intros|by destruct F; symmetry]|]
    end.
    reflexivity.
Qed.



(** ** The counts are counts *)

Lemma probeAssign_nonnegative a out e :
  (Z.of_nat (String.length out) <= MaxInt)%Z ->
  (0 <= StoppedContainers e)%Z /\ (0 <= RunningContainers e)%Z
  /\ (0 <= TotalLocalDockerImages e)%Z ->
  (0 <= StoppedContainers (probeAssign a out e))%Z
  /\ (0 <= RunningContainers (probeAssign a out e))%Z
  /\ (0 <= TotalLocalDockerImages (probeAssign a out e))%Z.
Proof.
  intros Hb (H1 & H2 & H3). destruct a as [l|l|l]; simpl.
  - auto.
  - rewrite splitContainers_spec by done. simpl. lia.
  - rewrite splitImages_spec by done. simpl. lia.
Qed.

(** X15: in every world that the construction of registries and the
    execution of probes lead to, on a host whose outputs have a length
    that an int holds, no count of any entry is negative: the additions
    of the counting loops never wrap around. *)
Theorem counts_are_never_negative host w :
  boundedHost host ->
  reachable host w ->
  forall l d e,
    heap w !! l = Some d ->
    e ∈ DockerEnvironments d ->
    (0 <= StoppedContainers e)%Z /\ (0 <= RunningContainers e)%Z
    /\ (0 <= TotalLocalDockerImages e)%Z.
Proof.
  intros Hb Hr.
  induction Hr as [|envs w Hr IH|a env w Hr IH]; intros l d e Hd He.
  - simpl in Hd. by rewrite lookup_empty in Hd.
  - unfold NewDockerMonitor, new in Hd. simpl in Hd.
    destruct (decide (l = fresh (dom (heap w)))) as [->|Hne].
    + rewrite lookup_insert_eq in Hd. injection Hd as <-. simpl in He.
      rewrite newDockerEnvironments_map in He.
      apply list_elem_of_fmap in He as (name & -> & _). simpl.
      unfold InitialContainers, InitialLocalImages. lia.
    + rewrite lookup_insert_ne in Hd by done. eauto.
  - rewrite execute_spec in Hd. simpl in Hd.
    pose proof (Hb (commands w) (probeCmd a)) as Hlen.
    destruct (host (commands w) (probeCmd a)) as [out [err|]]; simpl in *; [eauto|].
    destruct (heap w !! probeMonitor a) as [d0|] eqn:Hd0; simpl in *; [|eauto].
    destruct (decide (l = probeMonitor a)) as [->|Hne].
    + rewrite lookup_insert_eq in Hd. injection Hd as <-. simpl in He.
      apply list_elem_of_fmap in He as (e0 & -> & He0).
      unfold onMatching. specialize (IH _ _ _ Hd0 He0).
      destruct (String.eqb (Environment e0) env); [|exact IH].
      by apply probeAssign_nonnegative.
    + rewrite lookup_insert_ne in Hd by done. eauto.
Qed.

Lemma counts_are_never_negative_witness :
  (0 <= 1)%Z /\ (0 <= 1)%Z /\ (0 <= 0)%Z.
Proof.
  apply (counts_are_never_negative (constHost twoContainers)
           (execute (constHost twoContainers) (CheckContainersStatus 0) "Dev"
              (NewDockerMonitor ["Dev"; "UAT"] emptyWorld).2).2)
    with (l := 0)
         (d := {| DockerEnvironments :=
                    [ {| Environment := "Dev";
                         StoppedContainers := 1;
                         RunningContainers := 1;
                         DockerVersion := "";
                         TotalLocalDockerImages := 0;
                         ContainersInfo := containerRecords twoContainers;
                         ImagesInfo := [] |};
                      newDockerEnvironment "UAT" ] |})
         (e := {| Environment := "Dev";
                  StoppedContainers := 1;
                  RunningContainers := 1;
                  DockerVersion := "";
                  TotalLocalDockerImages := 0;
                  ContainersInfo := containerRecords twoContainers;
                  ImagesInfo := [] |}).
  - intros history c. vm_compute. discriminate.
  - apply reachable_execute, reachable_new, reachable_empty.
  - vm_compute. reflexivity.
  - simpl. apply list_elem_of_here.
Defined.

(** ** A probe without a monitor *)

(** X16: a probe whose pointer points to no monitor runs its command all
    the same; when the command fails it returns the error, and when the
    command succeeds it panics on the nil pointer before it prints, and
    the panic ends the workflow it is in: no probe after it runs. *)
Theorem probe_without_monitor host a env w :
  heap w !! probeMonitor a = None ->
  (forall e, (host (commands w) (probeCmd a)).2 = Some e ->
     execute host a env w = (Returned (Some e), ran (probeCmd a) w))
  /\ ((host (commands w) (probeCmd a)).2 = None ->
      execute host a env w = (Panicked nilDereference, ran (probeCmd a) w)
      /\ forall post,
           executeEach host env (a :: post) w
           = (Panicked nilDereference, ran (probeCmd a) w)).
Proof.
  intros Hnil. split.
  - intros e He. rewrite execute_spec. simpl. by rewrite He.
  - intros Hok.
    assert (E : execute host a env w
                = (Panicked nilDereference, ran (probeCmd a) w)).
    { rewrite execute_spec. simpl. by rewrite Hok, Hnil. }
    split; [exact E|]. intros post. cbn [executeEach]. unfold bind.
    by rewrite E.
Qed.

Lemma probe_without_monitor_witness :
  executeEach (constHost "Docker version 20.10.8") "Dev"
    [CheckDockerVersion 7; CheckContainersStatus 0] devUat
  = (Panicked nilDereference, ran (probeCmd (CheckDockerVersion 7)) devUat).
Proof.
  destruct (probe_without_monitor (constHost "Docker version 20.10.8")
              (CheckDockerVersion 7) "Dev" devUat eq_refl) as [_ H].
  destruct (H eq_refl) as [_ H2]. apply H2.
Defined.
